(** * ncc: the discovery-and-visit pipeline of [run_firefox.py]

    A shallow embedding of the scraper's core ([NaverCoinScraper] in
    [src/run_firefox.py], configuration in [src/config.py]) and the
    properties its specification states about it.

    Conventions of the embedding.
    - A Python [str] is a Rocq [string]: the text in UTF-8, one character
      per byte.  Case mapping and white space act on the ASCII range.
    - A Python [set] of strings is a [gset string]; a loop over a set runs
      over [elements] of it, a loop over a [dict] over its items in
      insertion order.
    - A call that may raise returns an [option] (or a sum): [None] is the
      exception, and every [try]/[except] of the source is a [match] on it.
    - Files, the clock, the network and the browser driver are explicit:
      the files and the trace of external calls are a [state] threaded
      through the run, the answers of the outside world are the fields of
      a [world]. *)

From Stdlib Require Import Ascii String List ZArith QArith Lia Lqa.
From stdpp Require Import base option list gmap sets strings sorting.

Local Open Scope string_scope.
Set Warnings "-clear-no-such-hyp".

(* ===================================================================== *)
(** * Python string operations *)
(* ===================================================================== *)

Module PyStr.

(** [s.startswith(p)] *)
Definition startswith (s p : string) : bool := String.prefix p s.

(** [needle in hay] *)
Fixpoint contains (needle hay : string) : bool :=
  String.prefix needle hay
  || match hay with
     | EmptyString => false
     | String _ rest => contains needle rest
     end.

(** [c in s] for a single character *)
Fixpoint mem (c : ascii) (s : string) : bool :=
  match s with
  | EmptyString => false
  | String d rest => Ascii.eqb c d || mem c rest
  end.

(** truthiness of a string: [bool(s)] *)
Definition truthy (s : string) : bool :=
  match s with EmptyString => false | _ => true end.

Definition is_upper (c : ascii) : bool :=
  let n := nat_of_ascii c in (65 <=? n)%nat && (n <=? 90)%nat.
Definition is_lower (c : ascii) : bool :=
  let n := nat_of_ascii c in (97 <=? n)%nat && (n <=? 122)%nat.
Definition is_digit (c : ascii) : bool :=
  let n := nat_of_ascii c in (48 <=? n)%nat && (n <=? 57)%nat.
(** [c.isascii() and c.isalpha()] *)
Definition is_ascii_alpha (c : ascii) : bool := is_upper c || is_lower c.
Definition is_ascii (c : ascii) : bool := (nat_of_ascii c <? 128)%nat.

Definition lower_char (c : ascii) : ascii :=
  if is_upper c then ascii_of_nat (nat_of_ascii c + 32) else c.

(** [s.lower()] *)
Fixpoint lower (s : string) : string :=
  match s with
  | EmptyString => EmptyString
  | String c rest => String (lower_char c) (lower rest)
  end.

(** [s.isascii()] *)
Fixpoint isascii (s : string) : bool :=
  match s with
  | EmptyString => true
  | String c rest => is_ascii c && isascii rest
  end.

(** [s.lstrip(chars)] for a set of characters given as a predicate *)
Fixpoint lstrip (p : ascii -> bool) (s : string) : string :=
  match s with
  | EmptyString => EmptyString
  | String c rest => if p c then lstrip p rest else s
  end.

Fixpoint rev_string (acc s : string) : string :=
  match s with
  | EmptyString => acc
  | String c rest => rev_string (String c acc) rest
  end.

Definition rstrip (p : ascii -> bool) (s : string) : string :=
  rev_string "" (lstrip p (rev_string "" s)).

(** white space of [str.strip()] in the ASCII range:
    [\t \n \v \f \r], [\x1c]..[\x1f] and the space *)
Definition is_space (c : ascii) : bool :=
  let n := nat_of_ascii c in
  ((9 <=? n)%nat && (n <=? 13)%nat) || ((28 <=? n)%nat && (n <=? 32)%nat).

(** [s.strip()] *)
Definition strip (s : string) : string := rstrip is_space (lstrip is_space s).

(** [s.replace(c, "")] for each character satisfying [p] *)
Fixpoint remove (p : ascii -> bool) (s : string) : string :=
  match s with
  | EmptyString => EmptyString
  | String c rest => if p c then remove p rest else String c (remove p rest)
  end.

(** [s.split(c, 1)] when [c] occurs in [s]: the text before the first
    [c] and the text after it; [None] when [c] does not occur. *)
Fixpoint split1 (c : ascii) (s : string) : option (string * string) :=
  match s with
  | EmptyString => None
  | String d rest =>
      if Ascii.eqb c d then Some (EmptyString, rest)
      else match split1 c rest with
           | Some (a, b) => Some (String d a, b)
           | None => None
           end
  end.

(** [s.split(c)] *)
Fixpoint split (c : ascii) (s : string) : list string :=
  match s with
  | EmptyString => [EmptyString]
  | String d rest =>
      if Ascii.eqb c d then EmptyString :: split c rest
      else match split c rest with
           | w :: ws => String d w :: ws
           | [] => [String d EmptyString]
           end
  end.

(** the longest prefix of [s] without a character satisfying [p], and
    the rest, which starts at the first such character *)
Fixpoint break (p : ascii -> bool) (s : string) : string * string :=
  match s with
  | EmptyString => (EmptyString, EmptyString)
  | String c rest =>
      if p c then (EmptyString, s)
      else let '(a, b) := break p rest in (String c a, b)
  end.

Fixpoint forallb (p : ascii -> bool) (s : string) : bool :=
  match s with
  | EmptyString => true
  | String c rest => p c && forallb p rest
  end.

End PyStr.

(* ===================================================================== *)
(** * [urllib.parse]: [urlparse] and [parse_qs]

    The functions follow [Lib/urllib/parse.py] of CPython 3.12. *)
(* ===================================================================== *)

(** The six fields of [urllib.parse.ParseResult]. *)
Record ParseResult := mkParseResult {
  scheme : string;
  netloc : string;
  path : string;
  params : string;
  query : string;
  fragment : string
}.

Module UrlLib.
Import PyStr.

(** [scheme_chars]: letters, digits and [+-.] *)
Definition scheme_char (c : ascii) : bool :=
  is_ascii_alpha c || is_digit c
  || Ascii.eqb c "+" || Ascii.eqb c "-" || Ascii.eqb c ".".

(** [_WHATWG_C0_CONTROL_OR_SPACE] *)
Definition c0_control_or_space (c : ascii) : bool := (nat_of_ascii c <=? 32)%nat.

(** [_UNSAFE_URL_BYTES_TO_REMOVE]: tab, carriage return, line feed *)
Definition unsafe_url_byte (c : ascii) : bool :=
  let n := nat_of_ascii c in (n =? 9)%nat || (n =? 10)%nat || (n =? 13)%nat.

(** The scheme split of [urlsplit]: with [i = url.find(':')], when
    [i > 0], the first character is an ASCII letter and [url[:i]] is made
    of scheme characters, the scheme is [url[:i].lower()] and the rest
    is [url[i+1:]]. *)
Definition split_scheme (url : string) : string * string :=
  match split1 ":" url with
  | Some (String c0 pre, rest) =>
      if is_ascii_alpha c0 && forallb scheme_char (String c0 pre)
      then (lower (String c0 pre), rest)
      else (EmptyString, url)
  | _ => (EmptyString, url)
  end.

(** [_splitnetloc(url, 2)] for a [url] that starts with [//]: the
    domain runs up to the first of [/ ? #]. *)
Definition splitnetloc (after_slashes : string) : string * string :=
  break (fun c => Ascii.eqb c "/" || Ascii.eqb c "?" || Ascii.eqb c "#") after_slashes.

(** [uses_params] *)
Definition uses_params : list string :=
  [""; "ftp"; "hdl"; "prospero"; "http"; "imap"; "https"; "shttp"; "rtsp";
   "rtsps"; "rtspu"; "sip"; "sips"; "mms"; "sftp"; "tel"].

(** [url[:url.rfind('/')+1]] and the last path segment after it *)
Fixpoint last_segment (s : string) : string * string :=
  match s with
  | EmptyString => (EmptyString, EmptyString)
  | String c rest =>
      let '(dir, seg) := last_segment rest in
      if mem "/" rest then (String c dir, seg)
      else if Ascii.eqb c "/" then ("/", rest)
      else (EmptyString, String c rest)
  end.

(** [_splitparams]: the parameters start at the first [;] of the last
    path segment. *)
Definition splitparams (url : string) : string * string :=
  let '(dir, seg) := last_segment url in
  match split1 ";" seg with
  | Some (a, b) => (dir ++ a, b)
  | None => (url, EmptyString)
  end.

End UrlLib.

(** An anchor element as [_extract_url_candidates] reads it: the
    attributes [href], [data-href] and [onclick], [None] when absent. *)
Record a_tag := mkATag {
  a_href : option string;
  a_data_href : option string;
  a_onclick : option string
}.

(** A post body parsed by [BeautifulSoup(html, 'html.parser')]: the
    anchors of [find_all('a')] in document order and the visible text of
    [get_text(" ", strip=True)]. *)
Record soup := mkSoup {
  soup_a_tags : list a_tag;
  soup_text : string
}.

(** The answers of the Python library that the embedding does not compute. *)
Record pylib := mkPyLib {
  (** [BeautifulSoup(html, 'html.parser')] *)
  html_parser : string -> soup;
  (** [urlsplit] validates a netloc that is bracketed (an IPv6 literal,
      [_check_bracketed_netloc]) or not ASCII (NFKC normal form,
      [_checknetloc]) and raises [ValueError] when it is invalid:
      [netloc_invalid n = true] is that [ValueError]. *)
  netloc_invalid : string -> bool;
  (** [urljoin(base, url)]; [None] when it raises. *)
  urljoin : string -> string -> option string;
  (** [re.findall] of the first pattern of [_extract_url_candidates]: the
      [http(s)://] URLs written between quote characters in [s] *)
  findall_quoted_urls : string -> list string;
  (** [re.findall] of its second pattern: the bare [http(s)://] URLs of
      [s], each ended by white space, a quote, an angle bracket or a
      parenthesis *)
  findall_text_urls : string -> list string
}.

Section UrlParse.
Import PyStr UrlLib.
Variable py : pylib.

(** The netloc checks of [urlsplit]: a lone bracket is an "Invalid IPv6
    URL"; a bracketed or a non-ASCII netloc goes through the library's
    validation. *)
Definition netloc_raises (nl : string) : bool :=
  let lb := mem "[" nl in
  let rb := mem "]" nl in
  if xorb lb rb then true
  else if lb && rb then netloc_invalid py nl
  else if negb (truthy nl) || isascii nl then false
  else netloc_invalid py nl.

(** [urllib.parse.urlsplit(url)]: scheme, netloc, path with parameters,
    query, fragment; [None] when it raises [ValueError]. *)
Definition urlsplit (url : string) : option (string * string * string * string * string) :=
  let url := lstrip c0_control_or_space url in
  let url := remove unsafe_url_byte url in
  let '(sch, url) := split_scheme url in
  let '(nl, url) :=
    match url with
    | String "/" (String "/" rest) => splitnetloc rest
    | _ => (EmptyString, url)
    end in
  let '(url, frag) :=
    match split1 "#" url with Some (a, b) => (a, b) | None => (url, EmptyString) end in
  let '(url, qry) :=
    match split1 "?" url with Some (a, b) => (a, b) | None => (url, EmptyString) end in
  if netloc_raises nl then None
  else Some (sch, nl, url, qry, frag).

(** [urllib.parse.urlparse(url)] *)
Definition urlparse (url : string) : option ParseResult :=
  match urlsplit url with
  | None => None
  | Some (sch, nl, url, qry, frag) =>
      let '(url, prm) :=
        if bool_decide (sch ∈ uses_params) && mem ";" url
        then splitparams url else (url, EmptyString) in
      Some (mkParseResult sch nl url prm qry frag)
  end.

(** [s.rpartition(c)[2]]: the text after the last [c], all of [s]
    when there is none *)
Definition after_last (c : ascii) (s : string) : string :=
  match split1 c s with
  | Some (_, rest) =>
      (fix go (fuel : nat) (t : string) : string :=
         match fuel with
         | O => t
         | S fuel' =>
             match split1 c t with
             | Some (_, t') => go fuel' t'
             | None => t
             end
         end) (String.length rest) rest
  | None => s
  end.

(** [ParseResult.hostname]: the host of the netloc, lower-cased (an
    IPv6 zone after [%] keeps its case); [None] when it is empty. *)
Definition hostname (r : ParseResult) : option string :=
  let hostinfo := after_last "@" (netloc r) in
  let host :=
    match split1 "[" hostinfo with
    | Some (_, bracketed) =>
        match split1 "]" bracketed with Some (h, _) => h | None => bracketed end
    | None =>
        match split1 ":" hostinfo with Some (h, _) => h | None => hostinfo end
    end in
  if truthy host then
    match split1 "%" host with
    | Some (h, zone) => Some (lower h ++ "%" ++ zone)
    | None => Some (lower host)
    end
  else None.

End UrlParse.

Module QueryString.
Import PyStr.

Definition hex_value (c : ascii) : option nat :=
  let n := nat_of_ascii c in
  if is_digit c then Some (n - 48)%nat
  else if (97 <=? n)%nat && (n <=? 102)%nat then Some (n - 87)%nat
  else if (65 <=? n)%nat && (n <=? 70)%nat then Some (n - 55)%nat
  else None.

(** [urllib.parse.unquote]: each [%XX] with two hexadecimal digits is
    the byte [XX], any other [%] stays.  (Python then reads the bytes as
    UTF-8 and puts U+FFFD for an ill-formed sequence; the bytes are kept
    here as they are.) *)
Fixpoint unquote (s : string) : string :=
  match s with
  | EmptyString => EmptyString
  | String c rest =>
      if Ascii.eqb c "%" then
        match rest with
        | String a (String b rest') =>
            match hex_value a, hex_value b with
            | Some x, Some y => String (ascii_of_nat (16 * x + y)) (unquote rest')
            | _, _ => String c (unquote rest)
            end
        | _ => String c (unquote rest)
        end
      else String c (unquote rest)
  end.

(** [name.replace('+', ' ')] *)
Fixpoint plus_to_space (s : string) : string :=
  match s with
  | EmptyString => EmptyString
  | String c rest => String (if Ascii.eqb c "+" then " "%char else c) (plus_to_space rest)
  end.

(** [parse_qsl(qs)] with its defaults ([keep_blank_values=False],
    [strict_parsing=False], separator [&]): a field without [=] or with
    an empty value is dropped. *)
Definition parse_qsl (qs : string) : list (string * string) :=
  if negb (truthy qs) then []
  else
    flat_map (fun name_value =>
                match split1 "=" name_value with
                | Some (name, value) =>
                    if truthy value
                    then [(unquote (plus_to_space name), unquote (plus_to_space value))]
                    else []
                | None => []
                end)
             (split "&" qs).

(** [parse_qs(qs)]: the values of each name, in order of appearance *)
Definition parse_qs (qs : string) : gmap string (list string) :=
  foldl (fun (parsed_result : gmap string (list string)) '(name, value) =>
           match parsed_result !! name with
           | Some vs => <[name := (vs ++ [value])%list]> parsed_result
           | None => <[name := [value]]> parsed_result
           end)
        ∅ (parse_qsl qs).

End QueryString.

(* ===================================================================== *)
(** * The scraper *)
(* ===================================================================== *)

Section Scraper.
Import PyStr UrlLib QueryString.
Variable py : pylib.

(** ** Campaign Filter: [_filter_campaign_urls] *)

(** The point-claim test: host and path of the first rule *)
Definition is_click_point (parsed : ParseResult) : bool :=
  bool_decide (netloc parsed = "campaign2.naver.com")
  && contains "/npay/v2/click-point/" (path parsed).

(** The ad-partner test of the second rule *)
Definition is_adison (parsed : ParseResult) : bool :=
  bool_decide (netloc parsed = "ofw.adison.co")
  && contains "/u/naverpay/ads/" (path parsed).

(** The generic keyword test of the third rule *)
Definition is_naver_keyword (parsed : ParseResult) : bool :=
  contains "naver" (netloc parsed)
  && existsb (fun keyword => contains keyword (lower (path parsed)))
             ["point"; "campaign"; "event"].

(** The body of the loop for one [url], as a decision: [true] when the
    body reaches one of its three [campaign_urls.add(url)].  An
    exception of [urlparse] is caught and the URL skipped. *)
Definition is_campaign_url (url : string) : bool :=
  match urlparse py url with
  | None => false
  | Some parsed =>
      if is_click_point parsed
         && bool_decide (is_Some (parse_qs (query parsed) !! "eventId"))
      then true
      else if is_adison parsed then true
      else is_naver_keyword parsed
  end.

Definition _filter_campaign_urls (url_candidates : gset string) : gset string :=
  foldl (fun campaign_urls url =>
           if is_campaign_url url then campaign_urls ∪ {[url]} else campaign_urls)
        ∅ (elements url_candidates).

(** ** URL Normalizer: [_extract_url_candidates] *)

(** Steps 1 to 3: the candidates of a parsed page.  Every anchor gives
    its [href] and [data-href], stripped, when they are not empty, and
    the quoted URLs of its [onclick]; the visible text gives its bare
    URLs. *)
Definition raw_candidates (page : soup) : gset string :=
  let candidates :=
    foldl (fun (candidates : gset string) (a : a_tag) =>
             let candidates :=
               foldl (fun (candidates : gset string) (attr : option string) =>
                        match attr with
                        | Some href =>
                            if truthy href then candidates ∪ {[strip href]} else candidates
                        | None => candidates
                        end)
                     candidates [a_href a; a_data_href a] in
             match a_onclick a with
             | Some onclick =>
                 if truthy onclick
                 then candidates ∪ list_to_set (findall_quoted_urls py onclick)
                 else candidates
             | None => candidates
             end)
          ∅ (soup_a_tags page) in
  candidates ∪ list_to_set (findall_text_urls py (soup_text page)).

(** Step 4 for one candidate, inside its [try]: the URL added to
    [normalized_urls], [None] when nothing is added (the test fails, or
    [urlparse] or [urljoin] raised and the [except] skipped it). *)
Definition normalize_url (base_netloc url : string) : option string :=
  let resolved :=
    if startswith url "//" then Some ("https:" ++ url)
    else match urlparse py url with
         | None => None
         | Some p =>
             if negb (truthy (scheme p)) then urljoin py (base_netloc ++ "/") url
             else Some url
         end in
  match resolved with
  | None => None
  | Some url =>
      match urlparse py url with
      | None => None
      | Some parsed =>
          if bool_decide (scheme parsed ∈ ["http"; "https"]) && truthy (netloc parsed)
          then Some url else None
      end
  end.

(** Step 4 over the candidates; [urlparse(base_url)] is outside the
    [try] of the loop, so its [ValueError] reaches the caller: [None]. *)
Definition normalize_candidates (candidates : gset string) (base_url : string)
  : option (gset string) :=
  match urlparse py base_url with
  | None => None
  | Some base_parsed =>
      let base_netloc := scheme base_parsed ++ "://" ++ netloc base_parsed in
      Some (foldl (fun (normalized_urls : gset string) url =>
                     match normalize_url base_netloc url with
                     | Some url' => normalized_urls ∪ {[url']}
                     | None => normalized_urls
                     end)
                  ∅ (elements candidates))
  end.

Definition _extract_url_candidates (html_content base_url : string)
  : option (gset string) :=
  normalize_candidates (raw_candidates (html_parser py html_content)) base_url.

End Scraper.

(* ===================================================================== *)
(** * Configuration, outside world and state of a run *)
(* ===================================================================== *)

(** A value of [config.SCRAPING_SITES] *)
Record site_config := mkSite {
  cfg_tag : string;
  cfg_class : string;
  cfg_domain : string
}.

(** [config.py]: the dictionaries as their items in insertion order *)
Record config := mkConfig {
  naver_login_info : list (string * string);
  DELAY_HOURS : Z;
  MIN_DWELL_TIME : Z;
  SCRAPING_SITES : list (string * site_config)
}.

(** The sites of [config.py] *)
Definition default_sites : list (string * site_config) :=
  [("https://damoang.net/economy",
     mkSite "div" "flex-grow-1 overflow-hidden" "damoang.net");
   ("https://www.clien.net/service/board/jirum",
     mkSite "span" "list_subject" "clien.net");
   ("https://bbs.ruliweb.com/market/board/1020",
     mkSite "td" "subject" "ruliweb.com");
   ("https://www.ppomppu.co.kr/zboard/zboard.php?id=coupon",
     mkSite "td" "baseList-space" "ppomppu.co.kr");
   ("https://www.dogdrip.net/hotdeal",
     mkSite "h5" "ed title margin-remove" "dogdrip.net")].

(** An element of a listing page as the Post Collector reads it:
    [el_first_a] is the [href] of [element.find('a', href=True)],
    [el_next_a] the [href] of [find_next('a', href=True)] from that
    anchor, [el_text] is [element.get_text(strip=True)]. *)
Record element := mkElement {
  el_first_a : option string;
  el_next_a : option string;
  el_text : string
}.

(** How the write of the visited-urls file ends: all lines written, the
    [open] fails (the file keeps its contents), or a [write] fails after
    [k] lines of the truncated file. *)
Inductive write_outcome :=
| WriteOk
| OpenFails
| WriteFailsAfter (k : nat).

(** How [_create_firefox_driver] ends: it returns a driver; or
    [webdriver.Firefox] raises and no browser runs; or the browser is
    launched and the [execute_script] that follows raises.  Either
    exception is logged and raised again, so that the variable [driver]
    of [get_coin] stays [None] and a browser that was launched is not
    handed to the caller. *)
Inductive driver_creation :=
| DriverReturned
| LaunchRaises
| SetupRaises.

#[local] Instance driver_creation_eq_dec : EqDecision driver_creation.
Proof. solve_decision. Defined.

(** The outside world of one run. *)
Record world := mkWorld {
  (** [fcntl.lockf] of the PID file succeeds *)
  lock_acquired : bool;
  (** [time.time()] at the gate check *)
  time_now : Q;
  (** [requests.get(url, ...)] then [raise_for_status()]: the body, or
      [None] for a [RequestException] *)
  requests_get : string -> option string;
  (** [BeautifulSoup(text).find_all(tag, class_=cls)]; [None] when the
      parse raises *)
  find_all : string -> string -> string -> option (list element);
  (** reading the visited-urls file succeeds *)
  visited_readable : bool;
  visited_write : write_outcome;
  (** [_create_firefox_driver] in the turn of this account *)
  firefox_driver : string -> driver_creation;
  (** [_login_naver] for an account and its password *)
  login_ok : string -> string -> bool;
  (** the visit of a link by an account: [Some b] is the result of
      [_process_campaign_site], [None] an exception on the way *)
  visit_link : string -> string -> option bool
}.

(** The calls a run makes to the outside. *)
Inductive event :=
| HttpGet (url : string)
| DriverStart (account : string)
| DriverLogin (account : string)
| DriverGet (account link : string)
| DriverQuit (account : string)
| UnlinkBreakPoint
| WriteBreakPoint
| WriteVisited.

(** The scraper object and its two files.  [break_point_file] holds the
    modification time and the contents of the marker. *)
Record state := mkState {
  visited_urls : gset string;
  visited_urls_file : option string;
  break_point_file : option (Q * string);
  trace : list event
}.

(** How a run ends: [sys.exit(code)], or the end of [main] (status 0). *)
Inductive outcome :=
| SysExit (code : Z)
| Completed.

Definition exit_status (o : outcome) : Z :=
  match o with SysExit code => code | Completed => 0%Z end.

(** State passing *)
Definition M (A : Type) : Type := state -> A * state.

#[local] Instance M_ret : MRet M := fun A a st => (a, st).
#[local] Instance M_bind : MBind M :=
  fun A B f m st => let '(a, st') := m st in f a st'.

Definition emit (e : event) : M unit :=
  fun st => (tt, mkState (visited_urls st) (visited_urls_file st)
                         (break_point_file st) (trace st ++ [e])).

(** [self.visited_urls = urls] *)
Definition set_visited_urls (urls : gset string) : M unit :=
  fun st => (tt, mkState urls (visited_urls_file st) (break_point_file st) (trace st)).

(** [for x in l: acc = body acc x] *)
Fixpoint for_each {A S : Type} (l : list A) (body : S -> A -> M S) (acc : S) : M S :=
  match l with
  | [] => mret acc
  | x :: l' => acc' ← body acc x; for_each l' body acc'
  end.

(* ===================================================================== *)
(** * Post Collector, Campaign Discoverer, Visit Orchestrator *)
(* ===================================================================== *)

Section Pipeline.
Import PyStr.
Variable py : pylib.
Variable cfg : config.
Variable w : world.

(** ** Post Collector *)

(** [_extract_post_url]: [None] when [urljoin] raises *)
Definition _extract_post_url (el : element) (base_url : string)
           (host : option string) : option string :=
  let a_tag := el_first_a el in
  let a_tag :=
    if bool_decide (host = Some "damoang.net") && bool_decide (is_Some a_tag)
    then match el_next_a el with Some next_a => Some next_a | None => a_tag end
    else a_tag in
  match a_tag with
  | Some href => if truthy href then urljoin py base_url href else Some ""
  | None => Some ""
  end.

Definition naver_keywords : list string :=
  ["네이버"; "naver"; "포인트"; "point"; "적립"].

(** [_is_naver_related_post] *)
Definition _is_naver_related_post (el : element) : bool :=
  let text_content := lower (el_text el) in
  existsb (fun keyword => contains keyword text_content) naver_keywords.

(** The element loop of [_collect_posts_from_site]; an exception for one
    element is caught and the element skipped. *)
Definition posts_of_elements (els : list element) (site_url : string)
           (host : option string) : gset string :=
  foldl (fun (posts : gset string) el =>
           match _extract_post_url el site_url host with
           | Some post_url =>
               if truthy post_url && _is_naver_related_post el
               then posts ∪ {[post_url]} else posts
           | None => posts
           end)
        ∅ els.

(** [_collect_posts_from_site]: a failed fetch ([RequestException]) or a
    failed parse (any other exception) is logged and leaves [posts]
    empty. *)
Definition _collect_posts_from_site (site_url : string) (sc : site_config)
  : M (gset string) :=
  _ ← emit (HttpGet site_url);
  match requests_get w site_url with
  | None => mret ∅
  | Some text =>
      match urlparse py site_url with
      | None => mret ∅
      | Some parsed =>
          match find_all w text (cfg_tag sc) (cfg_class sc) with
          | None => mret ∅
          | Some els => mret (posts_of_elements els site_url (hostname parsed))
          end
      end
  end.

(** [_collect_posts_from_sites].  [_collect_posts_from_site] catches
    its own exceptions, so the [except] of this loop has nothing left to
    catch. *)
Definition _collect_posts_from_sites : M (gset string) :=
  for_each (SCRAPING_SITES cfg)
           (fun (all_posts : gset string) '(site_url, sc) =>
              posts ← _collect_posts_from_site site_url sc;
              mret (all_posts ∪ posts))
           ∅.

(** ** Campaign Discoverer *)

(** The body of the loop of [campaign_scrap] for one post *)
Definition scrap_post (campaign_links : gset string) (post_url : string)
  : M (gset string) :=
  fun st =>
    if bool_decide (post_url ∈ visited_urls st) then (campaign_links, st)
    else
      (_ ← emit (HttpGet post_url);
       match requests_get w post_url with
       | None => mret campaign_links
       | Some text =>
           match _extract_url_candidates py text post_url with
           | None => mret campaign_links
           | Some candidates =>
               mret (campaign_links ∪ _filter_campaign_urls py candidates)
           end
       end) st.

Definition campaign_scrap (posts : gset string) : M (gset string) :=
  if bool_decide (posts = ∅) then mret ∅
  else for_each (elements posts) scrap_post ∅.

(** ** Visit Orchestrator *)

(** [_get_naver_accounts]: the entries with an identifier and a
    password that are not the placeholders *)
Definition _get_naver_accounts : list (string * string) :=
  filter (fun '(naver_id, naver_pw) =>
            Is_true (truthy naver_id && truthy naver_pw
                     && negb (startswith naver_id "your_naver_id")
                     && negb (startswith naver_pw "your_password")))
         (naver_login_info cfg).

(** [_visit_campaign_links]: a failed visit is logged and the loop goes
    on.  [success_count] is a local variable that is logged at the end;
    the function returns [None]. *)
Definition _visit_campaign_links (campaign_links : gset string)
           (account_id : string) : M unit :=
  success_count ← for_each (elements campaign_links)
                    (fun (success_count : nat) link =>
                       _ ← emit (DriverGet account_id link);
                       match visit_link w account_id link with
                       | Some true => mret (S success_count)
                       | Some false => mret success_count
                       | None => mret success_count
                       end)
                    0%nat;
  mret tt.

(** The body of the loop of [get_coin] for one account *)
Definition visit_account (campaign_links : gset string) (_ : unit)
           (account : string * string) : M unit :=
  let '(account_id, password) := account in
  if negb (truthy account_id) || negb (truthy password) then mret tt
  else
    _ ← emit (DriverStart account_id);
    match firefox_driver w account_id with
    | DriverReturned =>
        _ ← emit (DriverLogin account_id);
        _ ← (if login_ok w account_id password
             then _visit_campaign_links campaign_links account_id
             else mret tt);
        emit (DriverQuit account_id)
    | LaunchRaises | SetupRaises => mret tt
    end.

(** [get_coin] *)
Definition get_coin (campaign_links : gset string) : M unit :=
  if bool_decide (campaign_links = ∅) then mret tt
  else
    let accounts := _get_naver_accounts in
    match accounts with
    | [] => mret tt
    | _ => for_each accounts (visit_account campaign_links) tt
    end.

(** ** Persisted state *)

Definition sorted_urls (urls : gset string) : list string :=
  merge_sort (fun a b => Is_true (String.leb a b)) (elements urls).

(** The text of a list of lines, each followed by a line feed *)
Definition lines_text (lines : list string) : string :=
  foldr (fun line text => line ++ String "010" text) "" lines.

(** [_save_visited_urls]: one line per URL, sorted; an exception of the
    write is logged, not raised. *)
Definition _save_visited_urls : M unit :=
  fun st =>
    let lines := sorted_urls (visited_urls st) in
    match visited_write w with
    | WriteOk =>
        (tt, mkState (visited_urls st) (Some (lines_text lines))
                     (break_point_file st) (trace st ++ [WriteVisited]))
    | OpenFails =>
        (tt, mkState (visited_urls st) (visited_urls_file st)
                     (break_point_file st) (trace st ++ [WriteVisited]))
    | WriteFailsAfter k =>
        (tt, mkState (visited_urls st) (Some (lines_text (take k lines)))
                     (break_point_file st) (trace st ++ [WriteVisited]))
    end.

(** The lines of a text file read in text mode: a line ends at a line
    feed or a carriage return. *)
Definition file_lines (text : string) : list string :=
  flat_map (split "013") (split "010" text).

(** [_load_visited_urls]: the stripped lines that are not empty; the
    empty set when the file is absent or the read raises. *)
Definition _load_visited_urls : M (gset string) :=
  fun st =>
    match visited_urls_file st with
    | Some text =>
        if visited_readable w
        then (list_to_set (filter (fun line => Is_true (truthy line))
                                  (map strip (file_lines text))), st)
        else (∅, st)
    | None => (∅, st)
    end.

(** [_create_break_point]: the marker is (re)written at time [now] with
    the time stamp [stamp] of [time.strftime] and the reason; when the
    write raises ([writable = false]) the failure is logged. *)
Definition _create_break_point (now : Q) (stamp reason : string)
           (writable : bool) : M unit :=
  fun st =>
    if writable then
      (tt, mkState (visited_urls st) (visited_urls_file st)
                   (Some (now, "Break point created: " ++ stamp ++ String "010"
                                 ("Reason: " ++ reason ++ String "010" "")))
                   (trace st ++ [WriteBreakPoint]))
    else (tt, st).

(** ** Backoff Gate: [_check_break_point] *)

Definition delay_seconds : Q := inject_Z (DELAY_HOURS cfg * 3600).

(** [inl code] is [sys.exit(code)]. *)
Definition _check_break_point : M (Z + unit) :=
  fun st =>
    match break_point_file st with
    | None => (inr tt, st)
    | Some (st_mtime, _) =>
        let file_age := (time_now w - st_mtime)%Q in
        if Qle_bool delay_seconds file_age then
          (inr tt, mkState (visited_urls st) (visited_urls_file st) None
                           (trace st ++ [UnlinkBreakPoint]))
        else (inl 1%Z, st)
    end.

(** ** The run *)

(** [post_scrap] *)
Definition post_scrap : M unit :=
  posts ← _collect_posts_from_sites;
  if bool_decide (posts = ∅) then mret tt
  else
    campaign_links ← campaign_scrap posts;
    _ ← (if bool_decide (campaign_links = ∅) then mret tt
         else get_coin campaign_links);
    _ ← set_visited_urls posts;
    _save_visited_urls.

(** [NaverCoinScraper.__init__]: the gate check, then the load of the
    visited set *)
Definition init : M (Z + unit) :=
  gate ← _check_break_point;
  match gate with
  | inl code => mret (inl code)
  | inr _ =>
      loaded ← _load_visited_urls;
      _ ← set_visited_urls loaded;
      mret (inr tt)
  end.

(** [main]: [avoid_overlap], the construction of the scraper and
    [post_scrap].  [sys.exit] is a [SystemExit], which the
    [except Exception] of [main] does not catch.  That handler ends the
    run with status 1 for an exception that reaches [main].  None does
    here: every failure the world holds is caught by the caller of the
    failing call; the failures of [mkdir], [stat] and [unlink] in
    [__init__] and at the gate are outside the world. *)
Definition main : M outcome :=
  if negb (lock_acquired w) then mret (SysExit 1)
  else
    started ← init;
    match started with
    | inl code => mret (SysExit code)
    | inr _ => _ ← post_scrap; mret Completed
    end.

End Pipeline.

(* ===================================================================== *)
(** * Dwell Simulator: [dwell_and_scroll] *)
(* ===================================================================== *)

(** The value of [driver.execute_script]: it raises, or returns a number
    or [None]. *)
Inductive script_result :=
| ScriptRaises
| ScriptValue (v : option Z).

(** One visit of a page as the simulator meets it.  Time is in seconds.
    Durations are those of the calls, however they end. *)
Record page := mkPage {
  (** [time.time()] on entry *)
  t_start : Q;
  (** the time [WebDriverWait(driver, 10).until(...)] takes *)
  ready_wait : Q;
  total_height_script : script_result;
  viewport_height_script : script_result;
  (** the time the two measurements take *)
  measure_time : Q;
  (** the time [_perform_natural_scrolling] takes, whether it returns or
      raises *)
  scroll_time : Q;
  (** [random.uniform(0.3, 0.8)] *)
  jitter : Q;
  (** what [time.sleep] sleeps beyond its argument *)
  oversleep : Q
}.

(** The clock is read by [time.time()], time passes in the calls. *)
Record well_timed (p : page) : Prop := mkWellTimed {
  ready_wait_nonneg : (0 <= ready_wait p)%Q;
  measure_time_nonneg : (0 <= measure_time p)%Q;
  scroll_time_nonneg : (0 <= scroll_time p)%Q;
  jitter_range : (3 # 10 <= jitter p)%Q /\ (jitter p <= 8 # 10)%Q;
  oversleep_nonneg : (0 <= oversleep p)%Q
}.

(** What a call of [dwell_and_scroll] did: the clock when it returns,
    whether it scrolled, and the argument of its final [time.sleep]. *)
Record dwell := mkDwell {
  t_return : Q;
  scrolled : bool;
  final_sleep : option Q
}.

Section Dwell.
Variable cfg : config.

(** [x or d] for a script value *)
Definition value_or (v : option Z) (d : Z) : Z :=
  match v with
  | Some n => if (n =? 0)%Z then d else n
  | None => d
  end.

(** The second [try] of [dwell_and_scroll]: [Some true] when
    [_perform_natural_scrolling] is called, [Some false] when there is
    nothing to scroll, [None] when a measurement raises. *)
Definition scroll_decision (p : page) : option bool :=
  match total_height_script p with
  | ScriptRaises => None
  | ScriptValue t =>
      let total_height := value_or t 0 in
      match viewport_height_script p with
      | ScriptRaises => None
      | ScriptValue v =>
          let viewport_height := value_or v 800 in
          let scrollable_height := Z.max 0 (total_height - viewport_height) in
          Some (0 <? scrollable_height)%Z
      end
  end.

Definition dwell_and_scroll (p : page) (min_seconds : option Z) : dwell :=
  let min_seconds :=
    match min_seconds with Some m => m | None => MIN_DWELL_TIME cfg end in
  let start_time := t_start p in
  (* page load wait; a timeout or an error is logged *)
  let clock := (start_time + ready_wait p)%Q in
  (* measurements and scrolling; an error is logged *)
  let clock := (clock + measure_time p)%Q in
  let scrolls := match scroll_decision p with Some b => b | None => false end in
  let clock := if scrolls then (clock + scroll_time p)%Q else clock in
  (* minimum dwell: the clock is read again *)
  let elapsed := (clock - start_time)%Q in
  let remaining := (inject_Z min_seconds - elapsed)%Q in
  if Qle_bool remaining 0 then mkDwell clock scrolls None
  else
    let sleep_time := (remaining + jitter p)%Q in
    mkDwell (clock + (sleep_time + oversleep p))%Q scrolls (Some sleep_time).

End Dwell.

(* ===================================================================== *)
(** * Scrolling and the visit of one page *)
(* ===================================================================== *)

(** A call to the driver in [_perform_natural_scrolling] *)
Inductive driver_action :=
| ScrollTo (top : Z)
| PageDown
| PageUp.

(** The draws of the random source in one call of
    [_perform_natural_scrolling]: for each downward step (their number
    is the draw of [random.randint(3, 6)]) its size and its pause, the
    same for the upward steps, a pause for each [PAGE_DOWN] key, and the
    pause of the [PAGE_UP] key when [random.choice] says so. *)
Record scroll_draws := mkScrollDraws {
  down_draws : list (Z * Q);
  up_draws : list (Z * Q);
  page_down_pauses : list Q;
  page_up_pause : option Q
}.

(** The state of the routine: the scroll position, the calls made, the
    time slept, the number of driver calls that still succeed ([None]:
    all of them) and whether a driver call has raised. *)
Record scroll_run := mkScrollRun {
  position : Z;
  performed : list driver_action;
  slept : Q;
  calls_left : option nat;
  raised : bool
}.

(** A call to the driver followed by [time.sleep(pause)]; once a call
    has raised the routine is over. *)
Definition driver_do (a : driver_action) (pause : Q) (r : scroll_run) : scroll_run :=
  if raised r then r
  else match calls_left r with
       | Some O => mkScrollRun (position r) (performed r) (slept r) (Some O) true
       | Some (S n) =>
           mkScrollRun (position r) (performed r ++ [a]) (slept r + pause)%Q (Some n) false
       | None =>
           mkScrollRun (position r) (performed r ++ [a]) (slept r + pause)%Q None false
       end.

Definition set_position (top : Z) (r : scroll_run) : scroll_run :=
  mkScrollRun top (performed r) (slept r) (calls_left r) (raised r).

(** One step down: [current_position = min(scrollable_height,
    current_position + step_size)], then the scroll and the pause *)
Definition scroll_down (scrollable_height : Z) (r : scroll_run) (draw : Z * Q)
  : scroll_run :=
  if raised r then r
  else
    let current_position := Z.min scrollable_height (position r + draw.1) in
    driver_do (ScrollTo current_position) draw.2 (set_position current_position r).

(** One step up: [current_position = max(0, current_position -
    step_size)], then the scroll and the pause *)
Definition scroll_up (r : scroll_run) (draw : Z * Q) : scroll_run :=
  if raised r then r
  else
    let current_position := Z.max 0 (position r - draw.1) in
    driver_do (ScrollTo current_position) draw.2 (set_position current_position r).

(** [_perform_natural_scrolling].  [body_found = false] is the
    [NoSuchElementException] of [find_element], which is caught: the
    keys are skipped.  Any other failure of the driver is the exception
    that leaves the routine ([raised]). *)
Definition _perform_natural_scrolling (scrollable_height : Z) (draws : scroll_draws)
           (body_found : bool) (calls_ok : option nat) : scroll_run :=
  let r := mkScrollRun 0 [] 0 calls_ok false in
  let r := foldl (scroll_down scrollable_height) r (down_draws draws) in
  let r := foldl scroll_up r (up_draws draws) in
  if body_found then
    let r := foldl (fun r pause => driver_do PageDown pause r) r (page_down_pauses draws) in
    match page_up_pause draws with
    | Some pause => driver_do PageUp pause r
    | None => r
    end
  else r.

(** The ranges of the draws: 3 to 6 steps down with pauses of 0.8 to 1.6
    seconds, 1 to 3 steps up with pauses of 0.6 to 1.2 seconds, 1 to 3
    [PAGE_DOWN] keys and at most one [PAGE_UP] key with pauses of 0.2 to
    0.4 seconds.  The step sizes are drawn between fractions of the
    viewport height and are not negative. *)
Record draws_in_range (draws : scroll_draws) : Prop := mkDrawsInRange {
  down_count : (3 <= length (down_draws draws) <= 6)%nat;
  down_range : Forall (fun d => (0 <= d.1)%Z /\ (8 # 10 <= d.2)%Q /\ (d.2 <= 16 # 10)%Q)
                      (down_draws draws);
  up_count : (1 <= length (up_draws draws) <= 3)%nat;
  up_range : Forall (fun d => (0 <= d.1)%Z /\ (6 # 10 <= d.2)%Q /\ (d.2 <= 12 # 10)%Q)
                    (up_draws draws);
  page_down_count : (1 <= length (page_down_pauses draws) <= 3)%nat;
  page_down_range : Forall (fun d => (2 # 10 <= d)%Q /\ (d <= 4 # 10)%Q)
                           (page_down_pauses draws);
  page_up_range : forall d, page_up_pause draws = Some d ->
                            (2 # 10 <= d)%Q /\ (d <= 4 # 10)%Q
}.

(** What a selector of [click_point_and_dwell] meets: no button (the
    wait for a clickable element times out or raises, or the click
    raises), a click after which the wait for the new URL returns or
    times out, or a click after which that wait raises another
    exception. *)
Inductive selector_outcome :=
| NoButton
| Clicked
| ClickedThenError.

(** The selectors of [click_point_and_dwell], in order *)
Definition selectors : list string :=
  [".type_no_points .popup_link"; ".point_btn";
   "[class*='point'] button"; "button[onclick*='point']"].

(** The loop over the selectors: the value of [success] and the
    selectors tried.  A completed click breaks the loop; a click whose
    URL wait raises sets [success] and goes on with the next selector. *)
Fixpoint try_selectors (outcome : string -> selector_outcome) (sels : list string)
         (success : bool) : bool * list string :=
  match sels with
  | [] => (success, [])
  | selector :: rest =>
      match outcome selector with
      | Clicked => (true, [selector])
      | ClickedThenError =>
          let '(success, tried) := try_selectors outcome rest true in
          (success, selector :: tried)
      | NoButton =>
          let '(success, tried) := try_selectors outcome rest success in
          (success, selector :: tried)
      end
  end.

(** What the visit of one page did: the returned flag, the selectors
    tried and the dwell, when there was one *)
Record page_visit := mkPageVisit {
  visit_success : bool;
  tried_selectors : list string;
  visit_dwell : option dwell
}.

(** [click_point_and_dwell] *)
Definition click_point_and_dwell (cfg : config) (outcome : string -> selector_outcome)
           (p : page) (dwell_seconds : option Z) : page_visit :=
  let dwell_seconds :=
    match dwell_seconds with Some d => d | None => MIN_DWELL_TIME cfg end in
  let '(success, tried) := try_selectors outcome selectors false in
  mkPageVisit success tried (Some (dwell_and_scroll cfg p (Some dwell_seconds))).

(** [_process_campaign_site]: [current_url] is [driver.current_url],
    [None] when reading it raises; an exception gives [False]. *)
Definition _process_campaign_site (py : pylib) (cfg : config)
           (current_url : option string) (outcome : string -> selector_outcome)
           (p : page) : page_visit :=
  match current_url with
  | None => mkPageVisit false [] None
  | Some url =>
      match urlparse py url with
      | None => mkPageVisit false [] None
      | Some parsed_url =>
          if is_click_point parsed_url then click_point_and_dwell cfg outcome p None
          else if is_adison parsed_url
          then mkPageVisit true [] (Some (dwell_and_scroll cfg p None))
          else mkPageVisit true [] (Some (dwell_and_scroll cfg p None))
      end
  end.

(** The scroll position and every scroll target lie on the page. *)
Definition on_page (scrollable_height : Z) (r : scroll_run) : Prop :=
  (0 <= position r <= scrollable_height)%Z
  /\ forall top, ScrollTo top ∈ performed r -> (0 <= top <= scrollable_height)%Z.

(** A string that does not begin with a character to strip *)
Definition head_kept (p : ascii -> bool) (s : string) : Prop :=
  match s with
  | EmptyString => True
  | String c _ => p c = false
  end.

(** The sum of a list of durations *)
Definition total_pause (pauses : list Q) : Q := foldr Qplus 0%Q pauses.

(* ===================================================================== *)
(** * Vocabulary of the properties *)
(* ===================================================================== *)

Section NormalizerSpec.
Import PyStr.
Variable py : pylib.

(** The resolution of a candidate, in the words of the specification:
    a candidate that begins with [//] is given the [https:] scheme, a
    candidate without a scheme is joined to the origin of the base URL,
    any other candidate stands for itself. *)
Inductive resolves_to (origin : string) : string -> string -> Prop :=
| resolve_scheme_relative (c : string) :
    startswith c "//" = true ->
    resolves_to origin c ("https:" ++ c)
| resolve_relative (c u : string) (p : ParseResult) :
    startswith c "//" = false ->
    urlparse py c = Some p -> scheme p = "" ->
    urljoin py (origin ++ "/") c = Some u ->
    resolves_to origin c u
| resolve_absolute (c : string) (p : ParseResult) :
    startswith c "//" = false ->
    urlparse py c = Some p -> scheme p <> "" ->
    resolves_to origin c c.

(** The test of the code, [parsed.scheme in ('http', 'https') and
    parsed.netloc]: a URL that parses with scheme [http] or [https] and
    a netloc that is not empty.  The netloc is the text between [//]
    and the next [/], [?] or [#]: user information and port count, so
    that a netloc can be there without a host. *)
Definition http_url (u : string) : Prop :=
  exists parsed, urlparse py u = Some parsed
                 /\ (scheme parsed = "http" \/ scheme parsed = "https")
                 /\ netloc parsed <> "".

(** The test in the words of the specification: a URL that parses with
    scheme [http] or [https] and a host that is not empty, the host
    being [ParseResult.hostname]. *)
Definition http_url_with_host (u : string) : Prop :=
  exists parsed host, urlparse py u = Some parsed
                      /\ (scheme parsed = "http" \/ scheme parsed = "https")
                      /\ hostname parsed = Some host /\ host <> "".

End NormalizerSpec.

(** [frames P m]: the computation [m] changes nothing of the state but
    the trace, to which it adds events that satisfy [P]. *)
Definition frames {A : Type} (P : event -> Prop) (m : M A) : Prop :=
  forall st, exists evs,
    (m st).2 = mkState (visited_urls st) (visited_urls_file st)
                       (break_point_file st) (trace st ++ evs)
    /\ Forall P evs.

(** The kinds of events *)
Definition is_http_get (e : event) : Prop :=
  match e with HttpGet _ => True | _ => False end.

Definition is_driver (e : event) : Prop :=
  match e with
  | DriverStart _ | DriverLogin _ | DriverGet _ _ | DriverQuit _ => True
  | _ => False
  end.

(** The state after some more events *)
Definition add_events (st : state) (evs : list event) : state :=
  mkState (visited_urls st) (visited_urls_file st) (break_point_file st)
          (trace st ++ evs).

Section PipelineSpec.
Variable py : pylib.
Variable cfg : config.
Variable w : world.

(** The posts one site gives: none when the fetch or the parse fails *)
Definition site_posts (site : string * site_config) : gset string :=
  match requests_get w site.1 with
  | None => ∅
  | Some text =>
      match urlparse py site.1 with
      | None => ∅
      | Some parsed =>
          match find_all w text (cfg_tag site.2) (cfg_class site.2) with
          | None => ∅
          | Some els => posts_of_elements py els site.1 (hostname parsed)
          end
      end
  end.

(** The fetch of a site's listing or its parse fails *)
Definition site_fails (site : string * site_config) : Prop :=
  requests_get w site.1 = None
  \/ exists text, requests_get w site.1 = Some text
                  /\ (urlparse py site.1 = None
                      \/ find_all w text (cfg_tag site.2) (cfg_class site.2) = None).

(** The campaign links one post gives: none when the fetch fails or the
    extraction raises *)
Definition post_links (post_url : string) : gset string :=
  match requests_get w post_url with
  | None => ∅
  | Some text =>
      match _extract_url_candidates py text post_url with
      | None => ∅
      | Some candidates => _filter_campaign_urls py candidates
      end
  end.

(** The posts of a list that are not in the visited set *)
Definition unvisited (visited : gset string) (posts : list string) : list string :=
  filter (fun post_url => post_url ∉ visited) posts.

(** The posts the Post Collector returns in this world *)
Definition collected_posts : gset string :=
  ⋃ (site_posts <$> SCRAPING_SITES cfg).

(** The fetches of the listing pages *)
Definition listing_fetches : list event :=
  (fun site : string * site_config => HttpGet site.1) <$> SCRAPING_SITES cfg.

(** The visited-urls file after [_save_visited_urls] for the set [urls] *)
Definition saved_file (old : option string) (urls : gset string) : option string :=
  match visited_write w with
  | WriteOk => Some (lines_text (sorted_urls urls))
  | OpenFails => old
  | WriteFailsAfter k => Some (lines_text (take k (sorted_urls urls)))
  end.

End PipelineSpec.

(** The fetch of a post's body fails, or the extraction of its
    candidates raises *)
Definition post_fails (py : pylib) (w : world) (post_url : string) : Prop :=
  requests_get w post_url = None
  \/ exists text, requests_get w post_url = Some text
                  /\ _extract_url_candidates py text post_url = None.

(** The configuration with other sites *)
Definition with_sites (cfg : config) (sites : list (string * site_config)) : config :=
  mkConfig (naver_login_info cfg) (DELAY_HOURS cfg) (MIN_DWELL_TIME cfg) sites.

(** The clock when the scroll sequence is over *)
Definition scroll_end (p : page) : Q :=
  (t_start p + ready_wait p + measure_time p
   + (if default false (scroll_decision p) then scroll_time p else 0))%Q.

(** The minimum in force: the override, else [MIN_DWELL_TIME] *)
Definition dwell_floor (cfg : config) (min_seconds : option Z) : Q :=
  inject_Z (default (MIN_DWELL_TIME cfg) min_seconds).

(* ===================================================================== *)
(** * A small world for the examples *)
(* ===================================================================== *)

(** The parser and the join of the examples: a page is one anchor whose
    [href] is the text of the page, and [urljoin] appends the reference
    to the base. *)
Definition anchor_lib : pylib :=
  {| html_parser := fun html => mkSoup [mkATag (Some html) None None] "";
     netloc_invalid := fun _ => false;
     urljoin := fun base url => Some (base ++ url);
     findall_quoted_urls := fun _ => [];
     findall_text_urls := fun _ => [] |}.

(** Two boards and one account *)
Definition example_config : config :=
  {| naver_login_info := [("id1", "pw1")];
     DELAY_HOURS := 48;
     MIN_DWELL_TIME := 6;
     SCRAPING_SITES :=
       [("https://board.example/", mkSite "td" "subject" "board.example");
        ("https://down.example/", mkSite "td" "subject" "down.example")] |}.

Definition claim_url : string :=
  "https://campaign2.naver.com/npay/v2/click-point/abc?eventId=1".

(** The first board lists the posts [p1] and [p2], both about points, and
    the second board is down; [p1] links to a claim URL and the fetch of
    [p2] fails; Firefox does not start. *)
Definition example_world : world :=
  {| lock_acquired := true;
     time_now := 1000000;
     requests_get := fun url =>
       if bool_decide (url = "https://board.example/") then Some "listing"
       else if bool_decide (url = "https://board.example/p1") then Some claim_url
       else None;
     find_all := fun _ _ _ =>
       Some [mkElement (Some "p1") None "Naver Point"; mkElement (Some "p2") None "point"];
     visited_readable := true;
     visited_write := WriteOk;
     firefox_driver := fun _ => LaunchRaises;
     login_ok := fun _ _ => true;
     visit_link := fun _ _ => Some true |}.

(** The same world with every fetch failing *)
Definition offline_world : world :=
  {| lock_acquired := true;
     time_now := 1000000;
     requests_get := fun _ => None;
     find_all := fun _ _ _ => None;
     visited_readable := true;
     visited_write := WriteOk;
     firefox_driver := fun _ => LaunchRaises;
     login_ok := fun _ _ => true;
     visit_link := fun _ _ => Some true |}.

Definition second_claim_url : string :=
  "https://campaign2.naver.com/npay/v2/click-point/def?eventId=2".

(** A world of claim failures: both posts are fetched and each links to
    a claim URL; Firefox starts and the login succeeds, and then the
    visit of every link raises. *)
Definition blocked_world : world :=
  {| lock_acquired := true;
     time_now := 1000000;
     requests_get := fun url =>
       if bool_decide (url = "https://board.example/") then Some "listing"
       else if bool_decide (url = "https://board.example/p1") then Some claim_url
       else if bool_decide (url = "https://board.example/p2") then Some second_claim_url
       else None;
     find_all := fun _ _ _ =>
       Some [mkElement (Some "p1") None "Naver Point"; mkElement (Some "p2") None "point"];
     visited_readable := true;
     visited_write := WriteOk;
     firefox_driver := fun _ => DriverReturned;
     login_ok := fun _ _ => true;
     visit_link := fun _ _ => None |}.

(** Four accounts: the browser of the first is returned and its login
    succeeds, the login of the second fails, the browser of the third is
    launched and its set-up script raises, the browser of the fourth
    does not launch. *)
Definition four_accounts : config :=
  {| naver_login_info := [("id1", "pw1"); ("id2", "pw2"); ("id3", "pw3"); ("id4", "pw4")];
     DELAY_HOURS := 48;
     MIN_DWELL_TIME := 6;
     SCRAPING_SITES := [] |}.

Definition browser_world : world :=
  {| lock_acquired := true;
     time_now := 1000000;
     requests_get := fun _ => None;
     find_all := fun _ _ _ => None;
     visited_readable := true;
     visited_write := WriteOk;
     firefox_driver := fun account_id =>
       if bool_decide (account_id = "id3") then SetupRaises
       else if bool_decide (account_id = "id4") then LaunchRaises
       else DriverReturned;
     login_ok := fun account_id _ => bool_decide (account_id = "id1");
     visit_link := fun _ link =>
       if bool_decide (link = claim_url) then Some true else None |}.

(** A first run: no marker, one post in the visited-urls file *)
Definition example_state : state :=
  {| visited_urls := ∅;
     visited_urls_file := Some ("https://board.example/p0" ++ String "010" "");
     break_point_file := None;
     trace := [] |}.

(* ===================================================================== *)
(** * Vocabulary of the further properties *)
(* ===================================================================== *)

(** The driver events of [get_coin] for one account that passed
    [_get_naver_accounts]: the call of [_create_firefox_driver], then,
    when it returned a driver, the login, the visit of every link when
    the login succeeded, and the quit. *)
Definition account_events (w : world) (campaign_links : gset string)
           (account : string * string) : list event :=
  DriverStart account.1
  :: (if bool_decide (firefox_driver w account.1 = DriverReturned) then
        (DriverLogin account.1
         :: (if login_ok w account.1 account.2
             then DriverGet account.1 <$> elements campaign_links else []))
        ++ [DriverQuit account.1]
      else []).

Definition is_driver_start (e : event) : Prop :=
  match e with DriverStart _ => True | _ => False end.

Definition is_driver_quit (e : event) : Prop :=
  match e with DriverQuit _ => True | _ => False end.

#[local] Instance is_driver_start_dec (e : event) : Decision (is_driver_start e).
Proof. destruct e; simpl; apply _. Defined.

#[local] Instance is_driver_quit_dec (e : event) : Decision (is_driver_quit e).
Proof. destruct e; simpl; apply _. Defined.

(** A URL that the visited-urls file keeps as it is: not empty, without
    white space at either end, without a line feed or a carriage return,
    and of ASCII characters, where [PyStr.strip] is all of [str.strip] *)
Definition clean_url (u : string) : Prop :=
  u <> "" /\ PyStr.strip u = u
  /\ PyStr.mem "010" u = false /\ PyStr.mem "013" u = false
  /\ PyStr.isascii u = true.

(* ===================================================================== *)
(** * Properties of the Campaign Filter *)
(* ===================================================================== *)

Section FilterFacts.
Variable py : pylib.

(** A loop that adds the elements passing a test computes a filter. *)
Lemma foldl_add_if (P : string -> bool) (l : list string) (acc : gset string) :
  foldl (fun (s : gset string) u => if P u then s ∪ {[u]} else s) acc l
  = acc ∪ list_to_set (filter (fun u => Is_true (P u)) l).
Proof.
  revert acc. induction l as [|x l IH]; intros acc; simpl.
  - set_solver.
  - rewrite IH. destruct (P x) eqn:Hx.
    + rewrite filter_cons_True by (by rewrite Hx). set_solver.
    + rewrite filter_cons_False by (rewrite Hx; intros []). set_solver.
Qed.

Lemma elem_of_filter_campaign_urls (S : gset string) (u : string) :
  u ∈ _filter_campaign_urls py S <-> u ∈ S /\ is_campaign_url py u = true.
Proof.
  unfold _filter_campaign_urls. rewrite foldl_add_if.
  rewrite elem_of_union, elem_of_list_to_set, list_elem_of_filter, elem_of_elements.
  rewrite Is_true_true. set_solver.
Qed.

Lemma filter_campaign_urls_subseteq (S : gset string) :
  _filter_campaign_urls py S ⊆ S.
Proof. intros u Hu. apply elem_of_filter_campaign_urls in Hu. tauto. Qed.

Lemma filter_campaign_urls_singleton (u : string) :
  _filter_campaign_urls py {[u]} = if is_campaign_url py u then {[u]} else ∅.
Proof.
  apply set_eq. intros v. rewrite elem_of_filter_campaign_urls, elem_of_singleton.
  destruct (is_campaign_url py u) eqn:Hu.
  - rewrite elem_of_singleton. split; [tauto | intros ->; tauto].
  - rewrite elem_of_empty. split; [intros [-> Hv]; congruence | tauto].
Qed.

End FilterFacts.

(** C8: the Campaign Filter is idempotent.  For every set [S] of URLs,
    filtering the filtered set gives the filtered set again, and every URL
    of the output, filtered on its own, is kept. *)
Theorem filter_idempotent (py : pylib) (S : gset string) :
  _filter_campaign_urls py (_filter_campaign_urls py S) = _filter_campaign_urls py S
  /\ (forall u, u ∈ _filter_campaign_urls py S ->
                _filter_campaign_urls py {[u]} = {[u]}).
Proof.
  split.
  - apply set_eq. intros u. rewrite !elem_of_filter_campaign_urls. tauto.
  - intros u Hu. apply elem_of_filter_campaign_urls in Hu as [_ Hu].
    rewrite filter_campaign_urls_singleton. by rewrite Hu.
Qed.

(** ** The point-claim rule and the generic keyword rule *)

Module ContainsFacts.
Import PyStr.

Lemma app_nil_string (t : string) : "" ++ t = t.
Proof. reflexivity. Qed.

Lemma app_cons_string (c : ascii) (s t : string) : String c s ++ t = String c (s ++ t).
Proof. reflexivity. Qed.

Lemma prefix_app (p s : string) :
  String.prefix p s = true <-> exists t, s = p ++ t.
Proof.
  revert p. induction s as [|d s IH]; intros [|c p].
  - split; [intros _; by exists "" | done].
  - split; [done | intros [t Ht]; discriminate].
  - split; [intros _; by exists (String d s) | done].
  - cbn [String.prefix]. destruct (Ascii.ascii_dec c d) as [->|Hne].
    + rewrite IH. split; intros [t Ht]; exists t.
      * rewrite app_cons_string. congruence.
      * rewrite app_cons_string in Ht. congruence.
    + split; [done | intros [t Ht]; rewrite app_cons_string in Ht; congruence].
Qed.

Lemma contains_app (n h : string) :
  contains n h = true <-> exists a b, h = a ++ n ++ b.
Proof.
  induction h as [|d h IH]; cbn [contains].
  - rewrite orb_false_r, prefix_app. split.
    + intros [t Ht]. by exists "", t.
    + intros [a [b Hab]]. destruct a; [by exists b | discriminate].
  - rewrite orb_true_iff, prefix_app, IH. split.
    + intros [[t Ht] | [a [b Hab]]].
      * by exists "", t.
      * exists (String d a), b. rewrite app_cons_string. by rewrite Hab.
    + intros [a [b Hab]]. destruct a as [|c a].
      * left. by exists b.
      * right. exists a, b. rewrite app_cons_string in Hab. congruence.
Qed.

Lemma app_assoc_string (a b c : string) : (a ++ b) ++ c = a ++ b ++ c.
Proof. induction a as [|x a IH]; [done |]. rewrite !app_cons_string. congruence. Qed.

Lemma lower_app (a b : string) : lower (a ++ b) = lower a ++ lower b.
Proof.
  induction a as [|x a IH]; [done |].
  rewrite app_cons_string. cbn [lower]. rewrite app_cons_string. congruence.
Qed.

Lemma contains_lower (n h : string) :
  contains n h = true -> contains (lower n) (lower h) = true.
Proof.
  rewrite !contains_app. intros [a [b ->]].
  exists (lower a), (lower b). by rewrite !lower_app.
Qed.

Lemma contains_trans (a b c : string) :
  contains a b = true -> contains b c = true -> contains a c = true.
Proof.
  rewrite !contains_app. intros [x [y ->]] [u [v ->]].
  exists (u ++ x), (y ++ v). by rewrite !app_assoc_string.
Qed.

End ContainsFacts.

(** Whatever passes the host and path test of the point-claim rule passes
    the generic keyword rule: the host contains [naver] and the path
    contains [point]. *)
Lemma click_point_is_naver_keyword (parsed : ParseResult) :
  is_click_point parsed = true -> is_naver_keyword parsed = true.
Proof.
  unfold is_click_point, is_naver_keyword.
  rewrite !andb_true_iff, bool_decide_eq_true. intros [-> Hpath]. split; [done |].
  simpl. apply orb_true_iff. left.
  apply ContainsFacts.contains_lower in Hpath.
  eapply ContainsFacts.contains_trans; [| exact Hpath]. reflexivity.
Qed.

(** So the [eventId] test of the point-claim rule decides nothing: the
    filter keeps exactly the URLs of the second and third rule. *)
Lemma is_campaign_url_without_query_test (py : pylib) (url : string) :
  is_campaign_url py url
  = match urlparse py url with
    | None => false
    | Some parsed => is_adison parsed || is_naver_keyword parsed
    end.
Proof.
  unfold is_campaign_url. destruct (urlparse py url) as [parsed|]; [| done].
  destruct (is_click_point parsed) eqn:Hcp; simpl.
  - apply click_point_is_naver_keyword in Hcp. rewrite Hcp.
    rewrite orb_true_r. by repeat case_match.
  - by destruct (is_adison parsed).
Qed.

(** C1: the filter on the claim's two URLs.  In every input set the
    click-point URL with [eventId=1] is kept; the same URL without the
    [eventId] parameter is kept as well: it fails the point-claim rule
    and then passes the generic keyword rule. *)
Theorem filter_click_point_urls (py : pylib) (S : gset string) :
  let with_id := "https://campaign2.naver.com/npay/v2/click-point/abc?eventId=1" in
  let without_id := "https://campaign2.naver.com/npay/v2/click-point/abc" in
  (with_id ∈ _filter_campaign_urls py S <-> with_id ∈ S)
  /\ (without_id ∈ _filter_campaign_urls py S <-> without_id ∈ S)
  /\ (exists parsed, urlparse py without_id = Some parsed
        /\ is_click_point parsed = true
        /\ QueryString.parse_qs (query parsed) !! "eventId" = None
        /\ is_adison parsed = false
        /\ is_naver_keyword parsed = true).
Proof.
  intros with_id without_id.
  rewrite !elem_of_filter_campaign_urls.
  assert (Hwith : is_campaign_url py with_id = true) by (vm_compute; reflexivity).
  assert (Hwithout : is_campaign_url py without_id = true) by (vm_compute; reflexivity).
  split; [tauto |]. split; [tauto |].
  eexists. split; [vm_compute; reflexivity |].
  repeat split; vm_compute; reflexivity.
Qed.

(* ===================================================================== *)
(** * Properties of the URL Normalizer *)
(* ===================================================================== *)

Section NormalizerFacts.
Import PyStr.
Variable py : pylib.

Lemma truthy_true (s : string) : truthy s = true <-> s <> "".
Proof. destruct s; simpl; split; congruence. Qed.

Lemma truthy_false (s : string) : truthy s = false <-> s = "".
Proof. destruct s; simpl; split; congruence. Qed.

Lemma normalize_url_resolves (origin c u : string) :
  normalize_url py origin c = Some u <-> resolves_to py origin c u /\ http_url py u.
Proof.
  unfold normalize_url, http_url. split.
  - intros H.
    assert (Hvalid : forall v, match urlparse py v with
              | Some parsed =>
                  if bool_decide (scheme parsed ∈ ["http"; "https"]) && truthy (netloc parsed)
                  then Some v else None
              | None => None
              end = Some u ->
              v = u /\ exists parsed, urlparse py u = Some parsed
                 /\ (scheme parsed = "http" \/ scheme parsed = "https")
                 /\ netloc parsed <> "").
    { intros v Hv. destruct (urlparse py v) as [parsed|] eqn:Hp; [| done].
      destruct (bool_decide _ && truthy _) eqn:Hc; [| done].
      injection Hv as <-. split; [done |]. exists parsed. split; [done |].
      apply andb_true_iff in Hc as [Hs Hn].
      apply bool_decide_eq_true in Hs. apply truthy_true in Hn.
      split; [| done]. set_solver. }
    destruct (startswith c "//") eqn:Hss.
    + apply Hvalid in H as [<- Hu]. split; [by constructor | done].
    + destruct (urlparse py c) as [p|] eqn:Hp; [| done].
      destruct (truthy (scheme p)) eqn:Hsch; simpl in H.
      * apply Hvalid in H as [<- Hu]. split; [| done].
        eapply resolve_absolute; eauto. by apply truthy_true.
      * destruct (urljoin py (origin ++ "/") c) as [v|] eqn:Hj; [| done].
        apply Hvalid in H as [-> Hu]. split; [| done].
        eapply resolve_relative; eauto. by apply truthy_false.
  - intros [Hr [parsed [Hp [Hs Hn]]]].
    assert (Hc : bool_decide (scheme parsed ∈ ["http"; "https"]) && truthy (netloc parsed) = true).
    { apply andb_true_iff. split; [| by apply truthy_true].
      apply bool_decide_eq_true. set_solver. }
    destruct Hr as [c Hss | c u p Hss Hpc Hsch Hj | c p Hss Hpc Hsch]; rewrite Hss.
    + by rewrite Hp, Hc.
    + rewrite Hpc. apply truthy_false in Hsch. rewrite Hsch. simpl.
      by rewrite Hj, Hp, Hc.
    + rewrite Hpc. apply truthy_true in Hsch. rewrite Hsch. simpl.
      by rewrite Hp, Hc.
Qed.

Lemma foldl_add_some (f : string -> option string) (l : list string) (acc : gset string) :
  foldl (fun (s : gset string) x =>
           match f x with Some y => s ∪ {[y]} | None => s end) acc l
  = acc ∪ list_to_set (omap f l).
Proof.
  revert acc. induction l as [|x l IH]; intros acc; simpl.
  - set_solver.
  - rewrite IH. destruct (f x); set_solver.
Qed.

End NormalizerFacts.

(** The examples of the specification: under any base, [//x.com/y]
    becomes [https://x.com/y] and [http://] is dropped. *)
Example normalize_scheme_relative (py : pylib) (origin : string) :
  normalize_url py origin "//x.com/y" = Some "https://x.com/y"
  /\ normalize_url py origin "http://" = None.
Proof. split; vm_compute; reflexivity. Qed.

(** C5, as the claim words it, fails: [http://:80/x] has the netloc
    [:80] and no host, and the normalization keeps it. *)
Lemma normalizer_keeps_url_without_host :
  normalize_candidates anchor_lib {["http://:80/x"]} "https://a.com"
  = Some {["http://:80/x"]}
  /\ urlparse anchor_lib "http://:80/x" = Some (mkParseResult "http" ":80" "/x" "" "" "")
  /\ hostname (mkParseResult "http" ":80" "/x" "" "" "") = None
  /\ ~ http_url_with_host anchor_lib "http://:80/x".
Proof.
  split; [vm_compute; reflexivity |].
  split; [vm_compute; reflexivity |].
  split; [vm_compute; reflexivity |].
  intros [parsed [host [Hp [_ [Hh _]]]]].
  vm_compute in Hp. injection Hp as <-. vm_compute in Hh. discriminate.
Qed.

(** C5, amended: the normalization of the candidates.  When the base
    URL parses, [normalize_candidates] returns a set and raises nothing,
    whatever the candidates are.  A URL is in that set exactly when it
    is the resolution of a candidate (a candidate beginning with [//]
    gets the [https:] scheme, a candidate without a scheme is joined to
    the origin of the base URL, any other candidate is left as it is)
    and it parses with scheme [http] or [https] and a netloc that is not
    empty.  The malformed [http://] is never in the output. *)
Theorem normalize_candidates_spec (py : pylib) (candidates : gset string)
        (base_url : string) (base_parsed : ParseResult) :
  urlparse py base_url = Some base_parsed ->
  exists out,
    normalize_candidates py candidates base_url = Some out
    /\ (forall u, u ∈ out <->
          exists c, c ∈ candidates
                    /\ resolves_to py (scheme base_parsed ++ "://" ++ netloc base_parsed) c u
                    /\ http_url py u)
    /\ "http://" ∉ out.
Proof.
  intros Hbase. unfold normalize_candidates. rewrite Hbase.
  eexists. split; [reflexivity |].
  assert (Hmem : forall u,
    u ∈ foldl (fun (normalized_urls : gset string) url =>
                 match normalize_url py (scheme base_parsed ++ "://" ++ netloc base_parsed) url with
                 | Some url' => normalized_urls ∪ {[url']}
                 | None => normalized_urls
                 end) ∅ (elements candidates)
    <-> exists c, c ∈ candidates
                  /\ resolves_to py (scheme base_parsed ++ "://" ++ netloc base_parsed) c u
                  /\ http_url py u).
  { intros u. rewrite foldl_add_some, elem_of_union, elem_of_list_to_set, list_elem_of_omap.
    split.
    - intros [H | [c [Hc Hn]]]; [set_solver |].
      exists c. apply elem_of_elements in Hc. apply normalize_url_resolves in Hn. tauto.
    - intros [c [Hc Hr]]. right. exists c.
      split; [by apply elem_of_elements | by apply normalize_url_resolves]. }
  split; [exact Hmem |].
  intros Hin. apply Hmem in Hin as [c [_ [_ [parsed [Hp [_ Hn]]]]]].
  vm_compute in Hp. injection Hp as <-. by apply Hn.
Qed.

(** The theorem at the base [https://a.com] with the candidates
    [//x.com/y], [http://] and [https://b.com/z]. *)
Lemma normalize_candidates_spec_witness :
  exists out,
    normalize_candidates anchor_lib {["//x.com/y"; "http://"; "https://b.com/z"]}
                         "https://a.com" = Some out
    /\ (forall u, u ∈ out <->
          exists c, c ∈ ({["//x.com/y"; "http://"; "https://b.com/z"]} : gset string)
                    /\ resolves_to anchor_lib ("https" ++ "://" ++ "a.com") c u
                    /\ http_url anchor_lib u)
    /\ "http://" ∉ out.
Proof.
  apply (normalize_candidates_spec anchor_lib
           {["//x.com/y"; "http://"; "https://b.com/z"]} "https://a.com"
           (mkParseResult "https" "a.com" "" "" "" "")).
  reflexivity.
Defined.

(* ===================================================================== *)
(** * What a step of the run leaves alone *)
(* ===================================================================== *)

Lemma state_eta (st : state) :
  mkState (visited_urls st) (visited_urls_file st) (break_point_file st) (trace st) = st.
Proof. by destruct st. Qed.

Lemma bind_run {A B : Type} (m : M A) (f : A -> M B) (st : state) :
  (m ≫= f) st = f (m st).1 (m st).2.
Proof. unfold mbind, M_bind. by destruct (m st). Qed.

Lemma ret_run {A : Type} (a : A) (st : state) : (mret a : M A) st = (a, st).
Proof. reflexivity. Qed.

Lemma frames_ret {A : Type} (P : event -> Prop) (a : A) : frames P (mret a).
Proof.
  intros st. exists []. rewrite ret_run. simpl.
  by rewrite app_nil_r, state_eta.
Qed.

Lemma frames_emit (P : event -> Prop) (e : event) : P e -> frames P (emit e).
Proof. intros He st. exists [e]. split; [done | by constructor]. Qed.

Lemma frames_bind {A B : Type} (P : event -> Prop) (m : M A) (f : A -> M B) :
  frames P m -> (forall a, frames P (f a)) -> frames P (m ≫= f).
Proof.
  intros Hm Hf st. rewrite bind_run.
  destruct (Hm st) as [evs1 [E1 F1]].
  destruct (Hf (m st).1 (m st).2) as [evs2 [E2 F2]].
  exists (evs1 ++ evs2)%list. split.
  - rewrite E2, E1. simpl. by rewrite (assoc_L (++)).
  - by apply Forall_app.
Qed.

Lemma frames_for_each {A S : Type} (P : event -> Prop) (l : list A)
      (body : S -> A -> M S) (acc : S) :
  (forall s x, frames P (body s x)) -> frames P (for_each l body acc).
Proof.
  intros Hbody. revert acc. induction l as [|x l IH]; intros acc; simpl.
  - apply frames_ret.
  - apply frames_bind; [apply Hbody | intros a; apply IH].
Qed.

Lemma frames_weaken {A : Type} (P Q : event -> Prop) (m : M A) :
  (forall e, P e -> Q e) -> frames P m -> frames Q m.
Proof.
  intros HPQ Hm st. destruct (Hm st) as [evs [E F]].
  exists evs. split; [done | by eapply Forall_impl].
Qed.

Section PipelineFrames.
Variable py : pylib.
Variable cfg : config.
Variable w : world.

Lemma collect_site_frames (site_url : string) (sc : site_config) :
  frames (fun e => e = HttpGet site_url) (_collect_posts_from_site py w site_url sc).
Proof.
  unfold _collect_posts_from_site.
  apply frames_bind; [by apply frames_emit |]. intros _.
  repeat case_match; apply frames_ret.
Qed.

Lemma scrap_post_frames (links : gset string) (post_url : string) :
  frames (fun e => e = HttpGet post_url) (scrap_post py w links post_url).
Proof.
  intros st. unfold scrap_post. case_bool_decide as Hv.
  - exists []. simpl. by rewrite app_nil_r, state_eta.
  - clear Hv. revert st. apply frames_bind; [by apply frames_emit |]. intros _.
    repeat case_match; apply frames_ret.
Qed.

Lemma campaign_scrap_frames (posts : gset string) :
  frames is_http_get (campaign_scrap py w posts).
Proof.
  unfold campaign_scrap. case_bool_decide; [apply frames_ret |].
  apply frames_for_each. intros s x.
  eapply frames_weaken; [| apply scrap_post_frames]. by intros e ->.
Qed.

Lemma visit_links_frames (links : gset string) (account_id : string) :
  frames is_driver (_visit_campaign_links w links account_id).
Proof.
  apply frames_bind; [| intros _; apply frames_ret].
  apply frames_for_each. intros s x.
  apply frames_bind; [by apply frames_emit |]. intros _.
  repeat case_match; apply frames_ret.
Qed.

Lemma get_coin_frames (links : gset string) :
  frames is_driver (get_coin cfg w links).
Proof.
  unfold get_coin. case_bool_decide; [apply frames_ret |].
  destruct (_get_naver_accounts cfg) as [|a l] eqn:Hacc; [apply frames_ret |].
  apply frames_for_each. intros [] [account_id password].
  unfold visit_account. case_match; [apply frames_ret |].
  apply frames_bind; [by apply frames_emit |]. intros _.
  case_match; [| apply frames_ret | apply frames_ret].
  apply frames_bind; [by apply frames_emit |]. intros _.
  apply frames_bind; [| intros _; by apply frames_emit].
  case_match; [apply visit_links_frames | apply frames_ret].
Qed.

End PipelineFrames.

(* ===================================================================== *)
(** * What the collector and the discoverer compute *)
(* ===================================================================== *)

Lemma add_events_nil (st : state) : add_events st [] = st.
Proof. unfold add_events. by rewrite app_nil_r, state_eta. Qed.

Lemma add_events_app (st : state) (a b : list event) :
  add_events (add_events st a) b = add_events st (a ++ b)%list.
Proof. unfold add_events. simpl. by rewrite (assoc_L (++)). Qed.

Section PipelineResults.
Variable py : pylib.
Variable w : world.

Lemma site_fails_no_posts (site : string * site_config) :
  site_fails py w site -> site_posts py w site = ∅.
Proof.
  unfold site_posts. intros [-> | [text [-> [-> | H]]]]; [done | done |].
  destruct (urlparse py site.1); [by rewrite H | done].
Qed.

Lemma collect_site_run (site_url : string) (sc : site_config) (st : state) :
  _collect_posts_from_site py w site_url sc st
  = (site_posts py w (site_url, sc), add_events st [HttpGet site_url]).
Proof.
  unfold _collect_posts_from_site, site_posts. rewrite bind_run. simpl.
  repeat case_match; reflexivity.
Qed.

Lemma collect_sites_loop (sites : list (string * site_config))
      (acc : gset string) (st : state) :
  for_each sites
           (fun (all_posts : gset string) '(site_url, sc) =>
              posts ← _collect_posts_from_site py w site_url sc;
              mret (all_posts ∪ posts))
           acc st
  = (acc ∪ ⋃ (site_posts py w <$> sites),
     add_events st ((fun site => HttpGet site.1) <$> sites)).
Proof.
  revert acc st. induction sites as [|[site_url sc] sites IH]; intros acc st; simpl.
  - rewrite ret_run, add_events_nil. f_equal. set_solver.
  - rewrite !bind_run, collect_site_run. simpl. rewrite IH, add_events_app.
    f_equal. set_solver.
Qed.

Lemma collect_sites_run (cfg : config) (st : state) :
  _collect_posts_from_sites py cfg w st
  = (⋃ (site_posts py w <$> SCRAPING_SITES cfg),
     add_events st ((fun site => HttpGet site.1) <$> SCRAPING_SITES cfg)).
Proof.
  unfold _collect_posts_from_sites. rewrite collect_sites_loop.
  f_equal. set_solver.
Qed.

Lemma scrap_post_run (links : gset string) (post_url : string) (st : state) :
  scrap_post py w links post_url st
  = if bool_decide (post_url ∈ visited_urls st) then (links, st)
    else (links ∪ post_links py w post_url, add_events st [HttpGet post_url]).
Proof.
  unfold scrap_post, post_links. case_bool_decide; [done |].
  rewrite bind_run. simpl. repeat case_match; rewrite ?ret_run; f_equal; set_solver.
Qed.

Lemma scrap_loop (posts : list string) (links : gset string) (st : state) :
  for_each posts (scrap_post py w) links st
  = (links ∪ ⋃ (post_links py w <$> unvisited (visited_urls st) posts),
     add_events st (HttpGet <$> unvisited (visited_urls st) posts)).
Proof.
  revert links st. induction posts as [|p posts IH]; intros links st; simpl.
  - rewrite ret_run, add_events_nil. f_equal. set_solver.
  - rewrite bind_run, scrap_post_run. unfold unvisited. case_bool_decide as Hv; simpl.
    + rewrite IH. rewrite filter_cons_False by (intros Hn; by apply Hn). done.
    + rewrite IH. simpl. rewrite filter_cons_True by done.
      rewrite add_events_app. simpl. f_equal. set_solver.
Qed.

Lemma campaign_scrap_run (posts : gset string) (st : state) :
  campaign_scrap py w posts st
  = (⋃ (post_links py w <$> unvisited (visited_urls st) (elements posts)),
     add_events st (HttpGet <$> unvisited (visited_urls st) (elements posts))).
Proof.
  unfold campaign_scrap. case_bool_decide as He.
  - subst posts. rewrite elements_empty. simpl. by rewrite ret_run, add_events_nil.
  - rewrite scrap_loop. f_equal. set_solver.
Qed.

Lemma elem_of_campaign_links (posts visited : gset string) (l : string) :
  l ∈ ⋃ (post_links py w <$> unvisited visited (elements posts))
  <-> exists p, p ∈ posts /\ (p ∉ visited) /\ l ∈ post_links py w p.
Proof.
  rewrite elem_of_union_list. split.
  - intros [X [HX Hl]]. apply list_elem_of_fmap in HX as [p [-> Hp]].
    unfold unvisited in Hp. apply list_elem_of_filter in Hp as [Hnv Hp].
    apply elem_of_elements in Hp. eauto.
  - intros [p [Hp [Hnv Hl]]]. exists (post_links py w p). split; [| done].
    apply list_elem_of_fmap. exists p. split; [done |].
    unfold unvisited. apply list_elem_of_filter. split; [done |].
    by apply elem_of_elements.
Qed.

End PipelineResults.

Example example_run :
  main anchor_lib example_config example_world example_state
  = (Completed,
     {| visited_urls := {["https://board.example/p1"; "https://board.example/p2"]};
        visited_urls_file :=
          Some ("https://board.example/p1" ++ String "010"
                  ("https://board.example/p2" ++ String "010" ""));
        break_point_file := None;
        trace := [HttpGet "https://board.example/"; HttpGet "https://down.example/";
                  HttpGet "https://board.example/p1"; HttpGet "https://board.example/p2";
                  DriverStart "id1"; WriteVisited] |}).
Proof. vm_compute. reflexivity. Qed.

(* ===================================================================== *)
(** * Campaign Discoverer and Post Collector: skipping and isolation *)
(* ===================================================================== *)

Lemma check_break_point_visited (cfg : config) (w : world) (st : state) :
  visited_urls_file (_check_break_point cfg w st).2 = visited_urls_file st
  /\ visited_urls (_check_break_point cfg w st).2 = visited_urls st.
Proof. unfold _check_break_point. by repeat case_match. Qed.

Lemma load_visited_file (w : world) (st st0 : state) :
  visited_urls_file st0 = visited_urls_file st ->
  (_load_visited_urls w st0).1 = (_load_visited_urls w st).1.
Proof. unfold _load_visited_urls. intros ->. by repeat case_match. Qed.

(** Past the gate, [__init__] sets the visited set to the one loaded
    from the file. *)
Lemma init_loads_visited (cfg : config) (w : world) (st : state) :
  (_check_break_point cfg w st).1 = inr tt ->
  visited_urls (init cfg w st).2 = (_load_visited_urls w st).1.
Proof.
  intros Hgate. unfold init. rewrite bind_run.
  pose proof (check_break_point_visited cfg w st) as [Hfile _].
  destruct (_check_break_point cfg w st) as [[code|[]] st0]; [discriminate |].
  simpl in *. rewrite !bind_run. unfold mret, M_ret. simpl.
  by apply load_visited_file.
Qed.

(** C7: a post of the visited set is skipped by [campaign_scrap].  The
    visited set is the one loaded from the file when the run starts, and
    the Post Collector leaves it as it is.  [campaign_scrap] adds only
    the events [evs] to the state; no post of the visited set is
    fetched, and the campaign links are those of the posts that are not
    in the visited set: the result is the one obtained without the
    visited posts. *)
Theorem campaign_scrap_skips_visited (py : pylib) (cfg : config) (w : world)
        (posts : gset string) (st : state) :
  ((_check_break_point cfg w st).1 = inr tt ->
   visited_urls (init cfg w st).2 = (_load_visited_urls w st).1)
  /\ visited_urls (_collect_posts_from_sites py cfg w st).2 = visited_urls st
  /\ exists evs,
    (campaign_scrap py w posts st).2 = add_events st evs
    /\ (forall post_url, post_url ∈ visited_urls st -> HttpGet post_url ∉ evs)
    /\ (forall l, l ∈ (campaign_scrap py w posts st).1 <->
          exists p, p ∈ posts /\ (p ∉ visited_urls st) /\ l ∈ post_links py w p)
    /\ (campaign_scrap py w posts st).1
       = (campaign_scrap py w (posts ∖ visited_urls st) st).1.
Proof.
  split; [apply init_loads_visited |].
  split; [by rewrite collect_sites_run |].
  rewrite !campaign_scrap_run. simpl.
  exists (HttpGet <$> unvisited (visited_urls st) (elements posts)).
  split; [done |]. split; [| split].
  - intros u Hu Hin. apply list_elem_of_fmap in Hin as [p [[= ->] Hp]].
    unfold unvisited in Hp. apply list_elem_of_filter in Hp as [Hnv _]. by apply Hnv.
  - intros l. apply elem_of_campaign_links.
  - apply set_eq. intros l. rewrite !elem_of_campaign_links.
    split; intros [p [Hp [Hnv Hl]]]; exists p; set_solver.
Qed.

(** The theorem on the example: with [p1] in the visited set only [p2]
    is fetched. *)
Lemma campaign_scrap_skips_visited_witness :
  visited_urls (init example_config example_world example_state).2
  = (_load_visited_urls example_world example_state).1
  /\ exists evs,
    (campaign_scrap anchor_lib example_world
       {["https://board.example/p1"; "https://board.example/p2"]}
       (mkState {["https://board.example/p1"]} None None [])).2
    = add_events (mkState {["https://board.example/p1"]} None None []) evs
    /\ HttpGet "https://board.example/p1" ∉ evs.
Proof.
  split.
  { apply (campaign_scrap_skips_visited anchor_lib example_config example_world
             ∅ example_state). reflexivity. }
  destruct (campaign_scrap_skips_visited anchor_lib example_config example_world
              {["https://board.example/p1"; "https://board.example/p2"]}
              (mkState {["https://board.example/p1"]} None None []))
    as [_ [_ [evs [Hst [Hskip _]]]]].
  exists evs. split; [exact Hst |].
  apply Hskip. simpl. apply elem_of_singleton. reflexivity.
Defined.

Lemma post_fails_no_links (py : pylib) (w : world) (post_url : string) :
  post_fails py w post_url -> post_links py w post_url = ∅.
Proof. unfold post_links. by intros [-> | [text [-> ->]]]. Qed.

(** Once the lock and the gate are passed, [main] runs to completion. *)
Lemma main_completes (py : pylib) (cfg : config) (w : world) (st : state) :
  lock_acquired w = true ->
  (_check_break_point cfg w st).1 = inr tt ->
  (main py cfg w st).1 = Completed.
Proof.
  intros Hlock Hgate. unfold main. rewrite Hlock. simpl.
  rewrite bind_run. unfold init. rewrite bind_run.
  destruct (_check_break_point cfg w st) as [[code|[]] st0]; [discriminate |]. simpl.
  rewrite !bind_run. unfold mret, M_ret. simpl. rewrite bind_run. reflexivity.
Qed.

(** C9: a failure for one item is isolated.  When the fetch or the parse
    of the listing of one site fails, the Post Collector returns the
    union of the posts of the other sites, the result it has without that
    site.  When the fetch of one post fails, the Campaign Discoverer
    returns the union of the campaign links of the other posts, the
    result it has without that post.  Neither failure ends the run: past
    the lock and the gate, [main] completes. *)
Theorem failures_are_isolated (py : pylib) (cfg : config) (w : world) (st : state)
        (before after : list (string * site_config)) (site : string * site_config)
        (posts : gset string) (post_url : string) :
  SCRAPING_SITES cfg = (before ++ site :: after)%list ->
  site_fails py w site ->
  post_fails py w post_url ->
  (_collect_posts_from_sites py cfg w st).1
  = ⋃ (site_posts py w <$> (before ++ after)%list)
  /\ (_collect_posts_from_sites py cfg w st).1
     = (_collect_posts_from_sites py (with_sites cfg (before ++ after)%list) w st).1
  /\ (forall l, l ∈ (campaign_scrap py w posts st).1 <->
        exists p, p ∈ posts /\ p <> post_url /\ (p ∉ visited_urls st)
                  /\ l ∈ post_links py w p)
  /\ (campaign_scrap py w posts st).1
     = (campaign_scrap py w (posts ∖ {[post_url]}) st).1
  /\ (lock_acquired w = true -> (_check_break_point cfg w st).1 = inr tt ->
      (main py cfg w st).1 = Completed).
Proof.
  intros Hsites Hsite Hpost.
  apply site_fails_no_posts in Hsite. apply post_fails_no_links in Hpost.
  assert (Hcollect : (_collect_posts_from_sites py cfg w st).1
                     = ⋃ (site_posts py w <$> (before ++ after)%list)).
  { rewrite collect_sites_run, Hsites. simpl.
    rewrite !fmap_app, fmap_cons, !union_list_app_L, union_list_cons, Hsite.
    set_solver. }
  assert (Hlinks : forall l, l ∈ (campaign_scrap py w posts st).1 <->
        exists p, p ∈ posts /\ p <> post_url /\ (p ∉ visited_urls st)
                  /\ l ∈ post_links py w p).
  { intros l. rewrite campaign_scrap_run. simpl. rewrite elem_of_campaign_links.
    split.
    - intros [p [Hp [Hnv Hl]]]. exists p. repeat split; try done.
      intros ->. rewrite Hpost in Hl. set_solver.
    - intros [p [Hp [_ [Hnv Hl]]]]. eauto. }
  split; [exact Hcollect |]. split; [| split; [exact Hlinks | split]].
  - rewrite Hcollect. by rewrite collect_sites_run.
  - apply set_eq. intros l. rewrite Hlinks.
    rewrite campaign_scrap_run. simpl. rewrite elem_of_campaign_links.
    split.
    + intros [p [Hp [Hne [Hnv Hl]]]]. exists p. set_solver.
    + intros [p [Hp [Hnv Hl]]]. exists p. set_solver.
  - apply main_completes.
Qed.

(** The theorem on the example: the second board is down and the fetch
    of [p2] fails. *)
Lemma failures_are_isolated_witness :
  (_collect_posts_from_sites anchor_lib example_config example_world example_state).1
  = ⋃ (site_posts anchor_lib example_world
         <$> ([("https://board.example/", mkSite "td" "subject" "board.example")] ++ [])%list)
  /\ (campaign_scrap anchor_lib example_world
        {["https://board.example/p1"; "https://board.example/p2"]} example_state).1
     = (campaign_scrap anchor_lib example_world
          ({["https://board.example/p1"; "https://board.example/p2"]}
             ∖ {["https://board.example/p2"]}) example_state).1
  /\ (main anchor_lib example_config example_world example_state).1 = Completed.
Proof.
  destruct (failures_are_isolated anchor_lib example_config example_world example_state
              [("https://board.example/", mkSite "td" "subject" "board.example")] []
              ("https://down.example/", mkSite "td" "subject" "down.example")
              {["https://board.example/p1"; "https://board.example/p2"]}
              "https://board.example/p2")
    as [Hc [_ [_ [Hl Hrun]]]].
  - reflexivity.
  - left. reflexivity.
  - left. reflexivity.
  - split; [exact Hc | split; [exact Hl | apply Hrun; reflexivity]].
Defined.

(* ===================================================================== *)
(** * The run: visited set, gate and marker *)
(* ===================================================================== *)

Section RunFacts.
Variable py : pylib.
Variable cfg : config.
Variable w : world.

Lemma post_scrap_no_posts (st : state) :
  (collected_posts py cfg w) = ∅ ->
  post_scrap py cfg w st = (tt, add_events st (listing_fetches cfg)).
Proof.
  intros Hempty. unfold post_scrap. rewrite bind_run, collect_sites_run. simpl.
  fold (collected_posts py cfg w). rewrite Hempty.
  rewrite bool_decide_eq_true_2 by done. reflexivity.
Qed.

Lemma post_scrap_with_posts (st : state) :
  (collected_posts py cfg w) <> ∅ ->
  exists evs,
    Forall (fun e => is_http_get e \/ is_driver e) evs
    /\ (post_scrap py cfg w st).2
       = mkState (collected_posts py cfg w)
                 (saved_file w (visited_urls_file st) (collected_posts py cfg w))
                 (break_point_file st)
                 (trace st ++ (listing_fetches cfg) ++ evs ++ [WriteVisited]).
Proof.
  intros Hne. unfold post_scrap. rewrite bind_run, collect_sites_run. simpl.
  fold (collected_posts py cfg w) (listing_fetches cfg).
  rewrite bool_decide_eq_false_2 by done.
  rewrite bind_run, campaign_scrap_run. simpl.
  set (links := ⋃ _). set (fetches := HttpGet <$> _).
  set (st2 := add_events (add_events st (listing_fetches cfg)) fetches).
  assert (Hcoin : exists evs, Forall is_driver evs
            /\ ((if bool_decide (links = ∅) then mret tt else get_coin cfg w links) st2).2
               = add_events st2 evs).
  { case_bool_decide.
    - exists []. by rewrite ret_run, add_events_nil.
    - destruct (get_coin_frames cfg w links st2) as [evs [E F]]. by exists evs. }
  destruct Hcoin as [evs [Fevs Ecoin]].
  exists (fetches ++ evs)%list. split.
  - apply Forall_app. split.
    + subst fetches. apply Forall_fmap, Forall_forall. intros x _. by left.
    + eapply Forall_impl; [exact Fevs |]. intros e He. by right.
  - rewrite bind_run, Ecoin. rewrite bind_run. unfold set_visited_urls. simpl.
    unfold _save_visited_urls, saved_file. simpl.
    rewrite <- !(assoc_L (++)).
    destruct (visited_write w); reflexivity.
Qed.

(** The events of [post_scrap] are fetches, driver calls and the write
    of the visited-urls file; the marker is left as it is. *)
Lemma post_scrap_marker (st : state) :
  exists evs,
    Forall (fun e => is_http_get e \/ is_driver e \/ e = WriteVisited) evs
    /\ trace (post_scrap py cfg w st).2 = (trace st ++ evs)%list
    /\ break_point_file (post_scrap py cfg w st).2 = break_point_file st.
Proof.
  assert (Hfetch : Forall (fun e => is_http_get e \/ is_driver e \/ e = WriteVisited)
                          (listing_fetches cfg)).
  { unfold listing_fetches. apply Forall_fmap, Forall_forall. intros x _. by left. }
  destruct (decide ((collected_posts py cfg w) = ∅)) as [He | Hne].
  - exists (listing_fetches cfg). rewrite post_scrap_no_posts by done. by simpl.
  - destruct (post_scrap_with_posts st Hne) as [evs [F E]].
    exists ((listing_fetches cfg) ++ evs ++ [WriteVisited])%list. rewrite E. simpl.
    split; [| done]. apply Forall_app. split; [done |].
    apply Forall_app. split.
    + eapply Forall_impl; [exact F |]. intros e [He | He]; tauto.
    + constructor; [tauto | constructor].
Qed.

Lemma load_state (st : state) : (_load_visited_urls w st).2 = st.
Proof. unfold _load_visited_urls. by repeat case_match. Qed.

(** [main] past the lock *)
Lemma main_run (st : state) :
  lock_acquired w = true ->
  main py cfg w st
  = match _check_break_point cfg w st with
    | (inl code, st0) => (SysExit code, st0)
    | (inr _, st0) =>
        (Completed,
         (post_scrap py cfg w
            (mkState (_load_visited_urls w st0).1 (visited_urls_file st0)
                     (break_point_file st0) (trace st0))).2)
    end.
Proof.
  intros Hlock. unfold main. rewrite Hlock. simpl.
  rewrite bind_run. unfold init. rewrite bind_run.
  destruct (_check_break_point cfg w st) as [[code|[]] st0]; simpl; [done |].
  rewrite !bind_run. unfold mret, M_ret. simpl. rewrite bind_run. simpl.
  unfold set_visited_urls. by rewrite load_state.
Qed.

End RunFacts.

(** ** Visited set *)

(** C10: when the Post Collector returns no post, [post_scrap] returns
    early.  The only events of the run are the fetches of the listing
    pages: no post is fetched, no link is visited, the visited-urls file
    is not written, and the file and the visited set are as before. *)
Theorem no_posts_keeps_visited_file (py : pylib) (cfg : config) (w : world) (st : state) :
  (_collect_posts_from_sites py cfg w st).1 = ∅ ->
  post_scrap py cfg w st = (tt, add_events st (listing_fetches cfg))
  /\ Forall (fun e => exists site, site ∈ SCRAPING_SITES cfg /\ e = HttpGet site.1)
            (listing_fetches cfg)
  /\ (WriteVisited ∉ listing_fetches cfg)
  /\ visited_urls_file (post_scrap py cfg w st).2 = visited_urls_file st
  /\ visited_urls (post_scrap py cfg w st).2 = visited_urls st.
Proof.
  intros Hempty. rewrite collect_sites_run in Hempty. simpl in Hempty.
  rewrite (post_scrap_no_posts py cfg w st Hempty). simpl.
  split; [done |]. split; [| split; [| done]].
  - unfold listing_fetches. apply Forall_fmap, Forall_forall. intros site Hs.
    simpl. eauto.
  - unfold listing_fetches. intros Hin.
    apply list_elem_of_fmap in Hin as [site [[=] _]].
Qed.

(** The theorem in the world where every fetch fails *)
Lemma no_posts_keeps_visited_file_witness :
  post_scrap anchor_lib example_config offline_world example_state
  = (tt, add_events example_state (listing_fetches example_config))
  /\ visited_urls_file (post_scrap anchor_lib example_config offline_world example_state).2
     = visited_urls_file example_state.
Proof.
  destruct (no_posts_keeps_visited_file anchor_lib example_config offline_world
              example_state) as [Hrun [_ [_ [Hfile _]]]].
  - vm_compute. reflexivity.
  - split; [exact Hrun | exact Hfile].
Defined.

Lemma elem_of_sorted_urls (urls : gset string) (u : string) :
  u ∈ sorted_urls urls <-> u ∈ urls.
Proof.
  unfold sorted_urls. rewrite merge_sort_Permutation. apply elem_of_elements.
Qed.

(** C3, in a world where every fetch fails: the run completes, it
    collects no post, and the visited-urls file still holds the post of
    the previous run, not the empty set of this run. *)
Lemma visited_file_kept_when_no_posts :
  (main anchor_lib example_config offline_world example_state).1 = Completed
  /\ (_collect_posts_from_sites anchor_lib example_config offline_world example_state).1 = ∅
  /\ visited_urls_file (main anchor_lib example_config offline_world example_state).2
     = Some ("https://board.example/p0" ++ String "010" "")
  /\ visited_urls_file (main anchor_lib example_config offline_world example_state).2
     <> Some (lines_text (sorted_urls ∅)).
Proof. vm_compute. repeat split; try reflexivity. discriminate. Qed.

(** C3, amended: in a run that passes the lock and the gate, the visited
    set is loaded from the file at the start; when the run collects at
    least one post and the write of the file succeeds, the file holds at
    the end the sorted lines of the posts collected in this run, which
    are exactly these posts, and nothing of its former contents. *)
Theorem run_replaces_visited_file (py : pylib) (cfg : config) (w : world) (st : state) :
  lock_acquired w = true ->
  (_check_break_point cfg w st).1 = inr tt ->
  collected_posts py cfg w <> ∅ ->
  visited_write w = WriteOk ->
  (main py cfg w st).1 = Completed
  /\ (_collect_posts_from_sites py cfg w st).1 = collected_posts py cfg w
  /\ visited_urls (init cfg w st).2 = (_load_visited_urls w st).1
  /\ visited_urls_file (main py cfg w st).2
     = Some (lines_text (sorted_urls (collected_posts py cfg w)))
  /\ (forall u, u ∈ sorted_urls (collected_posts py cfg w)
                <-> u ∈ collected_posts py cfg w)
  /\ visited_urls (main py cfg w st).2 = collected_posts py cfg w.
Proof.
  intros Hlock Hgate Hne Hwrite.
  split; [by apply main_completes |].
  split; [by rewrite collect_sites_run |].
  split; [| split; [| split; [apply elem_of_sorted_urls |]]].
  - by apply init_loads_visited.
  - rewrite main_run by done.
    destruct (_check_break_point cfg w st) as [[code|[]] st0]; [discriminate |].
    destruct (post_scrap_with_posts py cfg w
                (mkState (_load_visited_urls w st0).1 (visited_urls_file st0)
                         (break_point_file st0) (trace st0)) Hne) as [evs [_ E]].
    rewrite E. simpl. unfold saved_file. by rewrite Hwrite.
  - rewrite main_run by done.
    destruct (_check_break_point cfg w st) as [[code|[]] st0]; [discriminate |].
    destruct (post_scrap_with_posts py cfg w
                (mkState (_load_visited_urls w st0).1 (visited_urls_file st0)
                         (break_point_file st0) (trace st0)) Hne) as [evs [_ E]].
    by rewrite E.
Qed.

(** The theorem on the example run *)
Lemma run_replaces_visited_file_witness :
  (main anchor_lib example_config example_world example_state).1 = Completed
  /\ visited_urls_file (main anchor_lib example_config example_world example_state).2
     = Some (lines_text (sorted_urls (collected_posts anchor_lib example_config example_world))).
Proof.
  destruct (run_replaces_visited_file anchor_lib example_config example_world
              example_state) as [Hrun [_ [_ [Hfile _]]]].
  - reflexivity.
  - reflexivity.
  - vm_compute. discriminate.
  - reflexivity.
  - split; [exact Hrun | exact Hfile].
Defined.

(** ** Backoff gate *)

(** The two outcomes of the gate check when the marker exists *)
Lemma check_break_point_cooling (cfg : config) (w : world) (st : state)
      (st_mtime : Q) (content : string) :
  break_point_file st = Some (st_mtime, content) ->
  (time_now w - st_mtime < delay_seconds cfg)%Q ->
  _check_break_point cfg w st = (inl 1%Z, st).
Proof.
  intros Hmarker Hage. unfold _check_break_point. rewrite Hmarker.
  destruct (Qle_bool (delay_seconds cfg) (time_now w - st_mtime)) eqn:Hle; [| done].
  apply Qle_bool_iff in Hle. by apply Qle_not_lt in Hle.
Qed.

Lemma check_break_point_expired (cfg : config) (w : world) (st : state)
      (st_mtime : Q) (content : string) :
  break_point_file st = Some (st_mtime, content) ->
  (delay_seconds cfg <= time_now w - st_mtime)%Q ->
  _check_break_point cfg w st
  = (inr tt, mkState (visited_urls st) (visited_urls_file st) None
                     (trace st ++ [UnlinkBreakPoint])).
Proof.
  intros Hmarker Hage. unfold _check_break_point. rewrite Hmarker.
  apply Qle_bool_iff in Hage. by rewrite Hage.
Qed.

(** C4: the gate check at the top of a run whose marker exists.  While
    the age of the marker is below [DELAY_HOURS * 3600] seconds, [main]
    ends with [sys.exit(1)] and the state, trace included, is the one
    it started with: nothing was fetched or written.  Once the age has
    reached that threshold, the check deletes the marker, the run goes
    on to completion, and the deletion is the only one of the run. *)
Theorem gate_check (py : pylib) (cfg : config) (w : world) (st : state)
        (st_mtime : Q) (content : string) :
  lock_acquired w = true ->
  break_point_file st = Some (st_mtime, content) ->
  ((time_now w - st_mtime < delay_seconds cfg)%Q ->
     main py cfg w st = (SysExit 1, st)
     /\ exit_status (main py cfg w st).1 <> 0%Z)
  /\ ((delay_seconds cfg <= time_now w - st_mtime)%Q ->
     _check_break_point cfg w st
     = (inr tt, mkState (visited_urls st) (visited_urls_file st) None
                        (trace st ++ [UnlinkBreakPoint]))
     /\ (main py cfg w st).1 = Completed
     /\ break_point_file (main py cfg w st).2 = None
     /\ exists evs, trace (main py cfg w st).2 = (trace st ++ UnlinkBreakPoint :: evs)%list
                    /\ (UnlinkBreakPoint ∉ evs)).
Proof.
  intros Hlock Hmarker. split.
  - intros Hage.
    pose proof (check_break_point_cooling cfg w st st_mtime content Hmarker Hage) as Hgate.
    rewrite main_run, Hgate by done. by split.
  - intros Hage.
    pose proof (check_break_point_expired cfg w st st_mtime content Hmarker Hage) as Hgate.
    split; [exact Hgate |].
    split; [apply main_completes; [done | by rewrite Hgate] |].
    rewrite main_run, Hgate by done. simpl.
    match goal with |- context [post_scrap py cfg w ?s] =>
      destruct (post_scrap_marker py cfg w s) as [evs [F [Htrace Hmark]]] end.
    simpl in *. split; [exact Hmark |].
    exists evs. split.
    + rewrite Htrace. by rewrite <- (assoc_L (++)).
    + intros Hin. eapply Forall_forall in F; [| exact Hin].
      destruct F as [F | [F | F]]; [done | done | discriminate].
Qed.

(** The theorem on the example, with a marker that is 1000 seconds old
    and with one that is 1000000 seconds old. *)
Lemma gate_check_witness :
  main anchor_lib example_config example_world
       (mkState ∅ None (Some (999000%Q, "marker")) [])
  = (SysExit 1, mkState ∅ None (Some (999000%Q, "marker")) [])
  /\ break_point_file
       (main anchor_lib example_config example_world
             (mkState ∅ None (Some (0%Q, "marker")) [])).2 = None.
Proof.
  split.
  - apply (gate_check anchor_lib example_config example_world
             (mkState ∅ None (Some (999000%Q, "marker")) []) 999000%Q "marker");
      [reflexivity | reflexivity | vm_compute; reflexivity].
  - apply (gate_check anchor_lib example_config example_world
             (mkState ∅ None (Some (0%Q, "marker")) []) 0%Q "marker");
      [reflexivity | reflexivity | vm_compute; discriminate].
Defined.

(** ** Backoff marker *)

(** C2, on a run of claim failures: both claim links are opened in
    Firefox and both visits raise; the exceptions are caught, the run
    completes without a write of the marker and without a marker, and a
    run that follows passes the gate. *)
Example marker_not_written_on_failure :
  (main anchor_lib example_config blocked_world example_state).1 = Completed
  /\ (forall link,
        link = claim_url \/ link = second_claim_url ->
        visit_link blocked_world "id1" link = None
        /\ DriverGet "id1" link
           ∈ trace (main anchor_lib example_config blocked_world example_state).2)
  /\ (WriteBreakPoint
      ∉ trace (main anchor_lib example_config blocked_world example_state).2)
  /\ break_point_file (main anchor_lib example_config blocked_world example_state).2 = None
  /\ (_check_break_point example_config blocked_world
        (main anchor_lib example_config blocked_world example_state).2).1 = inr tt.
Proof.
  assert (Hrun : exists evs,
            main anchor_lib example_config blocked_world example_state
            = (Completed, mkState {["https://board.example/p1"; "https://board.example/p2"]}
                            (Some ("https://board.example/p1"
                                   ++ String "010" ("https://board.example/p2"
                                   ++ String "010" "")))
                            None evs)
            /\ (DriverGet "id1" claim_url ∈ evs)
            /\ (DriverGet "id1" second_claim_url ∈ evs)
            /\ (WriteBreakPoint ∉ evs)).
  { eexists. split; [vm_compute; reflexivity |].
    split; [| split].
    - apply list_elem_of_In. vm_compute. tauto.
    - apply list_elem_of_In. vm_compute. tauto.
    - intros Hin. apply list_elem_of_In in Hin. vm_compute in Hin.
      intuition discriminate. }
  destruct Hrun as [evs [-> [H1 [H2 H3]]]]. simpl.
  split; [reflexivity |]. split; [| split; [exact H3 | split; reflexivity]].
  intros link [-> | ->]; (split; [reflexivity | assumption]).
Qed.

(** C2: neither the Campaign Discoverer nor the Visit Orchestrator
    writes the marker, whatever fails in them.  In every world
    [campaign_scrap], [get_coin] and the whole of [post_scrap] leave the
    marker file as it is and make no write of it.  The writer the gate
    waits for is there: [_create_break_point] writes the marker with the
    time of the write and the reason, and a run that starts before the
    cooldown has passed then stops at the gate; but no step of a run
    calls it. *)
Theorem marker_written_by_create_break_point_only
        (py : pylib) (cfg : config) (w later : world) (st : state)
        (posts links : gset string) (now : Q) (stamp reason : string) :
  lock_acquired later = true ->
  (time_now later - now < delay_seconds cfg)%Q ->
  break_point_file (campaign_scrap py w posts st).2 = break_point_file st
  /\ break_point_file (get_coin cfg w links st).2 = break_point_file st
  /\ break_point_file (post_scrap py cfg w st).2 = break_point_file st
  /\ (exists evs, trace (post_scrap py cfg w st).2 = (trace st ++ evs)%list
                  /\ (WriteBreakPoint ∉ evs))
  /\ break_point_file (_create_break_point now stamp reason true st).2
     = Some (now, "Break point created: " ++ stamp ++ String "010"
                    ("Reason: " ++ reason ++ String "010" ""))
  /\ (main py cfg later (_create_break_point now stamp reason true st).2).1 = SysExit 1.
Proof.
  intros Hlock Hage.
  split; [| split; [| split; [| split; [| split]]]].
  - destruct (campaign_scrap_frames py w posts st) as [evs [E _]]. by rewrite E.
  - destruct (get_coin_frames cfg w links st) as [evs [E _]]. by rewrite E.
  - by destruct (post_scrap_marker py cfg w st) as [evs [_ [_ E]]].
  - destruct (post_scrap_marker py cfg w st) as [evs [F [E _]]].
    exists evs. split; [done |]. intros Hin.
    eapply Forall_forall in F; [| exact Hin].
    destruct F as [F | [F | F]]; [done | done | discriminate].
  - reflexivity.
  - rewrite main_run by done.
    by rewrite (check_break_point_cooling cfg later
                  (_create_break_point now stamp reason true st).2 now _ eq_refl Hage).
Qed.

(** The theorem on the run of claim failures: the run leaves the state
    without a marker and writes none; a marker written at time 999000
    stops the run of that world, whose clock reads 1000000. *)
Lemma marker_written_by_create_break_point_only_witness :
  break_point_file (get_coin example_config blocked_world
                      {[claim_url; second_claim_url]} example_state).2
  = break_point_file example_state
  /\ break_point_file (post_scrap anchor_lib example_config blocked_world example_state).2
     = break_point_file example_state
  /\ (exists evs,
        trace (post_scrap anchor_lib example_config blocked_world example_state).2
        = (trace example_state ++ evs)%list
        /\ (WriteBreakPoint ∉ evs))
  /\ (main anchor_lib example_config blocked_world
        (_create_break_point 999000%Q "2026-01-01 00:00:00" "blocked" true example_state).2).1
     = SysExit 1.
Proof.
  destruct (marker_written_by_create_break_point_only anchor_lib example_config
              blocked_world blocked_world example_state ∅
              {[claim_url; second_claim_url]} 999000%Q
              "2026-01-01 00:00:00" "blocked")
    as [_ [Hcoin [Hpost [Htrace [_ Hgate]]]]].
  - reflexivity.
  - vm_compute. reflexivity.
  - repeat split; assumption.
Defined.

(* ===================================================================== *)
(** * Properties of the Dwell Simulator *)
(* ===================================================================== *)

(** C6: the dwell floor.  In every call of [dwell_and_scroll], with or
    without a scrollable page, the time from the start of the page load
    wait to the return is at least the minimum dwell time.  When the scroll
    sequence ends before the floor, the final sleep is asked for the
    time that remains to the floor, counted from the start of the wait,
    plus the jitter; when the floor is already reached there is no sleep.
    A page with nothing to scroll is not scrolled. *)
Theorem dwell_at_least_minimum (cfg : config) (p : page) (min_seconds : option Z) :
  well_timed p ->
  (t_start p + dwell_floor cfg min_seconds
   <= t_return (dwell_and_scroll cfg p min_seconds))%Q
  /\ match final_sleep (dwell_and_scroll cfg p min_seconds) with
     | Some sleep_time =>
         (sleep_time == dwell_floor cfg min_seconds - (scroll_end p - t_start p) + jitter p)%Q
         /\ (scroll_end p - t_start p < dwell_floor cfg min_seconds)%Q
         /\ (t_return (dwell_and_scroll cfg p min_seconds)
             == scroll_end p + sleep_time + oversleep p)%Q
     | None =>
         (dwell_floor cfg min_seconds <= scroll_end p - t_start p)%Q
         /\ (t_return (dwell_and_scroll cfg p min_seconds) == scroll_end p)%Q
     end
  /\ (scroll_decision p = Some false ->
      scrolled (dwell_and_scroll cfg p min_seconds) = false
      /\ (scroll_end p == t_start p + ready_wait p + measure_time p)%Q).
Proof.
  intros [Hready Hmeasure Hscroll [Hjlo Hjhi] Hover].
  unfold dwell_and_scroll, dwell_floor, scroll_end.
  destruct min_seconds as [m|]; simpl default;
    set (floor := inject_Z _);
    destruct (scroll_decision p) as [[|]|] eqn:Hdec; simpl;
    match goal with |- context [Qle_bool ?r 0] =>
      destruct (Qle_bool r 0) eqn:Hrem;
      [apply Qle_bool_iff in Hrem
      | assert (Hpos : ~ (r <= 0)%Q) by (rewrite <- Qle_bool_iff; congruence);
        apply Qnot_le_lt in Hpos]
    end; simpl;
    repeat split; try discriminate; try lra.
Qed.

(** The theorem on a page with nothing to scroll, 500 high in a viewport
    of 800, whose load wait and measurements take 0.6 seconds: the
    routine returns 6.5 seconds after its start, for a minimum of 6. *)
Lemma dwell_at_least_minimum_witness :
  (0 + dwell_floor example_config None
   <= t_return (dwell_and_scroll example_config
                  (mkPage 0 (1 # 2) (ScriptValue (Some 500%Z)) (ScriptValue (Some 800%Z))
                          (1 # 10) 0 (1 # 2) 0) None))%Q.
Proof.
  apply (dwell_at_least_minimum example_config
           (mkPage 0 (1 # 2) (ScriptValue (Some 500%Z)) (ScriptValue (Some 800%Z))
                   (1 # 10) 0 (1 # 2) 0) None).
  constructor; simpl; try split; vm_compute; discriminate.
Defined.

(* ===================================================================== *)
(** * Further properties: filter, normalizer, discoverer *)
(* ===================================================================== *)

(** X1: the Campaign Filter works URL by URL.  The filter of a union is
    the union of the filters, the filter of a subset is a subset of the
    filter, the output is a subset of the input, and an empty input
    gives an empty output. *)
Theorem filter_distributes_over_union (py : pylib) (S T : gset string) :
  _filter_campaign_urls py (S ∪ T)
  = _filter_campaign_urls py S ∪ _filter_campaign_urls py T
  /\ _filter_campaign_urls py S ⊆ S
  /\ _filter_campaign_urls py S ⊆ _filter_campaign_urls py (S ∪ T)
  /\ _filter_campaign_urls py ∅ = ∅.
Proof.
  split; [| split; [| split]].
  - apply set_eq. intros u.
    rewrite elem_of_union, !elem_of_filter_campaign_urls, elem_of_union. tauto.
  - apply filter_campaign_urls_subseteq.
  - intros u. rewrite !elem_of_filter_campaign_urls, elem_of_union. tauto.
  - apply set_eq. intros u. rewrite elem_of_filter_campaign_urls. set_solver.
Qed.

(** X2: what the Campaign Filter never keeps.  A URL of the output
    parses, and its netloc is the ad-partner name or contains [naver];
    with the ad-partner netloc the path contains [/u/naverpay/ads/],
    with a [naver] netloc the lower-cased path contains [point],
    [campaign] or [event].  The test reads the netloc, user information
    and port included, not the host. *)
Theorem filter_keeps_known_netlocs_only (py : pylib) (S : gset string) (u : string) :
  u ∈ _filter_campaign_urls py S ->
  u ∈ S
  /\ exists parsed,
       urlparse py u = Some parsed
       /\ ((netloc parsed = "ofw.adison.co"
            /\ PyStr.contains "/u/naverpay/ads/" (path parsed) = true)
           \/ (PyStr.contains "naver" (netloc parsed) = true
               /\ (PyStr.contains "point" (PyStr.lower (path parsed)) = true
                   \/ PyStr.contains "campaign" (PyStr.lower (path parsed)) = true
                   \/ PyStr.contains "event" (PyStr.lower (path parsed)) = true))).
Proof.
  intros Hu. apply elem_of_filter_campaign_urls in Hu as [HS Hc]. split; [done |].
  rewrite is_campaign_url_without_query_test in Hc.
  destruct (urlparse py u) as [parsed|]; [| discriminate].
  exists parsed. split; [done |].
  apply orb_true_iff in Hc as [Ha | Hn].
  - left. unfold is_adison in Ha. apply andb_true_iff in Ha as [Hh Hp].
    by apply bool_decide_eq_true in Hh.
  - right. unfold is_naver_keyword in Hn. apply andb_true_iff in Hn as [Hh Hk].
    split; [done |]. simpl in Hk. rewrite orb_false_r in Hk.
    apply orb_true_iff in Hk as [Hk | Hk]; [tauto |].
    apply orb_true_iff in Hk as [Hk | Hk]; tauto.
Qed.

Lemma filter_keeps_known_netlocs_only_witness :
  exists parsed,
    urlparse anchor_lib claim_url = Some parsed
    /\ ((netloc parsed = "ofw.adison.co"
         /\ PyStr.contains "/u/naverpay/ads/" (path parsed) = true)
        \/ (PyStr.contains "naver" (netloc parsed) = true
            /\ (PyStr.contains "point" (PyStr.lower (path parsed)) = true
                \/ PyStr.contains "campaign" (PyStr.lower (path parsed)) = true
                \/ PyStr.contains "event" (PyStr.lower (path parsed)) = true))).
Proof.
  apply (filter_keeps_known_netlocs_only anchor_lib {[claim_url]} claim_url).
  vm_compute. reflexivity.
Defined.

(** The netloc is not the host: with the user information [naver] a URL
    of another host passes the filter. *)
Example filter_reads_netloc_not_host :
  _filter_campaign_urls anchor_lib {["https://naver@evil.example/point"]}
  = {["https://naver@evil.example/point"]}
  /\ urlparse anchor_lib "https://naver@evil.example/point"
     = Some (mkParseResult "https" "naver@evil.example" "/point" "" "" "")
  /\ hostname (mkParseResult "https" "naver@evil.example" "/point" "" "" "")
     = Some "evil.example".
Proof. repeat split; vm_compute; reflexivity. Qed.

Lemma split_scheme_slash (s : string) :
  (UrlLib.split_scheme (String "/" s)).1 = "".
Proof.
  unfold UrlLib.split_scheme. cbn [PyStr.split1].
  change (Ascii.eqb ":" "/") with false. cbv iota.
  destruct (PyStr.split1 ":" s) as [[a b]|]; reflexivity.
Qed.

Lemma urlparse_scheme (py : pylib) (u : string) (p : ParseResult) :
  urlparse py u = Some p ->
  scheme p
  = (UrlLib.split_scheme
       (PyStr.remove UrlLib.unsafe_url_byte (PyStr.lstrip UrlLib.c0_control_or_space u))).1.
Proof.
  unfold urlparse, urlsplit.
  destruct (UrlLib.split_scheme _) as [sch rest]. simpl.
  repeat case_match; intros ?; simplify_eq; reflexivity.
Qed.

(** A URL that begins with [//] has no scheme. *)
Lemma scheme_relative_no_scheme (py : pylib) (u : string) (p : ParseResult) :
  PyStr.startswith u "//" = true -> urlparse py u = Some p -> scheme p = "".
Proof.
  intros Hss Hp. apply urlparse_scheme in Hp. rewrite Hp.
  unfold PyStr.startswith in Hss. apply ContainsFacts.prefix_app in Hss as [t ->].
  change ("//" ++ t) with (String "/" (String "/" t)).
  cbn [PyStr.lstrip]. change (UrlLib.c0_control_or_space "/") with false. cbv iota.
  cbn [PyStr.remove]. change (UrlLib.unsafe_url_byte "/") with false. cbv iota.
  apply split_scheme_slash.
Qed.

(** An [http] or [https] URL with a host is normalized to itself. *)
Lemma http_url_normalizes (py : pylib) (origin u : string) :
  http_url py u -> normalize_url py origin u = Some u.
Proof.
  intros Hu. apply normalize_url_resolves. split; [| done].
  destruct Hu as [parsed [Hp [Hs Hn]]].
  destruct (PyStr.startswith u "//") eqn:Hss.
  - rewrite (scheme_relative_no_scheme py u parsed Hss Hp) in Hs.
    destruct Hs; discriminate.
  - eapply resolve_absolute; eauto. destruct Hs as [-> | ->]; discriminate.
Qed.

Lemma omap_id_on (f : string -> option string) (l : list string) :
  (forall x, x ∈ l -> f x = Some x) -> omap f l = l.
Proof.
  induction l as [|x l IH]; intros Hf; [done |].
  cbn [omap list_omap]. rewrite Hf by set_solver.
  f_equal. apply IH. intros y Hy. apply Hf. set_solver.
Qed.

(** The output of the normalization loop, candidate by candidate *)
Lemma elem_of_normalize_candidates (py : pylib) (candidates out : gset string)
      (base_url u : string) :
  normalize_candidates py candidates base_url = Some out ->
  u ∈ out <->
  exists base_parsed c,
    urlparse py base_url = Some base_parsed /\ c ∈ candidates
    /\ normalize_url py (scheme base_parsed ++ "://" ++ netloc base_parsed) c = Some u.
Proof.
  unfold normalize_candidates.
  destruct (urlparse py base_url) as [bp|]; [| discriminate].
  intros [= <-]. rewrite foldl_add_some, elem_of_union, elem_of_list_to_set, list_elem_of_omap.
  split.
  - intros [H | [c [Hc Hn]]]; [set_solver |].
    exists bp, c. by rewrite <- elem_of_elements.
  - intros [bp' [c [[= <-] [Hc Hn]]]]. right. exists c. by rewrite elem_of_elements.
Qed.

(** X3: the normalization is idempotent.  The URLs it returns parse
    with scheme [http] or [https] and a netloc that is not empty, and
    normalizing them again under the same base returns the same set. *)
Theorem normalize_candidates_idempotent (py : pylib) (candidates out : gset string)
        (base_url : string) :
  normalize_candidates py candidates base_url = Some out ->
  normalize_candidates py out base_url = Some out
  /\ (forall u, u ∈ out -> http_url py u).
Proof.
  intros Hout.
  assert (Hhttp : forall u, u ∈ out -> http_url py u).
  { intros u Hu. apply (elem_of_normalize_candidates py candidates out base_url u Hout) in Hu
      as [bp [c [_ [_ Hn]]]].
    apply normalize_url_resolves in Hn. tauto. }
  split; [| exact Hhttp].
  unfold normalize_candidates in *.
  destruct (urlparse py base_url) as [bp|]; [| discriminate].
  f_equal. rewrite foldl_add_some.
  rewrite omap_id_on.
  - apply set_eq. intros u. rewrite elem_of_union, elem_of_list_to_set, elem_of_elements.
    set_solver.
  - intros u Hu. apply elem_of_elements in Hu. by apply http_url_normalizes, Hhttp.
Qed.

Lemma normalize_candidates_idempotent_witness :
  normalize_candidates anchor_lib {["https://x.com/y"]} "https://a.com"
  = Some {["https://x.com/y"]}.
Proof.
  apply (normalize_candidates_idempotent anchor_lib
           {["//x.com/y"; "http://"]} {["https://x.com/y"]} "https://a.com").
  vm_compute. reflexivity.
Defined.

(** X4: what the Campaign Discoverer returns.  Every campaign link of
    [campaign_scrap] parses with scheme [http] or [https] and a netloc
    that is not empty, the filter classifies it as a campaign URL, and
    there is a post that is not in the visited set and whose fetch
    succeeded. *)
Theorem campaign_links_are_campaign_urls (py : pylib) (w : world)
        (posts : gset string) (st : state) (l : string) :
  l ∈ (campaign_scrap py w posts st).1 ->
  http_url py l
  /\ is_campaign_url py l = true
  /\ exists post_url text,
       post_url ∈ posts /\ (post_url ∉ visited_urls st)
       /\ requests_get w post_url = Some text.
Proof.
  rewrite campaign_scrap_run. simpl. rewrite elem_of_campaign_links.
  intros [p [Hp [Hnv Hl]]]. unfold post_links in Hl.
  destruct (requests_get w p) as [text|] eqn:Hget; [| set_solver].
  destruct (_extract_url_candidates py text p) as [c|] eqn:Hc; [| set_solver].
  apply elem_of_filter_campaign_urls in Hl as [Hin Hcamp].
  unfold _extract_url_candidates in Hc.
  apply (elem_of_normalize_candidates py _ c p l Hc) in Hin as [bp [x [_ [_ Hn]]]].
  apply normalize_url_resolves in Hn as [_ Hhttp].
  split; [done |]. split; [done |]. by exists p, text.
Qed.

Lemma campaign_links_are_campaign_urls_witness :
  http_url anchor_lib claim_url /\ is_campaign_url anchor_lib claim_url = true.
Proof.
  destruct (campaign_links_are_campaign_urls anchor_lib example_world
              {["https://board.example/p1"]} example_state claim_url) as [H1 [H2 _]].
  - vm_compute. reflexivity.
  - split; [exact H1 | exact H2].
Defined.

(* ===================================================================== *)
(** * Further properties: collector and orchestrator *)
(* ===================================================================== *)

Lemma elem_of_posts_of_elements (py : pylib) (els : list element)
      (site_url : string) (host : option string) (u : string) :
  u ∈ posts_of_elements py els site_url host <->
  exists el, el ∈ els /\ _extract_post_url py el site_url host = Some u
             /\ u <> "" /\ _is_naver_related_post el = true.
Proof.
  unfold posts_of_elements.
  assert (Hgen : forall (acc : gset string),
    u ∈ foldl (fun (posts : gset string) el =>
                 match _extract_post_url py el site_url host with
                 | Some post_url =>
                     if PyStr.truthy post_url && _is_naver_related_post el
                     then posts ∪ {[post_url]} else posts
                 | None => posts
                 end) acc els
    <-> u ∈ acc \/ exists el, el ∈ els /\ _extract_post_url py el site_url host = Some u
                              /\ u <> "" /\ _is_naver_related_post el = true).
  { induction els as [|el els IH]; intros acc; simpl.
    - split; [tauto | intros [H | [el [H _]]]; [done | set_solver]].
    - rewrite IH. clear IH. split.
      + intros [Hacc | [el' [Hel' Hrest]]].
        * destruct (_extract_post_url py el site_url host) as [post_url|] eqn:He;
            [| tauto].
          destruct (PyStr.truthy post_url && _is_naver_related_post el) eqn:Hc; [| tauto].
          apply elem_of_union in Hacc as [Hacc | Hu]; [tauto |].
          apply elem_of_singleton in Hu as ->. right. exists el.
          apply andb_true_iff in Hc as [Ht Hk]. apply truthy_true in Ht.
          split; [set_solver | done].
        * right. exists el'. split; [set_solver | done].
      + intros [Hacc | [el' [Hel' [He [Hne Hk]]]]].
        * left. repeat case_match; set_solver.
        * apply elem_of_cons in Hel' as [-> | Hel'].
          -- left. rewrite He, Hk. apply truthy_true in Hne. rewrite Hne. simpl. set_solver.
          -- right. exists el'. done. }
  rewrite Hgen. set_solver.
Qed.

(** X5: what the Post Collector accepts from a listing page.  A URL is
    collected exactly when it is the post URL of an element of the page
    whose text contains one of the keywords, and it is never the empty
    string.  The URL is the join of the site URL with a non-empty [href]
    of the first anchor of the element or of the anchor that follows
    it, and the following anchor is used on the host [damoang.net] only. *)
Theorem collected_posts_come_from_keyword_elements (py : pylib) (els : list element)
        (site_url : string) (host : option string) (u : string) :
  (u ∈ posts_of_elements py els site_url host <->
   exists el, el ∈ els /\ _extract_post_url py el site_url host = Some u
              /\ u <> "" /\ _is_naver_related_post el = true)
  /\ ("" ∉ posts_of_elements py els site_url host)
  /\ (forall el, _extract_post_url py el site_url host = Some u -> u <> "" ->
        exists href, href <> "" /\ urljoin py site_url href = Some u
                     /\ (el_first_a el = Some href
                         \/ (host = Some "damoang.net" /\ el_next_a el = Some href))).
Proof.
  split; [apply elem_of_posts_of_elements |]. split.
  - intros Hin. apply elem_of_posts_of_elements in Hin as [el [_ [_ [Hne _]]]]. done.
  - intros el He Hne. unfold _extract_post_url in He.
    destruct (bool_decide (host = Some "damoang.net") && bool_decide (is_Some (el_first_a el)))
      eqn:Hd.
    + apply andb_true_iff in Hd as [Hh Hf]. apply bool_decide_eq_true in Hh.
      destruct (el_next_a el) as [next|] eqn:Hn.
      * destruct (PyStr.truthy next) eqn:Ht; [| by simplify_eq].
        exists next. apply truthy_true in Ht. tauto.
      * destruct (el_first_a el) as [href|]; [| by simplify_eq].
        destruct (PyStr.truthy href) eqn:Ht; [| by simplify_eq].
        exists href. apply truthy_true in Ht. tauto.
    + destruct (el_first_a el) as [href|]; [| by simplify_eq].
      destruct (PyStr.truthy href) eqn:Ht; [| by simplify_eq].
      exists href. apply truthy_true in Ht. tauto.
Qed.

Lemma unvisited_nil (visited : gset string) (posts : list string) :
  (forall u, u ∈ posts -> u ∈ visited) -> unvisited visited posts = [].
Proof.
  unfold unvisited. induction posts as [|p posts IH]; intros Hall; [done |].
  rewrite filter_cons_False by (intros Hn; apply Hn, Hall; set_solver).
  apply IH. intros u Hu. apply Hall. set_solver.
Qed.

(** X6: a run whose posts are all in the visited set.  When the Post
    Collector returns posts and every one of them is in the visited set,
    [post_scrap] fetches no post and starts no browser: after the
    fetches of the listing pages its only event is the write of the
    visited-urls file, which is rewritten for the collected posts. *)
Theorem all_posts_already_visited (py : pylib) (cfg : config) (w : world) (st : state) :
  collected_posts py cfg w <> ∅ ->
  collected_posts py cfg w ⊆ visited_urls st ->
  post_scrap py cfg w st
  = (tt, mkState (collected_posts py cfg w)
                 (saved_file w (visited_urls_file st) (collected_posts py cfg w))
                 (break_point_file st)
                 (trace st ++ listing_fetches cfg ++ [WriteVisited])).
Proof.
  intros Hne Hsub. unfold post_scrap. rewrite bind_run, collect_sites_run. simpl.
  fold (collected_posts py cfg w) (listing_fetches cfg).
  rewrite bool_decide_eq_false_2 by done.
  rewrite bind_run, campaign_scrap_run. simpl.
  assert (Hnone : unvisited (visited_urls st) (elements (collected_posts py cfg w)) = []).
  { apply unvisited_nil. intros u Hu. apply Hsub. by apply elem_of_elements. }
  rewrite Hnone. simpl. rewrite bool_decide_eq_true_2 by done.
  rewrite add_events_nil. rewrite !bind_run. unfold mret, M_ret. simpl.
  unfold _save_visited_urls, saved_file, set_visited_urls, add_events. simpl.
  rewrite <- (assoc_L (++)).
  destruct (visited_write w); reflexivity.
Qed.

Lemma all_posts_already_visited_witness :
  trace (post_scrap anchor_lib example_config example_world
           (mkState {["https://board.example/p1"; "https://board.example/p2"]}
                    None None [])).2
  = [HttpGet "https://board.example/"; HttpGet "https://down.example/"; WriteVisited].
Proof.
  rewrite (all_posts_already_visited anchor_lib example_config example_world
             (mkState {["https://board.example/p1"; "https://board.example/p2"]}
                      None None [])).
  - reflexivity.
  - vm_compute. discriminate.
  - assert (Heq : collected_posts anchor_lib example_config example_world
                  = {["https://board.example/p1"; "https://board.example/p2"]})
      by (vm_compute; reflexivity).
    rewrite Heq. done.
Defined.

Section OrchestratorFacts.
Variable cfg : config.
Variable w : world.

Lemma elem_of_get_naver_accounts (account : string * string) :
  account ∈ _get_naver_accounts cfg <->
  account ∈ naver_login_info cfg
  /\ account.1 <> "" /\ account.2 <> ""
  /\ PyStr.startswith account.1 "your_naver_id" = false
  /\ PyStr.startswith account.2 "your_password" = false.
Proof.
  unfold _get_naver_accounts. rewrite list_elem_of_filter.
  destruct account as [naver_id naver_pw]. simpl.
  rewrite Is_true_true, !andb_true_iff, !negb_true_iff, !truthy_true. tauto.
Qed.

Lemma visit_links_run (campaign_links : gset string) (account_id : string) (st : state) :
  _visit_campaign_links w campaign_links account_id st
  = (tt, add_events st (DriverGet account_id <$> elements campaign_links)).
Proof.
  unfold _visit_campaign_links. rewrite bind_run.
  assert (Hgen : forall (l : list string) (n : nat) (s : state),
    for_each l
      (fun (success_count : nat) link =>
         _ ← emit (DriverGet account_id link);
         match visit_link w account_id link with
         | Some true => mret (S success_count)
         | Some false => mret success_count
         | None => mret success_count
         end) n s
    = ((n + length (filter (fun link => visit_link w account_id link = Some true) l))%nat,
       add_events s (DriverGet account_id <$> l))).
  { induction l as [|x l IH]; intros n s; simpl.
    - rewrite ret_run, add_events_nil. f_equal. simpl. lia.
    - rewrite bind_run, bind_run. simpl.
      destruct (visit_link w account_id x) as [[|]|] eqn:Hv; rewrite ret_run; simpl;
        rewrite IH; fold (add_events s [DriverGet account_id x]);
        rewrite add_events_app; simpl.
      + rewrite filter_cons_True by done. simpl. f_equal. lia.
      + rewrite filter_cons_False by (rewrite Hv; congruence). done.
      + rewrite filter_cons_False by (rewrite Hv; congruence). done. }
  by rewrite Hgen.
Qed.

Lemma visit_account_run (campaign_links : gset string) (account : string * string)
      (st : state) :
  account ∈ _get_naver_accounts cfg ->
  visit_account w campaign_links tt account st
  = (tt, add_events st (account_events w campaign_links account)).
Proof.
  intros Hacc. apply elem_of_get_naver_accounts in Hacc as [_ [Hid [Hpw _]]].
  destruct account as [account_id password]. simpl in *.
  apply truthy_true in Hid, Hpw.
  unfold visit_account, account_events. rewrite Hid, Hpw. simpl.
  rewrite bind_run. simpl. fold (add_events st [DriverStart account_id]).
  destruct (firefox_driver w account_id); [| by rewrite ret_run | by rewrite ret_run].
  rewrite bool_decide_eq_true_2 by done.
  rewrite bind_run. simpl.
  fold (add_events (add_events st [DriverStart account_id]) [DriverLogin account_id]).
  rewrite bind_run.
  destruct (login_ok w account_id password).
  - rewrite visit_links_run. simpl.
    unfold emit, add_events. simpl. rewrite <- !(assoc_L (++)). reflexivity.
  - rewrite ret_run. simpl. unfold emit, add_events. simpl.
    rewrite <- !(assoc_L (++)). reflexivity.
Qed.

Lemma visit_accounts_loop (campaign_links : gset string)
      (accounts : list (string * string)) (st : state) :
  (forall a, a ∈ accounts -> a ∈ _get_naver_accounts cfg) ->
  for_each accounts (visit_account w campaign_links) tt st
  = (tt, add_events st (flat_map (account_events w campaign_links) accounts)).
Proof.
  revert st. induction accounts as [|a accounts IH]; intros st Hall; simpl.
  - by rewrite ret_run, add_events_nil.
  - rewrite bind_run, visit_account_run by (apply Hall; set_solver). simpl.
    rewrite IH by (intros b Hb; apply Hall; set_solver).
    by rewrite add_events_app.
Qed.

(** The run of [get_coin] *)
Lemma get_coin_run (campaign_links : gset string) (st : state) :
  get_coin cfg w campaign_links st
  = (tt, add_events st
           (if bool_decide (campaign_links = ∅) then []
            else flat_map (account_events w campaign_links) (_get_naver_accounts cfg))).
Proof.
  unfold get_coin. case_bool_decide; [by rewrite ret_run, add_events_nil |].
  destruct (_get_naver_accounts cfg) as [|a l] eqn:Hacc;
    [by rewrite ret_run, add_events_nil |].
  rewrite <- Hacc. by apply visit_accounts_loop.
Qed.

End OrchestratorFacts.

Lemma filter_flat_map {A : Type} (P : event -> Prop) `{forall e, Decision (P e)}
      (f : A -> list event) (l : list A) :
  filter P (flat_map f l) = flat_map (fun a => filter P (f a)) l.
Proof.
  induction l as [|a l IH]; simpl; [done |]. by rewrite filter_app, IH.
Qed.

Lemma filter_gets_nil (P : event -> Prop) `{forall e, Decision (P e)}
      (account_id : string) (l : list string) :
  (forall link, ~ P (DriverGet account_id link)) ->
  filter P (DriverGet account_id <$> l) = [].
Proof.
  intros HP. induction l as [|x l IH]; simpl; [done |].
  by rewrite filter_cons_False by apply HP.
Qed.

Lemma account_events_starts (w : world) (links : gset string) (a : string * string) :
  filter is_driver_start (account_events w links a) = [DriverStart a.1].
Proof.
  unfold account_events. rewrite filter_cons_True by done. f_equal.
  case_bool_decide; [| done].
  rewrite filter_app. simpl. rewrite filter_cons_False by (simpl; tauto).
  rewrite filter_cons_False by (simpl; tauto). rewrite filter_nil, app_nil_r.
  destruct (login_ok w a.1 a.2); [| done].
  apply filter_gets_nil. intros link. simpl. tauto.
Qed.

Lemma account_events_quits (w : world) (links : gset string) (a : string * string) :
  filter is_driver_quit (account_events w links a)
  = if bool_decide (firefox_driver w a.1 = DriverReturned) then [DriverQuit a.1] else [].
Proof.
  unfold account_events. rewrite filter_cons_False by (simpl; tauto).
  case_bool_decide; [| done].
  rewrite filter_app. simpl. rewrite filter_cons_False by (simpl; tauto).
  rewrite filter_cons_True by done. rewrite filter_nil.
  destruct (login_ok w a.1 a.2); [| done].
  rewrite filter_gets_nil; [done |]. intros link. simpl. tauto.
Qed.

(** X7: [get_coin] without work.  With no campaign link, or with no
    account left by [_get_naver_accounts], [get_coin] returns at once:
    Firefox is not started and the state is unchanged. *)
Theorem get_coin_without_work (cfg : config) (w : world) (links : gset string)
        (st : state) :
  links = ∅ \/ _get_naver_accounts cfg = [] ->
  get_coin cfg w links st = (tt, st).
Proof.
  intros Hnone. rewrite get_coin_run.
  destruct Hnone as [-> | Hacc].
  - by rewrite bool_decide_eq_true_2, add_events_nil.
  - rewrite Hacc. simpl. case_bool_decide; by rewrite add_events_nil.
Qed.

(** The theorem with the placeholder account of a fresh configuration *)
Lemma get_coin_without_work_witness :
  get_coin (mkConfig [("your_naver_id_1", "your_password_1")] 48 6 default_sites)
           example_world {[claim_url]} example_state
  = (tt, example_state).
Proof.
  apply (get_coin_without_work
           (mkConfig [("your_naver_id_1", "your_password_1")] 48 6 default_sites)
           example_world {[claim_url]} example_state).
  right. reflexivity.
Defined.

(** X8: who gets a browser.  When there is a campaign link, [get_coin]
    starts Firefox once for each account that [_get_naver_accounts]
    keeps, in the order of the configuration, and for no other: an
    account for which Firefox is started is an entry of the
    configuration with an identifier and a password that are not empty
    and not the placeholders. *)
Theorem get_coin_starts_usable_accounts (cfg : config) (w : world)
        (links : gset string) (st : state) :
  links <> ∅ ->
  exists evs,
    (get_coin cfg w links st).2 = add_events st evs
    /\ filter is_driver_start evs = DriverStart <$> (_get_naver_accounts cfg).*1
    /\ (forall account_id, DriverStart account_id ∈ evs ->
          exists password,
            (account_id, password) ∈ naver_login_info cfg
            /\ account_id <> "" /\ password <> ""
            /\ PyStr.startswith account_id "your_naver_id" = false
            /\ PyStr.startswith password "your_password" = false).
Proof.
  intros Hne. rewrite get_coin_run. rewrite bool_decide_eq_false_2 by done. simpl.
  eexists. split; [reflexivity |].
  assert (Hstarts : filter is_driver_start
                      (flat_map (account_events w links) (_get_naver_accounts cfg))
                    = DriverStart <$> (_get_naver_accounts cfg).*1).
  { rewrite filter_flat_map.
    induction (_get_naver_accounts cfg) as [|a l IH]; [done |].
    cbn [flat_map]. rewrite account_events_starts, IH, !fmap_cons. done. }
  split; [exact Hstarts |].
  intros account_id Hin.
  assert (Hin' : DriverStart account_id
                 ∈ filter is_driver_start
                     (flat_map (account_events w links) (_get_naver_accounts cfg))).
  { apply list_elem_of_filter. by split. }
  rewrite Hstarts in Hin'.
  apply list_elem_of_fmap in Hin' as [id [[= ->] Hid]].
  apply list_elem_of_fmap in Hid as [[id' pw] [-> Ha]].
  apply elem_of_get_naver_accounts in Ha. exists pw. exact Ha.
Qed.

Lemma get_coin_starts_usable_accounts_witness :
  exists evs,
    (get_coin example_config example_world {[claim_url]} example_state).2
    = add_events example_state evs
    /\ filter is_driver_start evs = [DriverStart "id1"].
Proof.
  destruct (get_coin_starts_usable_accounts example_config example_world
              {[claim_url]} example_state) as [evs [Hst [Hstarts _]]].
  - vm_compute. discriminate.
  - exists evs. split; [exact Hst | exact Hstarts].
Defined.

Lemma elem_of_account_events_get (w : world) (links : gset string)
      (a : string * string) (account_id link : string) :
  DriverGet account_id link ∈ account_events w links a <->
  account_id = a.1 /\ link ∈ links
  /\ firefox_driver w a.1 = DriverReturned /\ login_ok w a.1 a.2 = true.
Proof.
  unfold account_events. rewrite elem_of_cons.
  case_bool_decide as Hs.
  - rewrite elem_of_app, elem_of_cons, list_elem_of_singleton.
    destruct (login_ok w a.1 a.2).
    + rewrite list_elem_of_fmap. setoid_rewrite elem_of_elements. split.
      * intros [H | [[H | [l [[= -> ->] Hl]]] | H]]; try discriminate. done.
      * intros [-> [Hl _]]. right. left. right. by exists link.
    + split.
      * intros [H | [[H | H] | H]]; try discriminate. by apply elem_of_nil in H.
      * intros [_ [_ [_ H]]]. discriminate.
  - split.
    + intros [H | H]; [discriminate | by apply elem_of_nil in H].
    + intros [_ [_ [H _]]]. done.
Qed.

(** X9: release and login discipline of [get_coin].  When there is a
    campaign link, [get_coin] quits exactly the drivers that
    [_create_firefox_driver] returned, each once, in the order of the
    accounts.  When [_create_firefox_driver] raises there is no quit for
    the account: a browser that was launched and whose set-up script
    then raised is not quit.  A link is opened under an account exactly
    when the driver was returned and the login succeeded for it: after
    a failed login no link is opened for that account, and after a
    successful one every campaign link is. *)
Theorem get_coin_quits_and_visits (cfg : config) (w : world)
        (links : gset string) (st : state) :
  links <> ∅ ->
  exists evs,
    (get_coin cfg w links st).2 = add_events st evs
    /\ filter is_driver_quit evs
       = DriverQuit <$> filter (fun account_id => firefox_driver w account_id = DriverReturned)
                               (_get_naver_accounts cfg).*1
    /\ (forall account_id,
          firefox_driver w account_id = LaunchRaises
          \/ firefox_driver w account_id = SetupRaises ->
          DriverQuit account_id ∉ evs)
    /\ (forall account_id link,
          DriverGet account_id link ∈ evs <->
          link ∈ links
          /\ exists password,
               (account_id, password) ∈ _get_naver_accounts cfg
               /\ firefox_driver w account_id = DriverReturned
               /\ login_ok w account_id password = true).
Proof.
  intros Hne. rewrite get_coin_run. rewrite bool_decide_eq_false_2 by done. simpl.
  eexists. split; [reflexivity |].
  assert (Hquits : filter is_driver_quit
                     (flat_map (account_events w links) (_get_naver_accounts cfg))
                   = DriverQuit <$> filter (fun account_id =>
                                              firefox_driver w account_id = DriverReturned)
                                           (_get_naver_accounts cfg).*1).
  { rewrite filter_flat_map.
    induction (_get_naver_accounts cfg) as [|a l IH]; [done |].
    cbn [flat_map]. rewrite account_events_quits, IH, fmap_cons.
    case_bool_decide as Hs.
    - rewrite filter_cons_True by done. by rewrite fmap_cons.
    - rewrite filter_cons_False by done. done. }
  split; [exact Hquits |]. split.
  - intros account_id Hraises Hin.
    assert (Hin' : DriverQuit account_id
                   ∈ filter is_driver_quit
                       (flat_map (account_events w links) (_get_naver_accounts cfg))).
    { apply list_elem_of_filter. by split. }
    rewrite Hquits in Hin'.
    apply list_elem_of_fmap in Hin' as [id [[= ->] Hid]].
    apply list_elem_of_filter in Hid as [Hid _].
    destruct Hraises as [H | H]; congruence.
  - intros account_id link. rewrite list_elem_of_In, in_flat_map. split.
    + intros [a [Ha Hin]]. apply list_elem_of_In in Ha, Hin.
      apply elem_of_account_events_get in Hin as [-> [Hl [Hs Hlog]]].
      split; [done |]. exists a.2. by destruct a.
    + intros [Hl [password [Ha [Hs Hlog]]]]. exists (account_id, password).
      rewrite <- !list_elem_of_In. split; [done |].
      by apply elem_of_account_events_get.
Qed.

(** The theorem on four accounts and two links: the first account logs
    in and opens the links, the login of the second fails, the browser
    of the third is launched and its set-up raises, the browser of the
    fourth does not launch.  The first two browsers are quit, the third
    is not. *)
Lemma get_coin_quits_and_visits_witness :
  exists evs,
    (get_coin four_accounts browser_world {[claim_url; second_claim_url]}
              example_state).2
    = add_events example_state evs
    /\ filter is_driver_quit evs = [DriverQuit "id1"; DriverQuit "id2"]
    /\ (DriverQuit "id3" ∉ evs)
    /\ (DriverGet "id1" claim_url ∈ evs)
    /\ (DriverGet "id1" second_claim_url ∈ evs)
    /\ (DriverGet "id2" claim_url ∉ evs).
Proof.
  destruct (get_coin_quits_and_visits four_accounts browser_world
              {[claim_url; second_claim_url]} example_state)
    as [evs [Hst [Hquit [Hleak Hget]]]].
  - vm_compute. discriminate.
  - exists evs. split; [exact Hst |]. split; [rewrite Hquit; reflexivity |].
    split; [apply Hleak; right; reflexivity |].
    assert (Hid1 : forall link,
              link ∈ ({[claim_url; second_claim_url]} : gset string) ->
              DriverGet "id1" link ∈ evs).
    { intros link Hl. apply Hget. split; [exact Hl |]. exists "pw1".
      split; [| split; reflexivity].
      apply list_elem_of_In. vm_compute. tauto. }
    split; [apply Hid1; apply elem_of_union_l; by apply elem_of_singleton |].
    split; [apply Hid1; apply elem_of_union_r; by apply elem_of_singleton |].
    intros Hin. apply Hget in Hin as [_ [password [_ [_ Hlog]]]].
    vm_compute in Hlog. discriminate.
Defined.

(** X10: [_visit_campaign_links] opens every link.  Each campaign link
    is opened exactly once, whatever the outcome of the visits before
    it: a visit that raises or returns [False] does not end the loop.
    The function returns nothing and changes the state by these visits
    only. *)
Theorem visit_campaign_links_visits_all (w : world) (links : gset string)
        (account_id : string) (st : state) :
  exists evs,
    _visit_campaign_links w links account_id st = (tt, add_events st evs)
    /\ NoDup evs
    /\ length evs = size links
    /\ (forall e, e ∈ evs <-> exists link, link ∈ links /\ e = DriverGet account_id link).
Proof.
  exists (DriverGet account_id <$> elements links).
  split; [apply visit_links_run |]. split; [| split].
  - apply NoDup_fmap_2; [| apply NoDup_elements]. intros x y [=]. done.
  - by rewrite length_fmap.
  - intros e. rewrite list_elem_of_fmap. setoid_rewrite elem_of_elements.
    split; [intros [l [-> Hl]]; by exists l | intros [l [Hl ->]]; by exists l].
Qed.

(* ===================================================================== *)
(** * Further properties: persisted state, gate and exit status *)
(* ===================================================================== *)

Module LinesFacts.
Import PyStr.

Lemma split_no_sep (c : ascii) (s : string) :
  mem c s = false -> split c s = [s].
Proof.
  induction s as [|d s IH]; [done |]. cbn [mem split].
  intros Hm. apply orb_false_iff in Hm as [Hcd Hm]. rewrite Hcd.
  by rewrite IH.
Qed.

Lemma split_app_sep (c : ascii) (a rest : string) :
  mem c a = false -> split c (a ++ String c rest) = a :: split c rest.
Proof.
  induction a as [|d a IH].
  - intros _. rewrite ContainsFacts.app_nil_string. cbn [split].
    by rewrite Ascii.eqb_refl.
  - cbn [mem]. intros Hm. apply orb_false_iff in Hm as [Hcd Hm].
    rewrite ContainsFacts.app_cons_string. cbn [split]. rewrite Hcd.
    by rewrite IH.
Qed.

Lemma lines_text_cons (line : string) (lines : list string) :
  lines_text (line :: lines) = line ++ String "010" (lines_text lines).
Proof. reflexivity. Qed.

Lemma split_lines_text (lines : list string) :
  Forall (fun line => mem "010" line = false) lines ->
  split "010" (lines_text lines) = (lines ++ [""])%list.
Proof.
  induction 1 as [|line lines Hline _ IH]; [done |].
  rewrite lines_text_cons, split_app_sep by done. by rewrite IH.
Qed.

Lemma file_lines_text (lines : list string) :
  Forall (fun line => mem "010" line = false) lines ->
  Forall (fun line => mem "013" line = false) lines ->
  file_lines (lines_text lines) = (lines ++ [""])%list.
Proof.
  intros Hlf Hcr. unfold file_lines. rewrite split_lines_text by done.
  clear Hlf. induction Hcr as [|line lines Hline _ IH]; [done |].
  cbn [app flat_map]. rewrite split_no_sep by done. by rewrite IH.
Qed.

End LinesFacts.

(** The lines of a set of clean URLs are read back as they were written. *)
Lemma load_lines_of_clean_urls (urls : gset string) :
  (forall u, u ∈ urls -> clean_url u) ->
  (list_to_set (filter (fun line => Is_true (PyStr.truthy line))
                       (map PyStr.strip (file_lines (lines_text (sorted_urls urls)))))
   : gset string) = urls.
Proof.
  intros Hclean.
  assert (Hall : Forall clean_url (sorted_urls urls)).
  { apply Forall_forall. intros u Hu. apply Hclean. by apply elem_of_sorted_urls. }
  rewrite LinesFacts.file_lines_text.
  - rewrite map_app. simpl.
    assert (Hlines : forall l, Forall clean_url l ->
              filter (fun line => Is_true (PyStr.truthy line))
                     (map PyStr.strip l ++ [""])%list = l).
    { induction 1 as [|u l [Hne [Hstrip _]] _ IH]; [done |].
      simpl. rewrite Hstrip.
      rewrite filter_cons_True by (apply Is_true_true; by apply truthy_true).
      by rewrite IH. }
    change (PyStr.strip "") with "". rewrite Hlines by done.
    apply set_eq. intros u. rewrite elem_of_list_to_set. apply elem_of_sorted_urls.
  - eapply Forall_impl; [exact Hall |]. intros u Hu. apply Hu.
  - eapply Forall_impl; [exact Hall |]. intros u Hu. apply Hu.
Qed.

(** X11: the visited set survives the file.  When the write and the read
    succeed and every URL of the visited set is clean (ASCII, not empty,
    no white space at either end, no line break inside), loading the
    file that [_save_visited_urls] wrote gives the visited set back. *)
Theorem saved_visited_urls_load_back (w : world) (st : state) :
  visited_write w = WriteOk ->
  visited_readable w = true ->
  (forall u, u ∈ visited_urls st -> clean_url u) ->
  (_load_visited_urls w (_save_visited_urls w st).2).1 = visited_urls st.
Proof.
  intros Hwrite Hread Hclean.
  unfold _save_visited_urls, _load_visited_urls. rewrite Hwrite. simpl.
  rewrite Hread. simpl. by apply load_lines_of_clean_urls.
Qed.

Lemma saved_visited_urls_load_back_witness :
  (_load_visited_urls example_world
     (_save_visited_urls example_world
        (mkState {["https://board.example/p1"; "https://board.example/p2"]}
                 None None [])).2).1
  = visited_urls (mkState {["https://board.example/p1"; "https://board.example/p2"]}
                          None None []).
Proof.
  apply (saved_visited_urls_load_back example_world
           (mkState {["https://board.example/p1"; "https://board.example/p2"]}
                    None None [])).
  - reflexivity.
  - reflexivity.
  - intros u Hu. simpl in Hu.
    apply elem_of_union in Hu as [Hu | Hu]; apply elem_of_singleton in Hu as ->;
      (split; [discriminate | split; [vm_compute; reflexivity | repeat split]]).
Defined.

Lemma gate_pass_clears_marker (cfg : config) (w : world) (st : state) :
  (_check_break_point cfg w st).1 = inr tt ->
  break_point_file (_check_break_point cfg w st).2 = None.
Proof.
  unfold _check_break_point. destruct (break_point_file st) as [[mtime content]|] eqn:Hm.
  - destruct (Qle_bool _ _); [done | discriminate].
  - done.
Qed.

Lemma gate_without_marker (cfg : config) (w : world) (st : state) :
  break_point_file st = None -> _check_break_point cfg w st = (inr tt, st).
Proof. unfold _check_break_point. by intros ->. Qed.

(** A completed run leaves no marker. *)
Lemma completed_run_has_no_marker (py : pylib) (cfg : config) (w : world) (st : state) :
  (main py cfg w st).1 = Completed ->
  lock_acquired w = true
  /\ (_check_break_point cfg w st).1 = inr tt
  /\ break_point_file (main py cfg w st).2 = None.
Proof.
  intros Hdone. destruct (lock_acquired w) eqn:Hlock.
  - rewrite main_run in * by done.
    pose proof (gate_pass_clears_marker cfg w st) as Hclear.
    destruct (_check_break_point cfg w st) as [[code|[]] st0]; [discriminate |].
    simpl in *. split; [done |]. split; [done |].
    match goal with |- context [post_scrap py cfg w ?s] =>
      destruct (post_scrap_marker py cfg w s) as [evs [_ [_ Hmark]]] end.
    rewrite Hmark. simpl. by apply Hclear.
  - unfold main in Hdone. rewrite Hlock in Hdone. discriminate.
Qed.

(** X13: what one run collects is what the next run skips.  After a
    run that passes the lock and the gate, collects at least one post
    and writes the file, a run that follows and can read the file
    passes the gate and starts with the collected posts as its visited
    set, provided these post URLs are clean (ASCII, not empty, no white
    space at either end, no line break inside). *)
Theorem next_run_loads_collected_posts (py : pylib) (cfg : config) (w next : world)
        (st : state) :
  lock_acquired w = true ->
  (_check_break_point cfg w st).1 = inr tt ->
  collected_posts py cfg w <> ∅ ->
  visited_write w = WriteOk ->
  visited_readable next = true ->
  (forall u, u ∈ collected_posts py cfg w -> clean_url u) ->
  (_check_break_point cfg next (main py cfg w st).2).1 = inr tt
  /\ visited_urls (init cfg next (main py cfg w st).2).2 = collected_posts py cfg w.
Proof.
  intros Hlock Hgate Hne Hwrite Hread Hclean.
  pose proof (main_completes py cfg w st Hlock Hgate) as Hdone.
  apply completed_run_has_no_marker in Hdone as [_ [_ Hmarker]].
  assert (Hfile : visited_urls_file (main py cfg w st).2
                  = Some (lines_text (sorted_urls (collected_posts py cfg w)))).
  { rewrite main_run by done.
    destruct (_check_break_point cfg w st) as [[code|[]] st0]; [discriminate |].
    destruct (post_scrap_with_posts py cfg w
                (mkState (_load_visited_urls w st0).1 (visited_urls_file st0)
                         (break_point_file st0) (trace st0)) Hne) as [evs [_ E]].
    rewrite E. simpl. unfold saved_file. by rewrite Hwrite. }
  assert (Hnext : (_check_break_point cfg next (main py cfg w st).2).1 = inr tt)
    by (by rewrite gate_without_marker).
  split; [exact Hnext |].
  rewrite init_loads_visited by done.
  unfold _load_visited_urls. rewrite Hfile, Hread. simpl.
  by apply load_lines_of_clean_urls.
Qed.

Lemma next_run_loads_collected_posts_witness :
  visited_urls
    (init example_config example_world
          (main anchor_lib example_config example_world example_state).2).2
  = collected_posts anchor_lib example_config example_world.
Proof.
  apply (next_run_loads_collected_posts anchor_lib example_config example_world
           example_world example_state).
  - reflexivity.
  - reflexivity.
  - vm_compute. discriminate.
  - reflexivity.
  - reflexivity.
  - assert (Heq : collected_posts anchor_lib example_config example_world
                  = {["https://board.example/p1"; "https://board.example/p2"]})
      by (vm_compute; reflexivity).
    rewrite Heq. intros u Hu.
    apply elem_of_union in Hu as [Hu | Hu]; apply elem_of_singleton in Hu as ->;
      (split; [discriminate | split; [vm_compute; reflexivity | repeat split]]).
Defined.

(** X15: once a run has completed, the gate stays open.  A completed
    run leaves no marker, and as no step of a run writes one, every run
    that follows and acquires the lock completes too. *)
Theorem gate_stays_open_after_completed_run (py : pylib) (cfg : config)
        (w next : world) (st : state) :
  (main py cfg w st).1 = Completed ->
  lock_acquired next = true ->
  break_point_file (main py cfg w st).2 = None
  /\ (main py cfg next (main py cfg w st).2).1 = Completed
  /\ break_point_file (main py cfg next (main py cfg w st).2).2 = None.
Proof.
  intros Hdone Hlock.
  apply completed_run_has_no_marker in Hdone as [_ [_ Hmarker]].
  assert (Hnext : (main py cfg next (main py cfg w st).2).1 = Completed).
  { apply main_completes; [done |]. by rewrite gate_without_marker. }
  split; [done |]. split; [done |].
  by apply completed_run_has_no_marker in Hnext as [_ [_ H]].
Qed.

Lemma gate_stays_open_after_completed_run_witness :
  (main anchor_lib example_config offline_world
        (main anchor_lib example_config example_world example_state).2).1 = Completed.
Proof.
  apply (gate_stays_open_after_completed_run anchor_lib example_config
           example_world offline_world example_state); reflexivity.
Defined.

(** X16: the gate opens with time and never closes again by waiting.
    For a given marker, when the gate check passes at some time with
    some cooldown, it passes at every later time and with every shorter
    cooldown. *)
Theorem gate_monotone (cfg shorter : config) (w later : world) (st : state) :
  (time_now w <= time_now later)%Q ->
  (DELAY_HOURS shorter <= DELAY_HOURS cfg)%Z ->
  (_check_break_point cfg w st).1 = inr tt ->
  (_check_break_point shorter later st).1 = inr tt.
Proof.
  intros Htime Hdelay. unfold _check_break_point.
  destruct (break_point_file st) as [[st_mtime content]|]; [| done].
  destruct (Qle_bool (delay_seconds cfg) (time_now w - st_mtime)) eqn:Hle;
    [| discriminate].
  intros _. apply Qle_bool_iff in Hle.
  assert (Hle' : (delay_seconds shorter <= time_now later - st_mtime)%Q).
  { assert (Hd : (delay_seconds shorter <= delay_seconds cfg)%Q).
    { unfold delay_seconds. rewrite <- Zle_Qle. lia. }
    lra. }
  apply Qle_bool_iff in Hle'. by rewrite Hle'.
Qed.

Lemma gate_monotone_witness :
  (_check_break_point example_config
     (mkWorld true 2000000 (fun _ => None) (fun _ _ _ => None) true WriteOk
              (fun _ => LaunchRaises) (fun _ _ => true) (fun _ _ => Some true))
     (mkState ∅ None (Some (0%Q, "marker")) [])).1 = inr tt.
Proof.
  apply (gate_monotone example_config example_config example_world
           (mkWorld true 2000000 (fun _ => None) (fun _ _ _ => None) true WriteOk
                    (fun _ => LaunchRaises) (fun _ _ => true) (fun _ _ => Some true))
           (mkState ∅ None (Some (0%Q, "marker")) [])).
  - vm_compute. discriminate.
  - reflexivity.
  - reflexivity.
Defined.

(* ===================================================================== *)
(** * Further properties: scrolling and the visit of one page *)
(* ===================================================================== *)

Section ScrollFacts.
Variable scrollable_height : Z.

Lemma driver_do_on_page (a : driver_action) (pause : Q) (r : scroll_run) :
  on_page scrollable_height r ->
  (forall top, a = ScrollTo top -> (0 <= top <= scrollable_height)%Z) ->
  on_page scrollable_height (driver_do a pause r).
Proof.
  intros [Hpos Hall] Ha. unfold driver_do.
  destruct (raised r); [done |].
  destruct (calls_left r) as [[|n]|]; simpl; split; try done;
    intros top Hin; apply elem_of_app in Hin as [Hin | Hin]; try (by apply Hall);
    apply list_elem_of_singleton in Hin; by apply Ha.
Qed.

Lemma scroll_down_on_page (r : scroll_run) (draw : Z * Q) :
  (0 <= scrollable_height)%Z -> (0 <= draw.1)%Z ->
  on_page scrollable_height r -> on_page scrollable_height (scroll_down scrollable_height r draw).
Proof.
  intros Hs Hd Hr. unfold scroll_down. destruct (raised r) eqn:Hraised; [done |].
  destruct Hr as [Hpos Hall]. apply driver_do_on_page.
  - split; simpl; [lia | done].
  - intros top [= <-]. lia.
Qed.

Lemma scroll_up_on_page (r : scroll_run) (draw : Z * Q) :
  (0 <= draw.1)%Z -> on_page scrollable_height r -> on_page scrollable_height (scroll_up r draw).
Proof.
  intros Hd Hr. unfold scroll_up. destruct (raised r) eqn:Hraised; [done |].
  destruct Hr as [Hpos Hall]. apply driver_do_on_page.
  - split; simpl; [lia | done].
  - intros top [= <-]. lia.
Qed.

Lemma foldl_on_page {X : Type} (f : scroll_run -> X -> scroll_run) (P : X -> Prop)
      (l : list X) (r : scroll_run) :
  (forall r x, P x -> on_page scrollable_height r -> on_page scrollable_height (f r x)) ->
  Forall P l -> on_page scrollable_height r -> on_page scrollable_height (foldl f r l).
Proof.
  intros Hf Hl. revert r. induction Hl as [|x l Hx _ IH]; intros r Hr; simpl; [done |].
  apply IH. by apply Hf.
Qed.

End ScrollFacts.

(** X17: the scroll stays on the page.  For a page with a scrollable
    height that is not negative and step sizes that are not negative,
    every position [_perform_natural_scrolling] scrolls to lies between
    0 and the scrollable height, whether the routine returns or a driver
    call raises on the way, and so does the position it ends on. *)
Theorem scroll_positions_on_page (scrollable_height : Z) (draws : scroll_draws)
        (body_found : bool) (calls_ok : option nat) :
  (0 <= scrollable_height)%Z ->
  Forall (fun d : Z * Q => (0 <= d.1)%Z) (down_draws draws) ->
  Forall (fun d : Z * Q => (0 <= d.1)%Z) (up_draws draws) ->
  (forall top,
      ScrollTo top ∈ performed (_perform_natural_scrolling scrollable_height draws
                                  body_found calls_ok) ->
      (0 <= top <= scrollable_height)%Z)
  /\ (0 <= position (_perform_natural_scrolling scrollable_height draws
                       body_found calls_ok) <= scrollable_height)%Z.
Proof.
  intros Hs Hdown Hup.
  assert (Hpage : on_page scrollable_height
                    (_perform_natural_scrolling scrollable_height draws body_found calls_ok)).
  { unfold _perform_natural_scrolling.
    assert (H0 : on_page scrollable_height (mkScrollRun 0 [] 0 calls_ok false)).
    { split; simpl; [lia |]. intros top Hin. by apply elem_of_nil in Hin. }
    assert (H1 := foldl_on_page scrollable_height (scroll_down scrollable_height)
                    (fun d : Z * Q => (0 <= d.1)%Z) (down_draws draws) _
                    (fun r x Hx => scroll_down_on_page scrollable_height r x Hs Hx)
                    Hdown H0).
    assert (H2 := foldl_on_page scrollable_height scroll_up
                    (fun d : Z * Q => (0 <= d.1)%Z) (up_draws draws) _
                    (fun r x Hx => scroll_up_on_page scrollable_height r x Hx)
                    Hup H1).
    destruct body_found; [| exact H2].
    assert (H3 := foldl_on_page scrollable_height
                    (fun r pause => driver_do PageDown pause r)
                    (fun _ : Q => True) (page_down_pauses draws) _
                    (fun r x _ Hr => driver_do_on_page scrollable_height PageDown x r Hr
                                       (fun top Heq => ltac:(discriminate)))
                    (Forall_true _ _ (fun _ => I)) H2).
    destruct (page_up_pause draws) as [pause|]; [| exact H3].
    apply driver_do_on_page; [exact H3 |]. intros top Heq. discriminate. }
  destruct Hpage as [Hpos Hall]. split; [exact Hall | exact Hpos].
Qed.

(** The theorem on a page of scrollable height 1000, three steps down
    of which the last two stop at the bottom, one step up, and a driver
    that answers five calls *)
Lemma scroll_positions_on_page_witness :
  (0 <= position (_perform_natural_scrolling 1000
                    (mkScrollDraws [(400%Z, 1%Q); (500%Z, 1%Q); (600%Z, 1%Q)]
                                   [(200%Z, 1%Q)] [(3 # 10)%Q] None)
                    true (Some 5%nat)) <= 1000)%Z.
Proof.
  apply (scroll_positions_on_page 1000
           (mkScrollDraws [(400%Z, 1%Q); (500%Z, 1%Q); (600%Z, 1%Q)]
                          [(200%Z, 1%Q)] [(3 # 10)%Q] None)
           true (Some 5%nat)).
  - lia.
  - repeat constructor; simpl; lia.
  - repeat constructor; simpl; lia.
Defined.

Module PauseFacts.

Lemma total_pause_bounds (lo hi : Q) (l : list Q) :
  Forall (fun d => (lo <= d)%Q /\ (d <= hi)%Q) l ->
  (inject_Z (Z.of_nat (length l)) * lo <= total_pause l)%Q
  /\ (total_pause l <= inject_Z (Z.of_nat (length l)) * hi)%Q.
Proof.
  induction 1 as [|d l [Hlo Hhi] _ [IHlo IHhi]].
  - cbn [length total_pause foldr]. change (inject_Z (Z.of_nat 0)) with 0%Q.
    split; lra.
  - cbn [length total_pause foldr]. fold (total_pause l).
    rewrite Nat2Z.inj_succ, <- Z.add_1_r, inject_Z_plus.
    change (inject_Z 1) with 1%Q.
    set (n := inject_Z (Z.of_nat (length l))) in *.
    assert (E1 : ((n + 1) * lo == n * lo + lo)%Q) by ring.
    assert (E2 : ((n + 1) * hi == n * hi + hi)%Q) by ring.
    rewrite E1, E2. clear E1 E2.
    set (a := (n * lo)%Q) in *. set (b := (n * hi)%Q) in *.
    split; lra.
Qed.

Lemma count_bounds (n lo hi : nat) :
  (lo <= n <= hi)%nat ->
  (inject_Z (Z.of_nat lo) <= inject_Z (Z.of_nat n))%Q
  /\ (inject_Z (Z.of_nat n) <= inject_Z (Z.of_nat hi))%Q.
Proof. intros [H1 H2]. rewrite <- !Zle_Qle. lia. Qed.

Lemma driver_do_slept (a : driver_action) (pause : Q) (r : scroll_run) :
  (0 <= pause)%Q ->
  (slept r <= slept (driver_do a pause r))%Q
  /\ (slept (driver_do a pause r) <= slept r + pause)%Q.
Proof.
  intros Hp. unfold driver_do. destruct (raised r); [split; lra |].
  destruct (calls_left r) as [[|n]|]; simpl; split; lra.
Qed.

Lemma driver_do_exact (a : driver_action) (pause : Q) (r : scroll_run) :
  calls_left r = None -> raised r = false ->
  (slept (driver_do a pause r) == slept r + pause)%Q
  /\ calls_left (driver_do a pause r) = None
  /\ raised (driver_do a pause r) = false.
Proof.
  intros Hc Hr. unfold driver_do. rewrite Hr, Hc. simpl. split; [lra | done].
Qed.

Lemma scroll_down_slept (h : Z) (r : scroll_run) (draw : Z * Q) :
  (0 <= draw.2)%Q ->
  (slept r <= slept (scroll_down h r draw))%Q
  /\ (slept (scroll_down h r draw) <= slept r + draw.2)%Q.
Proof.
  intros Hp. unfold scroll_down. destruct (raised r); [split; lra |].
  by apply (driver_do_slept _ _ (set_position _ r)).
Qed.

Lemma scroll_down_exact (h : Z) (r : scroll_run) (draw : Z * Q) :
  calls_left r = None -> raised r = false ->
  (slept (scroll_down h r draw) == slept r + draw.2)%Q
  /\ calls_left (scroll_down h r draw) = None
  /\ raised (scroll_down h r draw) = false.
Proof.
  intros Hc Hr. unfold scroll_down. rewrite Hr.
  by apply (driver_do_exact _ _ (set_position _ r)).
Qed.

Lemma scroll_up_slept (r : scroll_run) (draw : Z * Q) :
  (0 <= draw.2)%Q ->
  (slept r <= slept (scroll_up r draw))%Q
  /\ (slept (scroll_up r draw) <= slept r + draw.2)%Q.
Proof.
  intros Hp. unfold scroll_up. destruct (raised r); [split; lra |].
  by apply (driver_do_slept _ _ (set_position _ r)).
Qed.

Lemma scroll_up_exact (r : scroll_run) (draw : Z * Q) :
  calls_left r = None -> raised r = false ->
  (slept (scroll_up r draw) == slept r + draw.2)%Q
  /\ calls_left (scroll_up r draw) = None
  /\ raised (scroll_up r draw) = false.
Proof.
  intros Hc Hr. unfold scroll_up. rewrite Hr.
  by apply (driver_do_exact _ _ (set_position _ r)).
Qed.

Lemma foldl_slept {X : Type} (f : scroll_run -> X -> scroll_run) (pause : X -> Q)
      (l : list X) (r : scroll_run) :
  (forall r x, (0 <= pause x)%Q ->
               (slept r <= slept (f r x))%Q /\ (slept (f r x) <= slept r + pause x)%Q) ->
  Forall (fun x => (0 <= pause x)%Q) l ->
  (slept r <= slept (foldl f r l))%Q
  /\ (slept (foldl f r l) <= slept r + total_pause (pause <$> l))%Q.
Proof.
  intros Hf Hl. revert r. induction Hl as [|x l Hx _ IH]; intros r.
  - simpl. split; lra.
  - cbn [foldl fmap list_fmap total_pause foldr]. fold (total_pause (pause <$> l)).
    destruct (Hf r x Hx) as [H1 H2]. destruct (IH (f r x)) as [H3 H4].
    split; lra.
Qed.

Lemma foldl_exact {X : Type} (f : scroll_run -> X -> scroll_run) (pause : X -> Q)
      (l : list X) (r : scroll_run) :
  (forall r x, calls_left r = None -> raised r = false ->
               (slept (f r x) == slept r + pause x)%Q
               /\ calls_left (f r x) = None /\ raised (f r x) = false) ->
  calls_left r = None -> raised r = false ->
  (slept (foldl f r l) == slept r + total_pause (pause <$> l))%Q
  /\ calls_left (foldl f r l) = None /\ raised (foldl f r l) = false.
Proof.
  intros Hf. revert r. induction l as [|x l IH]; intros r Hc Hr.
  - simpl. split; [lra | done].
  - cbn [foldl fmap list_fmap total_pause foldr]. fold (total_pause (pause <$> l)).
    destruct (Hf r x Hc Hr) as [H1 [H2 H3]].
    destruct (IH (f r x) H2 H3) as [H4 H5].
    split; [lra | done].
Qed.

End PauseFacts.

(** The pauses of the three loops, within the ranges of the draws *)
Lemma pauses_in_range (draws : scroll_draws) :
  draws_in_range draws ->
  ((24 # 10 <= total_pause ((fun d : Z * Q => d.2) <$> down_draws draws))%Q
   /\ (total_pause ((fun d : Z * Q => d.2) <$> down_draws draws) <= 96 # 10)%Q)
  /\ ((6 # 10 <= total_pause ((fun d : Z * Q => d.2) <$> up_draws draws))%Q
      /\ (total_pause ((fun d : Z * Q => d.2) <$> up_draws draws) <= 36 # 10)%Q)
  /\ ((2 # 10 <= total_pause ((fun d : Q => d) <$> page_down_pauses draws))%Q
      /\ (total_pause ((fun d : Q => d) <$> page_down_pauses draws) <= 12 # 10)%Q).
Proof.
  intros [Hdc Hdr Huc Hur Hpc Hpr _].
  assert (Hd : Forall (fun d => (8 # 10 <= d)%Q /\ (d <= 16 # 10)%Q)
                      ((fun d : Z * Q => d.2) <$> down_draws draws)).
  { apply Forall_fmap. eapply Forall_impl; [exact Hdr |]. intros d Hx. unfold compose. simpl in *. tauto. }
  assert (Hu : Forall (fun d => (6 # 10 <= d)%Q /\ (d <= 12 # 10)%Q)
                      ((fun d : Z * Q => d.2) <$> up_draws draws)).
  { apply Forall_fmap. eapply Forall_impl; [exact Hur |]. intros d Hx. unfold compose. simpl in *. tauto. }
  assert (Hp : Forall (fun d => (2 # 10 <= d)%Q /\ (d <= 4 # 10)%Q)
                      ((fun d : Q => d) <$> page_down_pauses draws)).
  { apply Forall_fmap. eapply Forall_impl; [exact Hpr |]. intros d Hx. unfold compose. simpl in *. tauto. }
  apply PauseFacts.total_pause_bounds in Hd, Hu, Hp.
  rewrite length_fmap in Hd. rewrite length_fmap in Hu. rewrite length_fmap in Hp.
  apply PauseFacts.count_bounds in Hdc, Huc, Hpc.
  change (inject_Z (Z.of_nat 3)) with 3%Q in Hdc.
  change (inject_Z (Z.of_nat 6)) with 6%Q in Hdc.
  change (inject_Z (Z.of_nat 1)) with 1%Q in Huc, Hpc.
  change (inject_Z (Z.of_nat 3)) with 3%Q in Huc, Hpc.
  set (n1 := inject_Z (Z.of_nat (length (down_draws draws)))) in *.
  set (n2 := inject_Z (Z.of_nat (length (up_draws draws)))) in *.
  set (n3 := inject_Z (Z.of_nat (length (page_down_pauses draws)))) in *.
  repeat split; lra.
Qed.

(** X18: the pauses of the scroll are bounded.  With draws in their
    ranges, the time [_perform_natural_scrolling] sleeps is between 0 and
    14.8 seconds, also when a driver call raises on the way.  When no
    driver call raises the routine returns after sleeping at least 3
    seconds, and at least 3.2 seconds when the body element is found. *)
Theorem scroll_pauses_bounded (scrollable_height : Z) (draws : scroll_draws)
        (body_found : bool) (calls_ok : option nat) :
  draws_in_range draws ->
  (0 <= slept (_perform_natural_scrolling scrollable_height draws body_found calls_ok))%Q
  /\ (slept (_perform_natural_scrolling scrollable_height draws body_found calls_ok)
      <= 148 # 10)%Q
  /\ (calls_ok = None ->
      raised (_perform_natural_scrolling scrollable_height draws body_found calls_ok)
      = false
      /\ (3 <= slept (_perform_natural_scrolling scrollable_height draws body_found
                        calls_ok))%Q
      /\ (body_found = true ->
          (32 # 10 <= slept (_perform_natural_scrolling scrollable_height draws
                               body_found calls_ok))%Q)).
Proof.
  intros Hrange.
  destruct (pauses_in_range draws Hrange) as [[Hd1 Hd2] [[Hu1 Hu2] [Hp1 Hp2]]].
  destruct Hrange as [_ Hdr _ Hur _ Hpr Hpu].
  assert (Hdpos : Forall (fun d : Z * Q => (0 <= d.2)%Q) (down_draws draws)).
  { eapply Forall_impl; [exact Hdr |]. intros d Hx. simpl in *. lra. }
  assert (Hupos : Forall (fun d : Z * Q => (0 <= d.2)%Q) (up_draws draws)).
  { eapply Forall_impl; [exact Hur |]. intros d Hx. simpl in *. lra. }
  assert (Hppos : Forall (fun d : Q => (0 <= d)%Q) (page_down_pauses draws)).
  { eapply Forall_impl; [exact Hpr |]. intros d Hx. simpl in *. lra. }
  unfold _perform_natural_scrolling.
  set (r0 := mkScrollRun 0 [] 0 calls_ok false).
  set (r1 := foldl (scroll_down scrollable_height) r0 (down_draws draws)).
  set (r2 := foldl scroll_up r1 (up_draws draws)).
  set (r3 := foldl (fun r pause => driver_do PageDown pause r) r2 (page_down_pauses draws)).
  pose proof (PauseFacts.foldl_slept (scroll_down scrollable_height)
                (fun d : Z * Q => d.2) (down_draws draws) r0
                (PauseFacts.scroll_down_slept scrollable_height) Hdpos) as [A1 A2].
  pose proof (PauseFacts.foldl_slept scroll_up (fun d : Z * Q => d.2) (up_draws draws) r1
                PauseFacts.scroll_up_slept Hupos) as [B1 B2].
  pose proof (PauseFacts.foldl_slept (fun r pause => driver_do PageDown pause r)
                (fun d : Q => d) (page_down_pauses draws) r2
                (fun r x Hx => PauseFacts.driver_do_slept PageDown x r Hx) Hppos)
    as [C1 C2].
  fold r1 in A1, A2. fold r2 in B1, B2. fold r3 in C1, C2.
  change (slept r0) with 0%Q in A1, A2.
  split; [| split].
  - destruct body_found; [| lra].
    destruct (page_up_pause draws) as [pause|] eqn:Hpause; [| lra].
    destruct (Hpu pause eq_refl) as [Hq1 Hq2].
    pose proof (PauseFacts.driver_do_slept PageUp pause r3) as [D1 D2]; [lra |]. lra.
  - destruct body_found; [| lra].
    destruct (page_up_pause draws) as [pause|] eqn:Hpause; [| lra].
    destruct (Hpu pause eq_refl) as [Hq1 Hq2].
    pose proof (PauseFacts.driver_do_slept PageUp pause r3) as [D1 D2]; [lra |]. lra.
  - intros ->.
    pose proof (PauseFacts.foldl_exact (scroll_down scrollable_height)
                  (fun d : Z * Q => d.2) (down_draws draws) r0
                  (PauseFacts.scroll_down_exact scrollable_height) eq_refl eq_refl)
      as [E1 [E1c E1r]].
    fold r1 in E1, E1c, E1r. change (slept r0) with 0%Q in E1.
    pose proof (PauseFacts.foldl_exact scroll_up (fun d : Z * Q => d.2) (up_draws draws) r1
                  PauseFacts.scroll_up_exact E1c E1r) as [E2 [E2c E2r]].
    fold r2 in E2, E2c, E2r.
    pose proof (PauseFacts.foldl_exact (fun r pause => driver_do PageDown pause r)
                  (fun d : Q => d) (page_down_pauses draws) r2
                  (fun r x Hc Hr => PauseFacts.driver_do_exact PageDown x r Hc Hr)
                  E2c E2r) as [E3 [E3c E3r]].
    fold r3 in E3, E3c, E3r.
    destruct body_found.
    + destruct (page_up_pause draws) as [pause|] eqn:Hpause.
      * destruct (Hpu pause eq_refl) as [Hq1 Hq2].
        pose proof (PauseFacts.driver_do_exact PageUp pause r3 E3c E3r) as [E4 [_ E4r]].
        split; [exact E4r |]. split; [lra |]. intros _. lra.
      * split; [exact E3r |]. split; [lra |]. intros _. lra.
    + split; [exact E2r |]. split; [lra |]. discriminate.
Qed.

(** The theorem on draws at the low end of their ranges *)
Lemma scroll_pauses_bounded_witness :
  (slept (_perform_natural_scrolling 1000
            (mkScrollDraws [(400%Z, 8 # 10); (500%Z, 8 # 10); (600%Z, 8 # 10)]
                           [(200%Z, 6 # 10)] [2 # 10] None)
            true None) <= 148 # 10)%Q.
Proof.
  destruct (scroll_pauses_bounded 1000
              (mkScrollDraws [(400%Z, 8 # 10); (500%Z, 8 # 10); (600%Z, 8 # 10)]
                             [(200%Z, 6 # 10)] [2 # 10] None)
              true None) as [_ [Hmax _]]; [| exact Hmax].
  constructor; simpl.
  - lia.
  - repeat constructor; simpl; try lia; try (vm_compute; discriminate).
  - lia.
  - repeat constructor; simpl; try lia; try (vm_compute; discriminate).
  - lia.
  - repeat constructor; simpl; try (vm_compute; discriminate).
  - intros d Hd. discriminate.
Defined.

(** The floor of the dwell, for the visit of a page *)
Lemma dwell_floor_holds (cfg : config) (p : page) (min_seconds : option Z) :
  well_timed p ->
  (t_start p + dwell_floor cfg min_seconds
   <= t_return (dwell_and_scroll cfg p min_seconds))%Q.
Proof.
  intros [Hready Hmeasure Hscroll [Hjlo Hjhi] Hover].
  unfold dwell_and_scroll, dwell_floor.
  destruct min_seconds as [m|]; simpl default;
    set (floor := inject_Z _);
    destruct (scroll_decision p) as [[|]|]; simpl;
    match goal with |- context [Qle_bool ?r 0] =>
      destruct (Qle_bool r 0) eqn:Hrem;
      [apply Qle_bool_iff in Hrem
      | assert (Hpos : ~ (r <= 0)%Q) by (rewrite <- Qle_bool_iff; congruence);
        apply Qnot_le_lt in Hpos]
    end; simpl; lra.
Qed.

Section SelectorFacts.
Variable outcome : string -> selector_outcome.

Lemma try_selectors_success (sels : list string) (success : bool) :
  (try_selectors outcome sels success).1 = true <->
  success = true \/ exists selector, selector ∈ sels /\ outcome selector <> NoButton.
Proof.
  revert success. induction sels as [|s sels IH]; intros success; simpl.
  - split; [tauto | intros [H | [x [H _]]]; [done | by apply elem_of_nil in H]].
  - destruct (outcome s) eqn:Hs.
    + specialize (IH success). destruct (try_selectors outcome sels success) as [b t].
      simpl in *. rewrite IH. split.
      * intros [H | [x [Hx Hn]]]; [tauto |]. right. exists x. split; [set_solver | done].
      * intros [H | [x [Hx Hn]]]; [tauto |].
        apply elem_of_cons in Hx as [-> | Hx]; [congruence |]. right. by exists x.
    + simpl. split; [| done]. intros _. right. exists s.
      split; [set_solver | congruence].
    + specialize (IH true). destruct (try_selectors outcome sels true) as [b t].
      simpl in *. rewrite IH. split.
      * intros _. right. exists s. split; [set_solver | congruence].
      * intros _. by left.
Qed.

Lemma try_selectors_prefix (sels : list string) (success : bool) :
  exists rest,
    sels = ((try_selectors outcome sels success).2 ++ rest)%list
    /\ (rest <> [] ->
        exists init last,
          (try_selectors outcome sels success).2 = (init ++ [last])%list
          /\ outcome last = Clicked).
Proof.
  revert success. induction sels as [|s sels IH]; intros success; simpl.
  - exists []. split; [done | congruence].
  - destruct (outcome s) eqn:Hs.
    + destruct (IH success) as [rest [Heq Hlast]].
      destruct (try_selectors outcome sels success) as [b t]. simpl in *.
      exists rest. split; [congruence |]. intros Hne.
      destruct (Hlast Hne) as [init [last [-> Hc]]]. by exists (s :: init), last.
    + simpl. exists sels. split; [done |]. intros _. by exists [], s.
    + destruct (IH true) as [rest [Heq Hlast]].
      destruct (try_selectors outcome sels true) as [b t]. simpl in *.
      exists rest. split; [congruence |]. intros Hne.
      destruct (Hlast Hne) as [init [last [-> Hc]]]. by exists (s :: init), last.
Qed.

Lemma try_selectors_clicked_last (sels : list string) (success : bool)
      (i : nat) (selector : string) :
  (try_selectors outcome sels success).2 !! i = Some selector ->
  outcome selector = Clicked ->
  S i = length (try_selectors outcome sels success).2.
Proof.
  revert success i. induction sels as [|s sels IH]; intros success i; simpl.
  - intros H. by rewrite lookup_nil in H.
  - destruct (outcome s) eqn:Hs.
    + specialize (IH success). destruct (try_selectors outcome sels success) as [b t].
      simpl in *. destruct i as [|i]; simpl.
      * intros [= <-] Hc. congruence.
      * intros Hi Hc. f_equal. by apply IH.
    + simpl. destruct i as [|i]; simpl; [done |]. intros H. by rewrite lookup_nil in H.
    + specialize (IH true). destruct (try_selectors outcome sels true) as [b t].
      simpl in *. destruct i as [|i]; simpl.
      * intros [= <-] Hc. congruence.
      * intros Hi Hc. f_equal. by apply IH.
Qed.

End SelectorFacts.

Lemma click_point_and_dwell_fields (cfg : config) (outcome : string -> selector_outcome)
      (p : page) (dwell_seconds : option Z) :
  click_point_and_dwell cfg outcome p dwell_seconds
  = mkPageVisit (try_selectors outcome selectors false).1
                (try_selectors outcome selectors false).2
                (Some (dwell_and_scroll cfg p
                         (Some (default (MIN_DWELL_TIME cfg) dwell_seconds)))).
Proof.
  unfold click_point_and_dwell.
  destruct (try_selectors outcome selectors false) as [b t].
  by destruct dwell_seconds.
Qed.

(** X19: the first button that is clicked wins.  [click_point_and_dwell]
    returns [True] exactly when one of its selectors finds a button that
    is clicked.  It tries the selectors in order and stops after the
    first click that completes: no selector after it is tried, and a
    completed click is always the last selector tried.  Whether or not a
    button was found, it then dwells on the page, for at least the
    minimum dwell time. *)
Theorem click_point_first_match_wins (cfg : config)
        (outcome : string -> selector_outcome) (p : page) (dwell_seconds : option Z) :
  (visit_success (click_point_and_dwell cfg outcome p dwell_seconds) = true <->
   exists selector, selector ∈ selectors /\ outcome selector <> NoButton)
  /\ (exists rest,
        selectors
        = (tried_selectors (click_point_and_dwell cfg outcome p dwell_seconds) ++ rest)%list
        /\ (rest <> [] ->
            exists init last,
              tried_selectors (click_point_and_dwell cfg outcome p dwell_seconds)
              = (init ++ [last])%list
              /\ outcome last = Clicked))
  /\ (forall i selector,
        tried_selectors (click_point_and_dwell cfg outcome p dwell_seconds) !! i
        = Some selector ->
        outcome selector = Clicked ->
        S i = length (tried_selectors (click_point_and_dwell cfg outcome p dwell_seconds)))
  /\ visit_dwell (click_point_and_dwell cfg outcome p dwell_seconds)
     = Some (dwell_and_scroll cfg p (Some (default (MIN_DWELL_TIME cfg) dwell_seconds)))
  /\ (well_timed p ->
      (t_start p + inject_Z (default (MIN_DWELL_TIME cfg) dwell_seconds)
       <= t_return (dwell_and_scroll cfg p
                      (Some (default (MIN_DWELL_TIME cfg) dwell_seconds))))%Q).
Proof.
  rewrite click_point_and_dwell_fields. cbn [visit_success tried_selectors visit_dwell].
  split; [| split; [| split; [| split]]].
  - rewrite try_selectors_success. split; [intros [H | H]; [discriminate | done] | tauto].
  - apply try_selectors_prefix.
  - apply try_selectors_clicked_last.
  - reflexivity.
  - intros Hp.
    apply (dwell_floor_holds cfg p (Some (default (MIN_DWELL_TIME cfg) dwell_seconds)) Hp).
Qed.

(** X20: the result of [_process_campaign_site].  The result is [False]
    exactly when the current URL cannot be read or parsed, or when the
    page is a click-point page on which no button is clicked; every
    other page counts as a success.  Buttons are looked for on
    click-point pages only, and every page whose URL parses is dwelt on,
    for at least the configured minimum. *)
Theorem process_campaign_site_result (py : pylib) (cfg : config)
        (current_url : option string) (outcome : string -> selector_outcome) (p : page) :
  (visit_success (_process_campaign_site py cfg current_url outcome p) = false <->
   current_url = None
   \/ (exists url, current_url = Some url /\ urlparse py url = None)
   \/ (exists url parsed,
         current_url = Some url /\ urlparse py url = Some parsed
         /\ is_click_point parsed = true
         /\ forall selector, selector ∈ selectors -> outcome selector = NoButton))
  /\ (tried_selectors (_process_campaign_site py cfg current_url outcome p) <> [] ->
      exists url parsed,
        current_url = Some url /\ urlparse py url = Some parsed
        /\ is_click_point parsed = true)
  /\ (forall url parsed,
        current_url = Some url -> urlparse py url = Some parsed ->
        exists d,
          visit_dwell (_process_campaign_site py cfg current_url outcome p) = Some d
          /\ (well_timed p ->
              (t_start p + inject_Z (MIN_DWELL_TIME cfg) <= t_return d)%Q)).
Proof.
  unfold _process_campaign_site.
  destruct current_url as [url|]; [| simpl].
  2:{ split; [split; [intros _; by left | done] |].
      split; [done |]. intros u q Hu. discriminate. }
  destruct (urlparse py url) as [parsed|] eqn:Hparse; [| simpl].
  2:{ split; [split; [intros _; right; left; by exists url | done] |].
      split; [done |]. intros u q Hu Hq. injection Hu as <-. congruence. }
  destruct (is_click_point parsed) eqn:Hcp.
  - rewrite click_point_and_dwell_fields.
    cbn [visit_success tried_selectors visit_dwell]. split; [| split].
    + split.
      * intros Hfalse. right. right. exists url, parsed. repeat split; try done.
        intros selector Hin. destruct (outcome selector) eqn:Ho; [done | |];
          exfalso; apply not_true_iff_false in Hfalse; apply Hfalse;
          apply try_selectors_success; right; exists selector; split; try done; congruence.
      * intros [H | [[u [[= <-] H]] | [u [q [[= <-] [Hq [_ Hall]]]]]]];
          [discriminate | congruence |].
        apply not_true_iff_false. intros Htrue.
        apply try_selectors_success in Htrue as [H | [selector [Hin Hne]]];
          [discriminate |]. by apply Hne, Hall.
    + intros _. by exists url, parsed.
    + intros u q [= <-] Hq. eexists. split; [reflexivity |]. intros Hp.
      apply (dwell_floor_holds cfg p (Some (MIN_DWELL_TIME cfg)) Hp).
  - assert (Hplain :
      (if is_adison parsed
       then mkPageVisit true [] (Some (dwell_and_scroll cfg p None))
       else mkPageVisit true [] (Some (dwell_and_scroll cfg p None)))
      = mkPageVisit true [] (Some (dwell_and_scroll cfg p None)))
      by (by destruct (is_adison parsed)).
    rewrite Hplain. simpl. split; [| split].
    + split; [discriminate |].
      intros [H | [[u [[= <-] H]] | [u [q [[= <-] [Hq [Hc _]]]]]]];
        [discriminate | congruence | congruence].
    + done.
    + intros u q [= <-] Hq. eexists. split; [reflexivity |]. intros Hp.
      apply (dwell_floor_holds cfg p None Hp).
Qed.

(* ===================================================================== *)
(** * Further properties: what a run touches *)
(* ===================================================================== *)

Lemma post_links_are_campaign_urls (py : pylib) (w : world) (post_url l : string) :
  l ∈ post_links py w post_url ->
  http_url py l /\ is_campaign_url py l = true.
Proof.
  unfold post_links.
  destruct (requests_get w post_url) as [text|]; [| set_solver].
  destruct (_extract_url_candidates py text post_url) as [c|] eqn:Hc; [| set_solver].
  intros Hl. apply elem_of_filter_campaign_urls in Hl as [Hin Hcamp].
  unfold _extract_url_candidates in Hc.
  apply (elem_of_normalize_candidates py _ c post_url l Hc) in Hin as [bp [x [_ [_ Hn]]]].
  apply normalize_url_resolves in Hn as [_ Hhttp]. done.
Qed.

(** The run of [post_scrap] when posts are collected *)
Lemma post_scrap_run (py : pylib) (cfg : config) (w : world) (st : state) :
  collected_posts py cfg w <> ∅ ->
  post_scrap py cfg w st
  = (tt,
     mkState (collected_posts py cfg w)
             (saved_file w (visited_urls_file st) (collected_posts py cfg w))
             (break_point_file st)
             (trace st
              ++ listing_fetches cfg
              ++ (HttpGet <$> unvisited (visited_urls st)
                                        (elements (collected_posts py cfg w)))
              ++ (if bool_decide
                       (⋃ (post_links py w
                             <$> unvisited (visited_urls st)
                                           (elements (collected_posts py cfg w))) = ∅)
                  then []
                  else flat_map
                         (account_events w
                            (⋃ (post_links py w
                                  <$> unvisited (visited_urls st)
                                                (elements (collected_posts py cfg w)))))
                         (_get_naver_accounts cfg))
              ++ [WriteVisited])).
Proof.
  intros Hne. unfold post_scrap. rewrite bind_run, collect_sites_run. simpl.
  fold (collected_posts py cfg w) (listing_fetches cfg).
  rewrite bool_decide_eq_false_2 by done.
  rewrite bind_run, campaign_scrap_run. simpl.
  set (links := ⋃ _). set (fetches := HttpGet <$> _).
  rewrite bind_run.
  assert (Hcoin : (if bool_decide (links = ∅) then mret tt else get_coin cfg w links)
                    (add_events (add_events st (listing_fetches cfg)) fetches)
                  = (tt, add_events (add_events (add_events st (listing_fetches cfg)) fetches)
                           (if bool_decide (links = ∅) then []
                            else flat_map (account_events w links)
                                          (_get_naver_accounts cfg)))).
  { case_bool_decide as Hl.
    - by rewrite ret_run, add_events_nil.
    - rewrite get_coin_run. by rewrite bool_decide_eq_false_2 by done. }
  rewrite Hcoin. simpl. rewrite bind_run. unfold set_visited_urls. simpl.
  unfold _save_visited_urls, saved_file, add_events. simpl.
  rewrite <- !(assoc_L (++)).
  destruct (visited_write w); reflexivity.
Qed.

(** X21: what a run fetches.  Every page [post_scrap] requests is the
    listing page of a configured site or a collected post that is not
    in the visited set; each configured site is requested, and so is
    each collected post that is not in the visited set. *)
Theorem post_scrap_fetches (py : pylib) (cfg : config) (w : world) (st : state) :
  exists evs,
    trace (post_scrap py cfg w st).2 = (trace st ++ evs)%list
    /\ (forall url,
          HttpGet url ∈ evs <->
          (exists site, site ∈ SCRAPING_SITES cfg /\ url = site.1)
          \/ (url ∈ collected_posts py cfg w /\ (url ∉ visited_urls st))).
Proof.
  destruct (decide (collected_posts py cfg w = ∅)) as [He | Hne].
  - rewrite post_scrap_no_posts by done. eexists. split; [reflexivity |].
    intros url. unfold listing_fetches. rewrite list_elem_of_fmap. split.
    + intros [site [[= ->] Hs]]. left. by exists site.
    + intros [[site [Hs ->]] | [Hin _]]; [by exists site |].
      rewrite He in Hin. set_solver.
  - rewrite post_scrap_run by done. simpl. eexists. split; [reflexivity |].
    intros url. rewrite !elem_of_app. unfold listing_fetches.
    rewrite !list_elem_of_fmap. split.
    + intros [[site [[= ->] Hs]] | [[p [[= ->] Hp]] | [Hcoin | Hw]]].
      * left. by exists site.
      * right. unfold unvisited in Hp. apply list_elem_of_filter in Hp as [Hnv Hp].
        by apply elem_of_elements in Hp.
      * exfalso. case_bool_decide; [by apply elem_of_nil in Hcoin |].
        apply list_elem_of_In, in_flat_map in Hcoin as [a [_ Hin]].
        apply list_elem_of_In in Hin. unfold account_events in Hin.
        apply elem_of_cons in Hin as [Hin | Hin]; [discriminate |].
        case_bool_decide; [| by apply elem_of_nil in Hin].
        apply elem_of_app in Hin as [Hin | Hin].
        -- apply elem_of_cons in Hin as [Hin | Hin]; [discriminate |].
           destruct (login_ok w a.1 a.2); [| by apply elem_of_nil in Hin].
           apply list_elem_of_fmap in Hin as [l [Hl _]]. discriminate.
        -- apply list_elem_of_singleton in Hin. discriminate.
      * apply list_elem_of_singleton in Hw. discriminate.
    + intros [[site [Hs ->]] | [Hin Hnv]].
      * left. by exists site.
      * right. left. exists url. split; [done |].
        unfold unvisited. apply list_elem_of_filter. split; [done |].
        by apply elem_of_elements.
Qed.

(** X22: what a run shows to the browser.  Every link [post_scrap]
    opens in Firefox parses with scheme [http] or [https] and a netloc
    that is not empty, is classified by the filter as a campaign URL and
    was found in a collected post that is not in the visited set; it is
    opened under an account of [_get_naver_accounts] whose driver was
    returned and whose login succeeded.  Firefox is started only when
    there is such a link. *)
Theorem post_scrap_visits_campaign_urls_only (py : pylib) (cfg : config) (w : world)
        (st : state) :
  exists evs,
    trace (post_scrap py cfg w st).2 = (trace st ++ evs)%list
    /\ (forall account_id link,
          DriverGet account_id link ∈ evs ->
          http_url py link
          /\ is_campaign_url py link = true
          /\ (exists post_url,
                post_url ∈ collected_posts py cfg w /\ (post_url ∉ visited_urls st)
                /\ link ∈ post_links py w post_url)
          /\ (exists password,
                (account_id, password) ∈ _get_naver_accounts cfg
                /\ firefox_driver w account_id = DriverReturned
                /\ login_ok w account_id password = true))
    /\ (forall account_id,
          DriverStart account_id ∈ evs ->
          exists post_url link,
            post_url ∈ collected_posts py cfg w /\ (post_url ∉ visited_urls st)
            /\ link ∈ post_links py w post_url).
Proof.
  destruct (decide (collected_posts py cfg w = ∅)) as [He | Hne].
  - rewrite post_scrap_no_posts by done. eexists. split; [reflexivity |].
    unfold listing_fetches. split.
    + intros account_id link Hin. apply list_elem_of_fmap in Hin as [site [Hs _]].
      discriminate.
    + intros account_id Hin. apply list_elem_of_fmap in Hin as [site [Hs _]].
      discriminate.
  - rewrite post_scrap_run by done. simpl. eexists. split; [reflexivity |].
    set (links := ⋃ _).
    assert (Hlinks : forall l, l ∈ links ->
              exists post_url, post_url ∈ collected_posts py cfg w
                               /\ (post_url ∉ visited_urls st)
                               /\ l ∈ post_links py w post_url).
    { intros l Hl. subst links. by apply elem_of_campaign_links in Hl. }
    assert (Hcoin : forall e,
              e ∈ (listing_fetches cfg
                   ++ (HttpGet <$> unvisited (visited_urls st)
                                             (elements (collected_posts py cfg w)))
                   ++ (if bool_decide (links = ∅) then []
                       else flat_map (account_events w links) (_get_naver_accounts cfg))
                   ++ [WriteVisited])%list ->
              is_driver e ->
              links <> ∅
              /\ exists a, a ∈ _get_naver_accounts cfg /\ e ∈ account_events w links a).
    { intros e Hin He. rewrite !elem_of_app in Hin. unfold listing_fetches in Hin.
      destruct Hin as [Hin | [Hin | [Hin | Hin]]].
      - apply list_elem_of_fmap in Hin as [x [-> _]]. destruct He.
      - apply list_elem_of_fmap in Hin as [x [-> _]]. destruct He.
      - case_bool_decide as Hl; [by apply elem_of_nil in Hin |]. split; [done |].
        apply list_elem_of_In, in_flat_map in Hin as [a [Ha Hin]].
        exists a. by rewrite !list_elem_of_In.
      - apply list_elem_of_singleton in Hin as ->. destruct He. }
    split.
    + intros account_id link Hin.
      destruct (Hcoin _ Hin I) as [_ [a [Ha Hev]]].
      apply elem_of_account_events_get in Hev as [-> [Hl [Hs Hlog]]].
      destruct (Hlinks link Hl) as [post_url [Hp [Hnv Hpl]]].
      destruct (post_links_are_campaign_urls py w post_url link Hpl) as [Hhttp Hcamp].
      split; [done |]. split; [done |]. split; [by exists post_url |].
      exists a.2. by destruct a.
    + intros account_id Hin.
      destruct (Hcoin _ Hin I) as [Hl _].
      apply set_choose_L in Hl as [link Hl].
      destruct (Hlinks link Hl) as [post_url [Hp [Hnv Hpl]]].
      by exists post_url, link.
Qed.

Module StripFacts.
Import PyStr.

Lemma app_nil_r_string (s : string) : s ++ "" = s.
Proof.
  induction s as [|c s IH]; [done |].
  rewrite ContainsFacts.app_cons_string. by rewrite IH.
Qed.

Lemma rev_string_app (acc s : string) : rev_string acc s = rev_string "" s ++ acc.
Proof.
  revert acc. induction s as [|c s IH]; intros acc; [done |].
  cbn [rev_string]. rewrite (IH (String c acc)), (IH (String c "")).
  rewrite ContainsFacts.app_assoc_string. by rewrite ContainsFacts.app_cons_string.
Qed.

Lemma rev_app (a b : string) :
  rev_string "" (a ++ b) = rev_string "" b ++ rev_string "" a.
Proof.
  induction a as [|c a IH].
  - rewrite ContainsFacts.app_nil_string. cbn [rev_string]. by rewrite app_nil_r_string.
  - rewrite ContainsFacts.app_cons_string. cbn [rev_string].
    rewrite (rev_string_app (String c "") (a ++ b)), IH.
    rewrite (rev_string_app (String c "") a).
    by rewrite ContainsFacts.app_assoc_string.
Qed.

Lemma rev_involutive (s : string) : rev_string "" (rev_string "" s) = s.
Proof.
  induction s as [|c s IH]; [done |].
  cbn [rev_string]. rewrite (rev_string_app (String c "") s), rev_app, IH. reflexivity.
Qed.

Lemma lstrip_head_kept (p : ascii -> bool) (s : string) : head_kept p (lstrip p s).
Proof.
  induction s as [|c s IH]; [done |]. cbn [lstrip].
  destruct (p c) eqn:Hc; [done |]. exact Hc.
Qed.

Lemma lstrip_id (p : ascii -> bool) (s : string) : head_kept p s -> lstrip p s = s.
Proof. destruct s as [|c s]; [done |]. simpl. by intros ->. Qed.

Lemma lstrip_app_last (p : ascii -> bool) (a : string) (c : ascii) :
  p c = false -> lstrip p (a ++ String c "") = lstrip p a ++ String c "".
Proof.
  intros Hc. induction a as [|d a IH].
  - rewrite ContainsFacts.app_nil_string. cbn [lstrip]. by rewrite Hc.
  - rewrite ContainsFacts.app_cons_string. cbn [lstrip].
    destruct (p d); [exact IH |]. by rewrite ContainsFacts.app_cons_string.
Qed.

Lemma rstrip_cons (p : ascii -> bool) (c : ascii) (s : string) :
  p c = false -> rstrip p (String c s) = String c (rstrip p s).
Proof.
  intros Hc. unfold rstrip. cbn [rev_string].
  rewrite (rev_string_app (String c "") s), lstrip_app_last by done.
  rewrite rev_app. reflexivity.
Qed.

Lemma rstrip_idempotent (p : ascii -> bool) (s : string) :
  rstrip p (rstrip p s) = rstrip p s.
Proof.
  unfold rstrip. rewrite rev_involutive.
  by rewrite (lstrip_id p (lstrip p _)) by apply lstrip_head_kept.
Qed.

Lemma strip_idempotent (s : string) : strip (strip s) = strip s.
Proof.
  unfold strip. pose proof (lstrip_head_kept is_space s) as Hh.
  destruct (lstrip is_space s) as [|c t]; [reflexivity |]. simpl in Hh.
  rewrite rstrip_cons by done.
  rewrite (lstrip_id is_space (String c _)) by exact Hh.
  rewrite <- (rstrip_cons is_space c t Hh). apply rstrip_idempotent.
Qed.

Lemma mem_app (c : ascii) (a b : string) : mem c (a ++ b) = mem c a || mem c b.
Proof.
  induction a as [|d a IH]; [done |].
  rewrite ContainsFacts.app_cons_string. cbn [mem]. rewrite IH. by rewrite orb_assoc.
Qed.

Lemma mem_rev (c : ascii) (s : string) : mem c (rev_string "" s) = mem c s.
Proof.
  induction s as [|c0 s IH]; [done |].
  cbn [rev_string]. rewrite (rev_string_app (String c0 "") s), mem_app, IH. cbn [mem].
  rewrite orb_false_r. apply orb_comm.
Qed.

Lemma mem_lstrip (c : ascii) (p : ascii -> bool) (s : string) :
  mem c s = false -> mem c (lstrip p s) = false.
Proof.
  induction s as [|d s IH]; [done |]. cbn [lstrip mem].
  intros H. apply orb_false_iff in H as [H1 H2].
  destruct (p d); [by apply IH |]. cbn [mem]. by rewrite H1, H2.
Qed.

Lemma mem_strip (c : ascii) (s : string) : mem c s = false -> mem c (strip s) = false.
Proof.
  intros H. unfold strip, rstrip. rewrite mem_rev. apply mem_lstrip.
  rewrite mem_rev. by apply mem_lstrip.
Qed.

Lemma split_pieces_without (c e : ascii) (s : string) :
  (e = c \/ mem e s = false) -> Forall (fun x => mem e x = false) (split c s).
Proof.
  induction s as [|d s IH]; intros He.
  - repeat constructor.
  - cbn [split]. destruct (Ascii.eqb c d) eqn:Hcd.
    + constructor; [done |]. apply IH. destruct He as [-> | H]; [by left |].
      right. cbn [mem] in H. by apply orb_false_iff in H as [_ H].
    + assert (Hed : Ascii.eqb e d = false).
      { destruct He as [-> | H]; [done |]. cbn [mem] in H.
        by apply orb_false_iff in H as [H _]. }
      assert (IH' : Forall (fun x => mem e x = false) (split c s)).
      { apply IH. destruct He as [-> | H]; [by left |].
        right. cbn [mem] in H. by apply orb_false_iff in H as [_ H]. }
      destruct (split c s) as [|w ws].
      * repeat constructor. cbn [mem]. by rewrite Hed.
      * apply Forall_cons in IH' as [Hw Hws]. constructor; [| done].
        cbn [mem]. by rewrite Hed, Hw.
Qed.

Lemma isascii_app (a b : string) : isascii (a ++ b) = isascii a && isascii b.
Proof.
  induction a as [|d a IH]; [done |].
  rewrite ContainsFacts.app_cons_string. cbn [isascii]. rewrite IH.
  by rewrite andb_assoc.
Qed.

Lemma isascii_rev (s : string) : isascii (rev_string "" s) = isascii s.
Proof.
  induction s as [|c s IH]; [done |].
  cbn [rev_string]. rewrite (rev_string_app (String c "") s), isascii_app, IH.
  cbn [isascii]. rewrite andb_true_r. apply andb_comm.
Qed.

Lemma isascii_lstrip (p : ascii -> bool) (s : string) :
  isascii s = true -> isascii (lstrip p s) = true.
Proof.
  induction s as [|d s IH]; [done |]. cbn [lstrip].
  destruct (p d); [| done]. cbn [isascii]. intros H.
  apply andb_true_iff in H as [_ H]. by apply IH.
Qed.

Lemma isascii_strip (s : string) : isascii s = true -> isascii (strip s) = true.
Proof.
  intros H. unfold strip, rstrip. rewrite isascii_rev. apply isascii_lstrip.
  rewrite isascii_rev. by apply isascii_lstrip.
Qed.

Lemma split_pieces_ascii (c : ascii) (s : string) :
  isascii s = true -> Forall (fun x => isascii x = true) (split c s).
Proof.
  induction s as [|d s IH]; intros Hs.
  - repeat constructor.
  - cbn [isascii] in Hs. apply andb_true_iff in Hs as [Hd Hs].
    specialize (IH Hs). cbn [split]. destruct (Ascii.eqb c d).
    + by constructor.
    + destruct (split c s) as [|w ws].
      * repeat constructor. cbn [isascii]. by rewrite Hd.
      * apply Forall_cons in IH as [Hw Hws]. constructor; [| done].
        cbn [isascii]. by rewrite Hd, Hw.
Qed.

Lemma file_lines_ascii (text : string) :
  isascii text = true -> Forall (fun x => isascii x = true) (file_lines text).
Proof.
  intros Ht. unfold file_lines.
  pose proof (split_pieces_ascii "010" text Ht) as Hlf.
  induction Hlf as [|x l Hx _ IH]; [constructor |].
  cbn [flat_map]. apply Forall_app. split; [| exact IH].
  by apply split_pieces_ascii.
Qed.

Lemma file_lines_without_breaks (text : string) :
  Forall (fun x => mem "010" x = false /\ mem "013" x = false) (file_lines text).
Proof.
  unfold file_lines.
  pose proof (split_pieces_without "010" "010" text (or_introl eq_refl)) as Hlf.
  induction Hlf as [|x l Hx _ IH]; [constructor |].
  cbn [flat_map]. apply Forall_app. split; [| exact IH].
  pose proof (split_pieces_without "013" "010" x (or_intror Hx)) as H1.
  pose proof (split_pieces_without "013" "013" x (or_introl eq_refl)) as H2.
  apply Forall_forall. intros y Hy.
  split; [by eapply Forall_forall in H1 | by eapply Forall_forall in H2].
Qed.

End StripFacts.

(** The visited set loaded from an ASCII file holds clean URLs only. *)
Lemma loaded_urls_are_clean (w : world) (st : state) (u : string) :
  (forall text, visited_urls_file st = Some text -> PyStr.isascii text = true) ->
  u ∈ (_load_visited_urls w st).1 -> clean_url u.
Proof.
  intros Hascii. unfold _load_visited_urls.
  destruct (visited_urls_file st) as [text|]; [| set_solver].
  specialize (Hascii text eq_refl).
  destruct (visited_readable w); [| set_solver]. simpl.
  rewrite elem_of_list_to_set, list_elem_of_filter, list_elem_of_In, in_map_iff.
  intros [Hne [x [<- Hx]]]. apply list_elem_of_In in Hx.
  pose proof (StripFacts.file_lines_without_breaks text) as Hall.
  eapply Forall_forall in Hall as [Hlf Hcr]; [| exact Hx].
  pose proof (StripFacts.file_lines_ascii text Hascii) as Hasc.
  eapply Forall_forall in Hasc; [| exact Hx].
  apply Is_true_true, truthy_true in Hne.
  split; [done |]. split; [apply StripFacts.strip_idempotent |].
  split; [by apply StripFacts.mem_strip |].
  split; [by apply StripFacts.mem_strip | by apply StripFacts.isascii_strip].
Qed.

(** X23: the visited set is stable under the file.  Whatever lines of
    ASCII text the visited-urls file holds, the URLs loaded from it are
    clean: not empty, without white space at either end and without a
    line break.  So when the write and the read succeed, saving the
    loaded set and loading it again gives the same set. *)
Theorem loaded_visited_set_is_stable (w : world) (st : state) :
  (forall text, visited_urls_file st = Some text -> PyStr.isascii text = true) ->
  visited_write w = WriteOk ->
  visited_readable w = true ->
  (forall u, u ∈ (_load_visited_urls w st).1 -> clean_url u)
  /\ (_load_visited_urls w
        (_save_visited_urls w
           (mkState (_load_visited_urls w st).1 (visited_urls_file st)
                    (break_point_file st) (trace st))).2).1
     = (_load_visited_urls w st).1.
Proof.
  intros Hascii Hwrite Hread.
  split; [intros u; by apply loaded_urls_are_clean |].
  unfold _save_visited_urls. rewrite Hwrite. simpl.
  unfold _load_visited_urls at 1. simpl. rewrite Hread.
  apply load_lines_of_clean_urls. intros u. by apply loaded_urls_are_clean.
Qed.

(** The theorem on a file with blank lines, padding and a carriage
    return *)
Lemma loaded_visited_set_is_stable_witness :
  (forall u,
      u ∈ (_load_visited_urls example_world
             (mkState ∅ (Some (String "010" ("  https://a.example/1 "
                                  ++ String "013" (String "010" "https://a.example/2"))))
                      None [])).1 ->
      clean_url u)
  /\ (_load_visited_urls example_world
        (_save_visited_urls example_world
           (mkState
              (_load_visited_urls example_world
                 (mkState ∅ (Some (String "010" ("  https://a.example/1 "
                                      ++ String "013" (String "010" "https://a.example/2"))))
                          None [])).1
              (Some (String "010" ("  https://a.example/1 "
                        ++ String "013" (String "010" "https://a.example/2"))))
              None [])).2).1
     = (_load_visited_urls example_world
          (mkState ∅ (Some (String "010" ("  https://a.example/1 "
                               ++ String "013" (String "010" "https://a.example/2"))))
                   None [])).1.
Proof.
  apply (loaded_visited_set_is_stable example_world
           (mkState ∅ (Some (String "010" ("  https://a.example/1 "
                                ++ String "013" (String "010" "https://a.example/2"))))
                    None [])).
  - intros text [= <-]. vm_compute. reflexivity.
  - reflexivity.
  - reflexivity.
Defined.
